(** * niuflow-trade-service: admission and order-lifecycle control plane

    A shallow embedding of the TypeScript services
    - [AuthService]       (middleware/auth.ts),
    - [RateLimitService]  (middleware/rateLimit.ts),
    - [CacheService]      (services/CacheService.ts),
    - [ExchangeService]   (services/ExchangeService.ts),
    - [OrderService]      (services/OrderService.ts),
    - [Database]          (db/index.ts),
    followed by the properties of the specification that concern them and
    by further properties of the same code.

    Conventions of the embedding.
    - An [async] method is a state-passing computation [M A] over a [World]
      holding the relational tables, the Redis key space, the behaviour of the
      remote venue and a chronological trace of the effects performed.
    - A thrown exception is the outcome [Throw e]; [try_catch] and
      [try_finally] are the source's [try]/[catch]/[finally].
    - Strings are byte strings (UTF-8); JavaScript numbers that are counters,
      identifiers or timestamps are [Z], amounts and prices are [Q].
    - Calls to the logger are left out: they change nothing the services
      observe.
    - Statements sent to PostgreSQL always execute: connection faults and
      constraint violations of the record store are outside the model. *)

From Stdlib Require Import ZArith QArith Lia List Ascii String.
From stdpp Require Import base option list gmap strings pretty.

Close Scope Q_scope.
Local Open Scope string_scope.
Local Open Scope list_scope.
Local Open Scope Z_scope.

(* ===================================================================== *)
(** ** JavaScript primitives used by the services *)
(* ===================================================================== *)

Module JS.

Definition code (c : ascii) : Z := Z.of_nat (nat_of_ascii c).

(** [String.prototype.toLowerCase], on the ASCII letters. *)
Definition lower_char (c : ascii) : ascii :=
  if (65 <=? code c) && (code c <=? 90)
  then ascii_of_nat (nat_of_ascii c + 32) else c.

Fixpoint toLowerCase (s : string) : string :=
  match s with
  | EmptyString => EmptyString
  | String c r => String (lower_char c) (toLowerCase r)
  end.

(** [s.startsWith(p)]. *)
Fixpoint startsWith (s p : string) : bool :=
  match p, s with
  | EmptyString, _ => true
  | String _ _, EmptyString => false
  | String a p', String b s' => if Ascii.eqb a b then startsWith s' p' else false
  end.

(** [s.includes(sub)]. *)
Fixpoint includes (s sub : string) : bool :=
  if startsWith s sub then true
  else match s with
       | EmptyString => false
       | String _ r => includes r sub
       end.

(** White space skipped by [parseInt] and removed by [trim] (the ASCII part
    of the ECMAScript class). *)
Definition is_ws (c : ascii) : bool :=
  let n := code c in
  (n =? 32) || (n =? 9) || (n =? 10) || (n =? 11) || (n =? 12) || (n =? 13).

Fixpoint skip_ws (s : string) : string :=
  match s with
  | String c r => if is_ws c then skip_ws r else s
  | EmptyString => EmptyString
  end.

Definition digit_value (radix : Z) (c : ascii) : option Z :=
  let n := code c in
  let v := if (48 <=? n) && (n <=? 57) then Some (n - 48)
           else if (97 <=? n) && (n <=? 122) then Some (n - 87)
           else if (65 <=? n) && (n <=? 90) then Some (n - 55)
           else None in
  match v with
  | Some d => if d <? radix then Some d else None
  | None => None
  end.

Fixpoint digits (radix : Z) (s : string) (acc : option Z) : option Z :=
  match s with
  | EmptyString => acc
  | String c r =>
      match digit_value radix c with
      | Some d => digits radix r (Some (radix * default 0 acc + d))
      | None => acc
      end
  end.

(** [parseInt(s)] with no radix argument; [None] is [NaN].  The value is
    exact, as the source's is for fewer than sixteen digits. *)
Definition parseInt (s : string) : option Z :=
  let s1 := skip_ws s in
  let '(sign, s2) :=
    match s1 with
    | String "-" r => (-1, r)
    | String "+" r => (1, r)
    | _ => (1, s1)
    end in
  let '(radix, s3) :=
    match s2 with
    | String "0" (String "x" r) => (16, r)
    | String "0" (String "X" r) => (16, r)
    | _ => (10, s2)
    end in
  Z.mul sign <$> digits radix s3 None.

(** [n || 0] for a number: [NaN] and [0] give [0]. *)
Definition or_zero (n : option Z) : Z := default 0 n.

(** A string used as a condition: the empty string is falsy. *)
Definition truthy (s : string) : bool :=
  match s with EmptyString => false | _ => true end.

(** [s.split(',')[0]]. *)
Fixpoint before_comma (s : string) : string :=
  match s with
  | EmptyString => EmptyString
  | String c r => if Ascii.eqb c "," then EmptyString else String c (before_comma r)
  end.

Definition trim (s : string) : string :=
  String.rev (skip_ws (String.rev (skip_ws s))).

(** An integer inside a template literal. *)
Definition show (n : Z) : string := pretty n.

End JS.

(* ===================================================================== *)
(** ** Errors (utils/error.ts) *)
(* ===================================================================== *)

(** [PlainError] is a bare [Error], as the venue connector and the crypto
    library throw; the others are the subclasses of [AppError]. *)
Inductive ErrorClass :=
| PlainError | ValidationError | AuthenticationError | AuthorizationError
| NotFoundError | RateLimitError | ExchangeError | InsufficientBalanceError
| DatabaseError | CacheError.

#[global] Instance ErrorClass_eq_dec : EqDecision ErrorClass.
Proof. solve_decision. Defined.

(** The [details] of a [RateLimitError]. *)
Record RateLimitDetails := mkDetails {
  details_limit : Z;
  details_current : Z;
  details_retryAfter : Z
}.

Record Error := mkError {
  err_class : ErrorClass;
  message : string;
  details : option RateLimitDetails
}.

Definition new_Error (c : ErrorClass) (msg : string) : Error :=
  mkError c msg None.

(** [e instanceof C]. *)
Definition instanceof (e : Error) (c : ErrorClass) : bool :=
  bool_decide (err_class e = c).

(* ===================================================================== *)
(** ** Data model (types/index.ts, db/schema.sql) *)
(* ===================================================================== *)

Inductive UserStatus := active | inactive | suspended.

#[global] Instance UserStatus_eq_dec : EqDecision UserStatus.
Proof. solve_decision. Defined.

(** A row of [users].  [AuthService] reads the secret under the interface
    name [apiSecret]; [OrderService] reads the venue credentials under the
    column names. *)
Record User := mkUser {
  user_id : Z;
  api_key : string;
  apiSecret : string;
  user_exchange : string;
  exchange_api_key : option string;
  exchange_secret : option string;
  permissions : list string;
  user_status : UserStatus
}.

Inductive Side := buy | sell.
Inductive OrderType := limit_order | market_order.

(** The [status] column of [orders]. *)
Inductive OrderStatus := pending | filled | canceled | failed.

#[global] Instance OrderStatus_eq_dec : EqDecision OrderStatus.
Proof. solve_decision. Defined.

(** A row of [orders] (the two timestamps are left out). *)
Record Order := mkOrder {
  id : Z;
  order_user_id : Z;
  exchange : string;
  exchange_order_id : option string;
  symbol : string;
  side : Side;
  type : OrderType;
  price : option Q;
  amount : Q;
  order_filled : Q;
  status : OrderStatus;
  fee : option Q;
  fee_currency : option string;
  error : option string
}.

(** [CreateOrderRequest]: [OrderParams] with [userId] and [exchange]. *)
Record CreateOrderRequest := mkRequest {
  req_userId : Z;
  req_exchange : string;
  req_symbol : string;
  req_side : Side;
  req_type : OrderType;
  req_amount : Q;
  req_price : option Q
}.

(** What the venue connector (ccxt) returns for an order; every field may be
    missing. *)
Record Fee := mkFee { cost : option Q; currency : option string }.

Record ExchangeOrder := mkExchangeOrder {
  xo_id : option string;
  xo_status : option string;
  xo_filled : option Q;
  xo_fee : option Fee
}.

(** One answer of the remote venue: a result object, or a thrown [Error] with
    the given message. *)
Inductive VenueReply :=
| VenueResult (o : ExchangeOrder)
| VenueThrows (msg : string).

Inductive VenueCall :=
| CallCreateOrder (sym : string) (t : OrderType) (s : Side) (amt : Q) (p : option Q)
| CallCancelOrder (orderId sym : string)
| CallFetchOrder (orderId sym : string)
| CallFetchTicker (sym : string).

(** The statements the services send through [Database.query]. *)
Inductive Statement :=
| SelectUserByApiKey (key : string)
| SelectUserById (uid : Z)
| InsertOrder (r : CreateOrderRequest)
| UpdateOrderStatus (oid : Z) (st : OrderStatus)
| UpdateExchangeOrderId (oid : Z) (xid : string)
| SelectOrderById (oid : Z) (owner : option Z).

(** The statements sent on the client checked out by [Database.transaction]. *)
Inductive TxCommand := BEGIN | COMMIT | ROLLBACK.

(** Effects, in the order they happen. *)
Inductive Event :=
| EvClient (c : TxCommand)       (* client.query('BEGIN' | 'COMMIT' | 'ROLLBACK') *)
| EvRelease                      (* client.release() *)
| EvPool (s : Statement)         (* pool.query(...), in its own implicit transaction *)
| EvVenue (c : VenueCall)        (* one request to the remote venue *)
| EvSleep (ms : Z).              (* setTimeout(resolve, ms) *)

(** A Redis counter: its value and the expiry set on it, in seconds. *)
Record Counter := mkCounter { count : Z; expiry : option Z }.

Record RateLimitConfig := mkConfig {
  windowMs : Z;
  maxRequests : Z
}.

Record World := mkWorld {
  users : list User;                (* table users, in scan order *)
  orders : gmap Z Order;            (* table orders, by primary key *)
  orders_seq : Z;                   (* last value of the BIGSERIAL sequence *)
  redis_up : bool;                  (* false: every Redis command fails *)
  counters : gmap string Counter;   (* Redis keys ratelimit:... *)
  user_cache : gmap string User;    (* Redis keys user:..., parsed JSON *)
  endpointConfigs : list (string * RateLimitConfig); (* RateLimitService.endpointConfigs, in insertion order *)
  defaultConfig : RateLimitConfig;
  exchanges : list string;          (* keys of ExchangeService.exchanges *)
  ccxt : string -> bool;            (* ccxt[name] is an exchange class *)
  decrypt : string -> option string; (* configManager.decryptSensitiveData; None: it throws *)
  hmac_sha256 : string -> string -> string; (* createHmac('sha256', key).update(msg).digest('hex') *)
  now : Z;                          (* Date.now() *)
  venue : nat -> VenueReply;        (* the i-th answer of the remote venue *)
  venue_calls : nat;                (* requests sent to the venue so far *)
  trace : list Event
}.

(* ===================================================================== *)
(** ** Computations: state passing with exceptions *)
(* ===================================================================== *)

Inductive Outcome (A : Type) :=
| Return (a : A)
| Throw (e : Error).
Arguments Return {A} a.
Arguments Throw {A} e.

Definition M (A : Type) : Type := World -> Outcome A * World.

Definition ret {A} (a : A) : M A := fun w => (Return a, w).

Definition throw {A} (e : Error) : M A := fun w => (Throw e, w).

Definition bind {A B} (m : M A) (k : A -> M B) : M B :=
  fun w =>
    match m w with
    | (Return a, w') => k a w'
    | (Throw e, w') => (Throw e, w')
    end.

Notation "'let*' x ':=' c 'in' k" := (bind c (fun x => k))
  (at level 10, x pattern, c at level 100, k at level 200).
Notation "c ';;' k" := (bind c (fun _ => k))
  (at level 100, k at level 200, right associativity).

(** [try { m } catch (e) { h e }]. *)
Definition try_catch {A} (m : M A) (h : Error -> M A) : M A :=
  fun w =>
    match m w with
    | (Return a, w') => (Return a, w')
    | (Throw e, w') => h e w'
    end.

(** [try { m } finally { f }], for an [f] that does not throw. *)
Definition try_finally {A} (m : M A) (f : World -> World) : M A :=
  fun w => let '(r, w') := m w in (r, f w').

Definition get_world : M World := fun w => (Return w, w).

Definition modify (f : World -> World) : M unit := fun w => (Return tt, f w).

Definition set_trace (t : list Event) (w : World) : World :=
  mkWorld (users w) (orders w) (orders_seq w) (redis_up w) (counters w)
          (user_cache w) (endpointConfigs w) (defaultConfig w) (exchanges w) (ccxt w) (decrypt w)
          (hmac_sha256 w) (now w) (venue w) (venue_calls w) t.

Definition set_orders (m : gmap Z Order) (seq : Z) (w : World) : World :=
  mkWorld (users w) m seq (redis_up w) (counters w)
          (user_cache w) (endpointConfigs w) (defaultConfig w) (exchanges w) (ccxt w) (decrypt w)
          (hmac_sha256 w) (now w) (venue w) (venue_calls w)
          (trace w).

Definition set_counters (m : gmap string Counter) (w : World) : World :=
  mkWorld (users w) (orders w) (orders_seq w) (redis_up w) m
          (user_cache w) (endpointConfigs w) (defaultConfig w) (exchanges w) (ccxt w) (decrypt w)
          (hmac_sha256 w) (now w) (venue w) (venue_calls w)
          (trace w).

Definition set_user_cache (m : gmap string User) (w : World) : World :=
  mkWorld (users w) (orders w) (orders_seq w) (redis_up w) (counters w)
          m (endpointConfigs w) (defaultConfig w) (exchanges w) (ccxt w) (decrypt w)
          (hmac_sha256 w) (now w) (venue w) (venue_calls w) (trace w).

Definition set_venue_calls (n : nat) (w : World) : World :=
  mkWorld (users w) (orders w) (orders_seq w) (redis_up w) (counters w)
          (user_cache w) (endpointConfigs w) (defaultConfig w) (exchanges w) (ccxt w) (decrypt w)
          (hmac_sha256 w) (now w) (venue w) n (trace w).

Definition log_event (e : Event) (w : World) : World :=
  set_trace (trace w ++ [e]) w.

Definition emit (e : Event) : M unit := modify (log_event e).

(** Falsy-or for optional values: [a || b]. *)
Definition or_else {A} (falsy : A -> bool) (a : option A) (b : option A) : option A :=
  match a with
  | Some x => if falsy x then b else Some x
  | None => b
  end.

Definition Q_falsy (q : Q) : bool := Qeq_bool q 0%Q.
Definition string_falsy (s : string) : bool := negb (JS.truthy s).

(* ===================================================================== *)
(** ** Database (db/index.ts) *)
(* ===================================================================== *)

Module Database.

(** The client handed to the callback of [transaction]. *)
Inductive PoolClient := client.

(** [transaction]: BEGIN on a client checked out of the pool, the callback,
    then COMMIT, or ROLLBACK and rethrow; the client is released at the end.
    The three commands are the only statements sent on that client: every
    method below goes through [Database.query], that is [pool.query], and
    runs on another connection in its own implicit transaction, so neither
    COMMIT nor ROLLBACK changes what it wrote. *)
Definition transaction {A} (callback : PoolClient -> M A) : M A :=
  try_finally
    (try_catch
       (emit (EvClient BEGIN) ;;
        let* result := callback client in
        emit (EvClient COMMIT) ;;
        ret result)
       (fun error => emit (EvClient ROLLBACK) ;; throw error))
    (log_event EvRelease).

(** SELECT * FROM users WHERE api_key = $1 AND status = 'active';
    [rows[0] || null]. *)
Definition getUserByApiKey (apiKey : string) : M (option User) :=
  emit (EvPool (SelectUserByApiKey apiKey)) ;;
  let* w := get_world in
  ret (List.find
         (fun u => String.eqb (api_key u) apiKey
                   && bool_decide (user_status u = active))
         (users w)).

(** SELECT * FROM users WHERE id = $1, as [OrderService.getUserById] sends
    it; the rows found. *)
Definition queryUsersById (userId : Z) : M (list User) :=
  emit (EvPool (SelectUserById userId)) ;;
  let* w := get_world in
  ret (List.filter (fun u => user_id u =? userId) (users w)).

(** INSERT INTO orders (...) VALUES (...) RETURNING *: the key comes from
    the sequence, [status] and [filled] take their column defaults. *)
Definition createOrder (orderData : CreateOrderRequest) : M Order :=
  emit (EvPool (InsertOrder orderData)) ;;
  let* w := get_world in
  let row :=
    mkOrder (orders_seq w + 1) (req_userId orderData) (req_exchange orderData)
            None (req_symbol orderData) (req_side orderData)
            (req_type orderData) (req_price orderData) (req_amount orderData)
            0%Q pending None None None in
  modify (set_orders (<[orders_seq w + 1 := row]> (orders w)) (orders_seq w + 1)) ;;
  ret row.

(** COALESCE($n, column). *)
Definition coalesce {A} (param : option A) (column : A) : A :=
  default column param.

Definition coalesce_null {A} (param column : option A) : option A :=
  match param with Some x => Some x | None => column end.

(** UPDATE orders SET status = $2, filled = COALESCE($3, filled), ...
    WHERE id = $1 RETURNING *; [rows[0]], which is [undefined] when no row
    has that key. *)
Definition updateOrderStatus (orderId : Z) (st : OrderStatus)
    (filled_ fee_ : option Q) (feeCurrency error_ : option string)
    : M (option Order) :=
  emit (EvPool (UpdateOrderStatus orderId st)) ;;
  let* w := get_world in
  match orders w !! orderId with
  | Some o =>
      let row :=
        mkOrder (id o) (order_user_id o) (exchange o) (exchange_order_id o)
                (symbol o) (side o) (type o) (price o) (amount o)
                (coalesce filled_ (order_filled o)) st
                (coalesce_null fee_ (fee o))
                (coalesce_null feeCurrency (fee_currency o))
                (coalesce_null error_ (error o)) in
      modify (set_orders (<[orderId := row]> (orders w)) (orders_seq w)) ;;
      ret (Some row)
  | None => ret None
  end.

Definition set_exchange_order_id (xid : string) (o : Order) : Order :=
  mkOrder (id o) (order_user_id o) (exchange o) (Some xid)
          (symbol o) (side o) (type o) (price o) (amount o)
          (order_filled o) (status o) (fee o) (fee_currency o) (error o).

(** UPDATE orders SET exchange_order_id = $1 WHERE id = $2, sent through
    [query] by [OrderService.createOrder]. *)
Definition queryUpdateExchangeOrderId (xid : string) (orderId : Z) : M unit :=
  emit (EvPool (UpdateExchangeOrderId orderId xid)) ;;
  let* w := get_world in
  match orders w !! orderId with
  | Some o =>
      modify (set_orders (<[orderId := set_exchange_order_id xid o]> (orders w))
                         (orders_seq w))
  | None => ret tt
  end.

(** SELECT * FROM orders WHERE id = $1 [AND user_id = $2]: the owner filter
    is added only for a truthy [userId]. *)
Definition getOrderById (orderId : Z) (userId : option Z) : M (option Order) :=
  let owner :=
    match userId with
    | Some u => if u =? 0 then None else Some u
    | None => None
    end in
  emit (EvPool (SelectOrderById orderId owner)) ;;
  let* w := get_world in
  ret (match orders w !! orderId, owner with
       | Some o, Some u => if order_user_id o =? u then Some o else None
       | Some o, None => Some o
       | None, _ => None
       end).

End Database.

(* ===================================================================== *)
(** ** CacheService (services/CacheService.ts) *)
(* ===================================================================== *)

Module CacheService.

(** A Redis command: it fails when the server cannot be reached, and the
    service rethrows that as a [CacheError]. *)
Definition command {A} (failure : string) (run : World -> A * World) : M A :=
  fun w =>
    if redis_up w
    then let '(a, w') := run w in (Return a, w')
    else (Throw (new_Error CacheError failure), w).

Definition getRateLimitKey (userId : Z) (endpoint : string) : string :=
  "ratelimit:" +:+ JS.show userId +:+ ":" +:+ endpoint.

Definition getUserKey (apiKey : string) : string := "user:" +:+ apiKey.

(** [get<User>(key)] on a key of the user cache. *)
Definition get (key : string) : M (option User) :=
  command ("Failed to get cache key: " +:+ key)
          (fun w => (user_cache w !! key, w)).

(** [set(key, user, ttl)]. *)
Definition set (key : string) (value : User) (ttl : Z) : M unit :=
  command ("Failed to set cache key: " +:+ key)
          (fun w => (tt, set_user_cache (<[key := value]> (user_cache w)) w)).

(** [increment(key, ttl)]: INCR, then EXPIRE when a [ttl] is given and the
    counter was just created. *)
Definition increment (key : string) (ttl : option Z) : M Z :=
  command ("Failed to increment cache key: " +:+ key)
    (fun w =>
       let old := counters w !! key in
       let result := match old with Some c => count c + 1 | None => 1 end in
       let kept := match old with Some c => expiry c | None => None end in
       let expires :=
         match ttl with
         | Some t => if negb (t =? 0) && (result =? 1) then Some t else kept
         | None => kept
         end in
       (result, set_counters (<[key := mkCounter result expires]> (counters w)) w)).

(** [ttl(key)]: TTL, which answers -2 for a missing key and -1 for a key
    without expiry. *)
Definition ttl (key : string) : M Z :=
  command ("Failed to get TTL for cache key: " +:+ key)
    (fun w =>
       (match counters w !! key with
        | None => -2
        | Some c => default (-1) (expiry c)
        end, w)).

End CacheService.

(* ===================================================================== *)
(** ** ExchangeService (services/ExchangeService.ts) *)
(* ===================================================================== *)

Record Credentials := mkCredentials {
  cred_apiKey : string;
  cred_secret : string;
  cred_passphrase : option string
}.

Module ExchangeService.

(** The world after one more request to the venue. *)
Definition after_request (c : VenueCall) (w : World) : World :=
  set_venue_calls (S (venue_calls w)) (log_event (EvVenue c) w).

Definition reply_outcome (r : VenueReply) : Outcome ExchangeOrder :=
  match r with
  | VenueResult o => Return o
  | VenueThrows msg => Throw (new_Error PlainError msg)
  end.

(** One request of a connector instance to the remote venue. *)
Definition request (c : VenueCall) : M ExchangeOrder :=
  fun w => (reply_outcome (venue w (venue_calls w)), after_request c w).

Definition getExchange (exchangeName : string) : M unit :=
  let* w := get_world in
  if bool_decide (JS.toLowerCase exchangeName ∈ exchanges w)
  then ret tt
  else throw (new_Error ExchangeError
                ("Exchange " +:+ exchangeName +:+ " not configured or supported")).

Definition getSupportedExchanges : M (list string) :=
  let* w := get_world in ret (exchanges w).

Definition isNonRetryableError (error : Error) : bool :=
  let message := JS.toLowerCase (message error) in
  if JS.includes message "insufficient"
     || JS.includes message "balance"
     || JS.includes message "invalid symbol"
     || JS.includes message "invalid order"
  then true
  else false.

(** The value thrown by [throw lastError!] when no attempt was made. *)
Definition undefined_thrown : Error := new_Error PlainError "undefined".

(** The loop of [retryOperation] from a given [attempt]; [fuel] counts the
    iterations left, [maxRetries - attempt + 1]. *)
Fixpoint retry_loop {A} (operation : M A) (fuel : nat)
    (attempt maxRetries baseDelay : Z) (lastError : option Error) : M A :=
  match fuel with
  | O => throw (default undefined_thrown lastError)
  | S fuel' =>
      try_catch operation
        (fun error =>
           if isNonRetryableError error then throw error
           else if attempt =? maxRetries
                then throw error
                else
                  let delay := baseDelay * 2 ^ (attempt - 1) in
                  emit (EvSleep delay) ;;
                  retry_loop operation fuel' (attempt + 1) maxRetries
                             baseDelay (Some error))
  end.

Definition retryOperation {A} (operation : M A)
    (maxRetries : Z) (baseDelay : Z) : M A :=
  retry_loop operation (Z.to_nat maxRetries) 1 maxRetries baseDelay None.

(** The default arguments. *)
Definition defaultMaxRetries : Z := 3.
Definition defaultBaseDelay : Z := 1000.

(** [new ccxt[exchange](credentials)] when credentials are given: a
    [TypeError] when [ccxt] has no such class. *)
Definition userInstance (exchange : string) (credentials : option Credentials)
    : M unit :=
  match credentials with
  | None => ret tt
  | Some _ =>
      let* w := get_world in
      if ccxt w exchange then ret tt
      else throw (new_Error PlainError "ExchangeClass is not a constructor")
  end.

(** The operation retried by [createOrder]: the venue request, its error
    rethrown as [InsufficientBalanceError] or [ExchangeError]. *)
Definition createOrderOperation (params : CreateOrderRequest) : M ExchangeOrder :=
  try_catch
    (request (CallCreateOrder (req_symbol params) (req_type params)
                              (req_side params) (req_amount params)
                              (req_price params)))
    (fun error =>
       let errorMessage := JS.toLowerCase (message error) in
       if JS.includes errorMessage "insufficient"
          || JS.includes errorMessage "balance"
       then throw (new_Error InsufficientBalanceError "余额不足")
       else throw (new_Error ExchangeError
                     ("订单创建失败: " +:+ message error))).

Definition createOrder (params : CreateOrderRequest) (exchange : string)
    (userExchangeCredentials : option Credentials) : M ExchangeOrder :=
  getExchange exchange ;;
  userInstance exchange userExchangeCredentials ;;
  retryOperation (createOrderOperation params)
                 defaultMaxRetries defaultBaseDelay.

Definition cancelOrder (orderId symbol exchange : string)
    (userExchangeCredentials : option Credentials) : M ExchangeOrder :=
  getExchange exchange ;;
  userInstance exchange userExchangeCredentials ;;
  retryOperation (request (CallCancelOrder orderId symbol))
                 defaultMaxRetries defaultBaseDelay.

Definition fetchOrder (orderId symbol exchange : string)
    (userExchangeCredentials : option Credentials) : M ExchangeOrder :=
  getExchange exchange ;;
  userInstance exchange userExchangeCredentials ;;
  retryOperation (request (CallFetchOrder orderId symbol))
                 defaultMaxRetries defaultBaseDelay.

End ExchangeService.

(* ===================================================================== *)
(** ** OrderService (services/OrderService.ts) *)
(* ===================================================================== *)

Module OrderService.

(** [side] and [type] range over their declared types, which settles the two
    membership tests of the source. *)
Definition validateOrderParams (params : CreateOrderRequest) : M unit :=
  if string_falsy (req_symbol params)
  then throw (new_Error ValidationError "交易对符号无效")
  else if Q_falsy (req_amount params) || Qle_bool (req_amount params) 0%Q
  then throw (new_Error ValidationError "订单数量必须大于0")
  else if match req_type params, req_price params with
          | limit_order, None => true
          | limit_order, Some p => Q_falsy p || Qle_bool p 0%Q
          | market_order, _ => false
          end
  then throw (new_Error ValidationError "限价订单必须指定有效价格")
  else if string_falsy (req_exchange params)
  then throw (new_Error ValidationError "交易所名称无效")
  else
    let* supportedExchanges := ExchangeService.getSupportedExchanges in
    if bool_decide (req_exchange params ∈ supportedExchanges)
    then ret tt
    else throw (new_Error ValidationError
                  ("不支持的交易所: " +:+ req_exchange params)).

Definition getUserById (userId : Z) : M User :=
  let* rows := Database.queryUsersById userId in
  match rows with
  | [] => throw (new_Error NotFoundError "用户不存在")
  | user :: _ => ret user
  end.

Definition decryptSensitiveData (data : string) : M string :=
  let* w := get_world in
  match decrypt w data with
  | Some clear => ret clear
  | None => throw (new_Error PlainError "bad decrypt")
  end.

Definition getUserExchangeCredentials (user : User) (exchange : string)
    : M Credentials :=
  match exchange_api_key user, exchange_secret user with
  | Some key, Some secret =>
      if string_falsy key || string_falsy secret
      then throw (new_Error ValidationError "用户未配置交易所API凭据")
      else
        let* apiKey := decryptSensitiveData key in
        let* secret' := decryptSensitiveData secret in
        ret (mkCredentials apiKey secret'
               (if String.eqb exchange "okx" then Some "your_passphrase" else None))
  | _, _ => throw (new_Error ValidationError "用户未配置交易所API凭据")
  end.

(** [statusMap[exchangeStatus] || 'pending'], for the statuses of the
    unified venue interface. *)
Definition mapExchangeStatus (exchangeStatus : option string) : OrderStatus :=
  match exchangeStatus with
  | Some "open" => pending
  | Some "closed" => filled
  | Some "canceled" => canceled
  | Some "cancelled" => canceled
  | Some "rejected" => failed
  | Some "expired" => failed
  | _ => pending
  end.

(** Reading a property of [rows[0]] when the UPDATE matched no row. *)
Definition defined (row : option Order) : M Order :=
  match row with
  | Some o => ret o
  | None => throw (new_Error PlainError "Cannot read properties of undefined")
  end.

Definition truthy_id (xid : option string) : option string :=
  match xid with
  | Some s => if JS.truthy s then Some s else None
  | None => None
  end.

Definition createOrder (request : CreateOrderRequest) : M Order :=
  validateOrderParams request ;;
  let* user := Database.getUserByApiKey "" in
  match user with
  | None => throw (new_Error NotFoundError "用户不存在")
  | Some user =>
      let* userCredentials :=
        getUserExchangeCredentials user (req_exchange request) in
      try_catch
        (Database.transaction (fun client =>
           let* dbOrder := Database.createOrder request in
           try_catch
             (let* exchangeOrder :=
                ExchangeService.createOrder request (req_exchange request)
                                            (Some userCredentials) in
              let* updatedOrder :=
                Database.updateOrderStatus
                  (id dbOrder)
                  (mapExchangeStatus (xo_status exchangeOrder))
                  (or_else Q_falsy (xo_filled exchangeOrder) (Some 0%Q))
                  (xo_fee exchangeOrder ≫= cost)
                  (xo_fee exchangeOrder ≫= currency)
                  None in
              match truthy_id (xo_id exchangeOrder) with
              | Some xid =>
                  Database.queryUpdateExchangeOrderId xid (id dbOrder) ;;
                  let* updated := defined updatedOrder in
                  ret (Database.set_exchange_order_id xid updated)
              | None => defined updatedOrder
              end)
             (fun exchangeError =>
                let errorMessage := message exchangeError in
                Database.updateOrderStatus (id dbOrder) failed (Some 0%Q)
                                           None None (Some errorMessage) ;;
                if instanceof exchangeError InsufficientBalanceError
                then throw exchangeError
                else throw (new_Error ExchangeError
                              ("订单创建失败: " +:+ errorMessage)))))
        (fun error => throw error)
  end.

Definition cancelOrder (orderId userId : Z) : M (option Order) :=
  let* found := Database.getOrderById orderId (Some userId) in
  match found with
  | None => throw (new_Error NotFoundError "订单不存在")
  | Some order =>
      if negb (bool_decide (status order = pending))
      then throw (new_Error ValidationError "只能取消待处理的订单")
      else
        let* user := getUserById userId in
        let* userCredentials := getUserExchangeCredentials user (exchange order) in
        try_catch
          (match truthy_id (exchange_order_id order) with
           | Some xid =>
               ExchangeService.cancelOrder xid (symbol order) (exchange order)
                                           (Some userCredentials) ;;
               ret tt
           | None => ret tt
           end ;;
           Database.updateOrderStatus orderId canceled
             (Some (order_filled order)) (fee order) (fee_currency order) None)
          (fun error =>
             Database.updateOrderStatus orderId canceled
               (Some (order_filled order)) (fee order) (fee_currency order)
               (Some ("取消失败: " +:+ message error)))
  end.

(** The refresh shared by [getOrder] and [syncOrderStatus]: fetch the order
    at the venue and store the mapped status. *)
Definition refresh (orderId ownerId : Z) (order : Order) (xid : string) : M Order :=
  let* user := getUserById ownerId in
  let* userCredentials := getUserExchangeCredentials user (exchange order) in
  let* exchangeOrder :=
    ExchangeService.fetchOrder xid (symbol order) (exchange order)
                               (Some userCredentials) in
  let* updatedOrder :=
    Database.updateOrderStatus orderId
      (mapExchangeStatus (xo_status exchangeOrder))
      (or_else Q_falsy (xo_filled exchangeOrder) (Some (order_filled order)))
      (or_else Q_falsy (xo_fee exchangeOrder ≫= cost) (fee order))
      (or_else string_falsy (xo_fee exchangeOrder ≫= currency) (fee_currency order))
      None in
  defined updatedOrder.

Definition getOrder (orderId userId : Z) : M Order :=
  let* found := Database.getOrderById orderId (Some userId) in
  match found with
  | None => throw (new_Error NotFoundError "订单不存在")
  | Some order =>
      match bool_decide (status order = pending),
            truthy_id (exchange_order_id order) with
      | true, Some xid =>
          try_catch (refresh orderId userId order xid)
                    (fun error => ret order)
      | _, _ => ret order
      end
  end.

Definition syncOrderStatus (orderId : Z) : M Order :=
  let* found := Database.getOrderById orderId None in
  match found with
  | None => throw (new_Error NotFoundError "订单不存在")
  | Some order =>
      match truthy_id (exchange_order_id order) with
      | None => ret order
      | Some xid =>
          if bool_decide (status order = filled)
             || bool_decide (status order = canceled)
          then ret order
          else
            try_catch (refresh orderId (order_user_id order) order xid)
                      (fun error => throw error)
      end
  end.

End OrderService.

(* ===================================================================== *)
(** ** AuthService (middleware/auth.ts) *)
(* ===================================================================== *)

(** What [authenticateRequest] returns and [authMiddleware] attaches to the
    request. *)
Record AuthenticatedRequest := mkAuth {
  auth_userId : Z;
  auth_user : User;
  auth_permissions : list string
}.

(** The parts of a Fastify request the two middlewares read; [body] is
    [JSON.stringify(request.body)] when there is a body. *)
Record Request := mkReq {
  method : string;
  url : string;
  body : option string;
  x_api_key : option string;
  x_timestamp : option string;
  x_signature : option string;
  x_forwarded_for : option string;
  x_real_ip : option string;
  ip : option string;
  auth : option AuthenticatedRequest
}.

Module AuthService.

Definition TIME_WINDOW : Z := 5 * 60 * 1000.

Definition getUserByApiKey (apiKey : string) : M (option User) :=
  let cacheKey := CacheService.getUserKey apiKey in
  let* cachedUser := CacheService.get cacheKey in
  match cachedUser with
  | Some cached => ret (Some cached)
  | None =>
      let* user := Database.getUserByApiKey apiKey in
      match user with
      | Some u => CacheService.set cacheKey u 300 ;; ret (Some u)
      | None => ret None
      end
  end.

Definition generateSignature (w : World)
    (timestamp method path body apiSecret : string) : string :=
  let message := timestamp +:+ method +:+ path +:+ body in
  hmac_sha256 w apiSecret message.

Definition verifySignature (request : Request) (timestamp apiSecret
    providedSignature : string) : M bool :=
  let* w := get_world in
  let body := default "" (body request) in
  let message := timestamp +:+ method request +:+ url request +:+ body in
  let expectedSignature := hmac_sha256 w apiSecret message in
  ret (String.eqb expectedSignature providedSignature).

Definition header (h : option string) : option string :=
  match h with
  | Some s => if JS.truthy s then Some s else None
  | None => None
  end.

Definition authenticateRequest (request : Request) : M AuthenticatedRequest :=
  match header (x_api_key request), header (x_timestamp request),
        header (x_signature request) with
  | Some apiKey, Some timestamp, Some signature =>
      let* w := get_world in
      let currentTime := now w in
      match JS.parseInt timestamp with
      | None => throw (new_Error AuthenticationError "无效的时间戳格式")
      | Some requestTime =>
          if Z.abs (currentTime - requestTime) >? TIME_WINDOW
          then throw (new_Error AuthenticationError "请求时间戳超出有效窗口")
          else
            let* user := getUserByApiKey apiKey in
            match user with
            | None => throw (new_Error AuthenticationError "无效的API密钥")
            | Some user =>
                if negb (bool_decide (user_status user = active))
                then throw (new_Error AuthenticationError "用户账户已被禁用")
                else
                  let* isValidSignature :=
                    verifySignature request timestamp (apiSecret user) signature in
                  if negb isValidSignature
                  then throw (new_Error AuthenticationError "签名验证失败")
                  else ret (mkAuth (user_id user) user (permissions user))
            end
      end
  | _, _, _ => throw (new_Error AuthenticationError "缺少认证头信息")
  end.

Definition checkPermission (userPermissions : list string)
    (requiredPermission : string) : bool :=
  bool_decide (requiredPermission ∈ userPermissions)
  || bool_decide ("admin" ∈ userPermissions).

(** [getAuthData]: the attachment, or an [AuthenticationError]. *)
Definition getAuthData (request : Request) : M AuthenticatedRequest :=
  match auth request with
  | Some a => ret a
  | None => throw (new_Error AuthenticationError "未认证的请求")
  end.

End AuthService.

(* ===================================================================== *)
(** ** RateLimitService (middleware/rateLimit.ts) *)
(* ===================================================================== *)

Record RateLimitInfo := mkInfo {
  limit : Z;
  remaining : Z;
  reset : Z;
  retryAfter : option Z
}.

Inductive LimitType := limit_user | limit_ip | limit_global.

Module RateLimitService.

Fixpoint lookup_exact (endpoint : string)
    (configs : list (string * RateLimitConfig)) : option RateLimitConfig :=
  match configs with
  | [] => None
  | (pattern, c) :: rest =>
      if String.eqb pattern endpoint then Some c else lookup_exact endpoint rest
  end.

Fixpoint lookup_prefix (endpoint : string)
    (configs : list (string * RateLimitConfig)) : option RateLimitConfig :=
  match configs with
  | [] => None
  | (pattern, c) :: rest =>
      if JS.startsWith endpoint pattern then Some c else lookup_prefix endpoint rest
  end.

Definition getConfig (endpoint : string) : M RateLimitConfig :=
  let* w := get_world in
  match lookup_exact endpoint (endpointConfigs w) with
  | Some config => ret config
  | None =>
      ret (default (defaultConfig w) (lookup_prefix endpoint (endpointConfigs w)))
  end.

Definition getRateLimitKey (identifier endpoint : string) : string :=
  CacheService.getRateLimitKey (JS.or_zero (JS.parseInt identifier)) endpoint.

Definition getGlobalRateLimitKey (ip : string) : string :=
  "ratelimit:global:" +:+ ip.

(** [Math.ceil(ms / 1000)]. *)
Definition ceil_seconds (ms : Z) : Z := - ((- ms) / 1000).

Definition checkLimit (identifier endpoint : string)
    (config : RateLimitConfig) (type : LimitType) : M RateLimitInfo :=
  let key :=
    match type with
    | limit_global => getGlobalRateLimitKey identifier
    | _ => getRateLimitKey identifier endpoint
    end in
  let windowSeconds := ceil_seconds (windowMs config) in
  try_catch
    (let* currentCount := CacheService.increment key (Some windowSeconds) in
     let* w := get_world in
     let remaining := Z.max 0 (maxRequests config - currentCount) in
     let resetTime := now w + windowMs config in
     if currentCount >? maxRequests config
     then
       let* ttl := CacheService.ttl key in
       throw (mkError RateLimitError "请求频率超限"
                (Some (mkDetails (maxRequests config) currentCount (Z.max 1 ttl))))
     else ret (mkInfo (maxRequests config) remaining resetTime None))
    (fun error =>
       if instanceof error RateLimitError
       then throw error
       else
         let* w := get_world in
         ret (mkInfo (maxRequests config) (maxRequests config)
                     (now w + windowMs config) None)).

Definition is_digit (c : ascii) : bool :=
  (48 <=? JS.code c) && (JS.code c <=? 57).

Definition is_upper (c : ascii) : bool :=
  (65 <=? JS.code c) && (JS.code c <=? 90).

Definition is_uuid_char (c : ascii) : bool :=
  is_digit c || ((97 <=? JS.code c) && (JS.code c <=? 102))
  || Ascii.eqb c "-".

Definition next_is (p : ascii -> bool) (s : string) : bool :=
  match s with String c _ => p c | EmptyString => false end.

(** [url.split('?')[0]]. *)
Fixpoint before_query (s : string) : string :=
  match s with
  | EmptyString => EmptyString
  | String c r => if Ascii.eqb c "?" then EmptyString else String c (before_query r)
  end.

(** [.replace(/\/\d+/g, '/:id')]; [skipping] is true inside the digits of a
    match. *)
Fixpoint replace_ids (s : string) (skipping : bool) : string :=
  match s with
  | EmptyString => EmptyString
  | String c r =>
      if skipping && is_digit c then replace_ids r true
      else if Ascii.eqb c "/" && next_is is_digit r
           then "/:id" +:+ replace_ids r true
           else String c (replace_ids r false)
  end.

(** The length of the longest prefix of [s] made of characters in [p]. *)
Fixpoint run (p : ascii -> bool) (s : string) : nat :=
  match s with
  | String c r => if p c then S (run p r) else O
  | EmptyString => O
  end.

Fixpoint drop (n : nat) (s : string) : string :=
  match n, s with
  | S n', String _ r => drop n' r
  | _, _ => s
  end.

(** The number of characters after a "/" that
    [/[A-Z]{2,10}\/[A-Z]{2,10}/] matches, when it matches. *)
Definition symbol_match (r : string) : option nat :=
  let first := run is_upper r in
  if (2 <=? first)%nat && (first <=? 10)%nat
     && next_is (Ascii.eqb "/") (drop first r)
  then
    let second := run is_upper (drop (S first) r) in
    if (2 <=? second)%nat then Some (S first + Nat.min second 10)%nat else None
  else None.

(** [.replace(/\/[A-Z]{2,10}\/[A-Z]{2,10}/g, '/:symbol')]; [skip] counts the
    characters of a match still to pass over. *)
Fixpoint replace_symbols (s : string) (skip : nat) : string :=
  match s with
  | EmptyString => EmptyString
  | String c r =>
      match skip with
      | S skip' => replace_symbols r skip'
      | O =>
          match (if Ascii.eqb c "/" then symbol_match r else None) with
          | Some n => "/:symbol" +:+ replace_symbols r n
          | None => String c (replace_symbols r O)
          end
      end
  end.

(** [.replace(/\/[a-f0-9-]{36}/g, '/:uuid')]. *)
Fixpoint replace_uuids (s : string) (skip : nat) : string :=
  match s with
  | EmptyString => EmptyString
  | String c r =>
      match skip with
      | S skip' => replace_uuids r skip'
      | O =>
          if Ascii.eqb c "/" && (36 <=? run is_uuid_char r)%nat
          then "/:uuid" +:+ replace_uuids r 36
          else String c (replace_uuids r O)
      end
  end.

Definition normalizeEndpoint (url : string) : string :=
  let path := before_query url in
  replace_uuids (replace_symbols (replace_ids path false) O) O.

Definition getClientIP (request : Request) : string :=
  match AuthService.header (x_forwarded_for request) with
  | Some forwarded => JS.trim (JS.before_comma forwarded)
  | None =>
      match AuthService.header (x_real_ip request) with
      | Some realIP => realIP
      | None => default "unknown" (AuthService.header (ip request))
      end
  end.

Definition globalConfig : RateLimitConfig := mkConfig 60000 1000.

Definition checkRateLimit (request : Request) : M RateLimitInfo :=
  let endpoint := normalizeEndpoint (url request) in
  let* config := getConfig endpoint in
  let '(identifier, isAuthenticated) :=
    match auth request with
    | Some a => (JS.show (auth_userId a), true)
    | None => (getClientIP request, false)
    end in
  let* userLimitInfo :=
    checkLimit identifier endpoint config
               (if isAuthenticated then limit_user else limit_ip) in
  if negb isAuthenticated
  then
    let* globalLimitInfo :=
      checkLimit identifier "global" globalConfig limit_global in
    if remaining globalLimitInfo <? remaining userLimitInfo
    then ret globalLimitInfo
    else ret userLimitInfo
  else ret userLimitInfo.

End RateLimitService.

(* ===================================================================== *)
(** ** Further methods of the services *)
(* ===================================================================== *)

(** The subclasses of [AppError] (utils/error.ts): the [statusCode] and the
    [code] their constructors pass on; a bare [Error] has neither. *)
Module AppError.

Definition statusCode (c : ErrorClass) : option Z :=
  match c with
  | PlainError => None
  | ValidationError => Some 400
  | AuthenticationError => Some 401
  | AuthorizationError => Some 403
  | NotFoundError => Some 404
  | RateLimitError => Some 429
  | ExchangeError => Some 502
  | InsufficientBalanceError => Some 400
  | DatabaseError => Some 500
  | CacheError => Some 500
  end.

Definition code (c : ErrorClass) : option string :=
  match c with
  | PlainError => None
  | ValidationError => Some "VALIDATION_ERROR"
  | AuthenticationError => Some "AUTHENTICATION_ERROR"
  | AuthorizationError => Some "AUTHORIZATION_ERROR"
  | NotFoundError => Some "NOT_FOUND"
  | RateLimitError => Some "RATE_LIMIT_EXCEEDED"
  | ExchangeError => Some "EXCHANGE_ERROR"
  | InsufficientBalanceError => Some "INSUFFICIENT_BALANCE"
  | DatabaseError => Some "DATABASE_ERROR"
  | CacheError => Some "CACHE_ERROR"
  end.

End AppError.

Definition set_endpointConfigs (configs : list (string * RateLimitConfig))
    (w : World) : World :=
  mkWorld (users w) (orders w) (orders_seq w) (redis_up w) (counters w)
          (user_cache w) configs (defaultConfig w) (exchanges w) (ccxt w) (decrypt w)
          (hmac_sha256 w) (now w) (venue w) (venue_calls w) (trace w).

(** [CacheService.del] and the public methods of [RateLimitService] that
    change its configuration or its counters. *)
Module RateLimitAdmin.

(** [del(key)]: DEL removes the key, whatever it holds. *)
Definition del (key : string) : M unit :=
  CacheService.command ("Failed to delete cache key: " +:+ key)
    (fun w => (tt, set_counters (delete key (counters w))
                     (set_user_cache (delete key (user_cache w)) w))).

(** [Map.prototype.set]: the value of a key already present is replaced
    where it stands, a new key goes to the end. *)
Fixpoint map_set (key : string) (config : RateLimitConfig)
    (configs : list (string * RateLimitConfig)) : list (string * RateLimitConfig) :=
  match configs with
  | [] => [(key, config)]
  | (pattern, c) :: rest =>
      if String.eqb pattern key then (pattern, config) :: rest
      else (pattern, c) :: map_set key config rest
  end.

Definition setEndpointConfig (endpoint : string) (config : RateLimitConfig) : M unit :=
  modify (fun w => set_endpointConfigs (map_set endpoint config (endpointConfigs w)) w).

Definition getEndpointConfig (endpoint : string) : M RateLimitConfig :=
  RateLimitService.getConfig endpoint.

Definition resetLimit (identifier endpoint : string) : M unit :=
  let key := RateLimitService.getRateLimitKey identifier endpoint in
  del key.

End RateLimitAdmin.

(** The body of an error reply. *)
Record ErrorBody := mkBody {
  body_code : option string;
  body_message : string;
  body_details : option (Z * Z)     (* limit, retryAfter *)
}.

(** The Fastify reply as the middlewares use it: [reply.status(n)],
    [reply.header(name, value)] in the order of the calls, and
    [reply.send(body)]. *)
Record Reply := mkReply {
  reply_status : option Z;
  reply_headers : list (string * Z);
  reply_sent : option ErrorBody
}.

Definition reply_header (name : string) (value : Z) (reply : Reply) : Reply :=
  mkReply (reply_status reply) (reply_headers reply ++ [(name, value)])
          (reply_sent reply).

Definition reply_set_status (n : Z) (reply : Reply) : Reply :=
  mkReply (Some n) (reply_headers reply) (reply_sent reply).

Definition reply_send (b : ErrorBody) (reply : Reply) : Reply :=
  mkReply (reply_status reply) (reply_headers reply) (Some b).

Definition attach (a : AuthenticatedRequest) (request : Request) : Request :=
  mkReq (method request) (url request) (body request) (x_api_key request)
        (x_timestamp request) (x_signature request) (x_forwarded_for request)
        (x_real_ip request) (ip request) (Some a).

(** The Fastify hooks of middleware/auth.ts and middleware/rateLimit.ts. *)
Module Middleware.

Definition authMiddleware (request : Request) (reply : Reply) : M (Request * Reply) :=
  try_catch
    (let* authData := AuthService.authenticateRequest request in
     ret (attach authData request, reply))
    (fun error =>
       if instanceof error AuthenticationError
       then ret (request,
                 reply_send (mkBody (AppError.code (err_class error))
                                    (message error) None)
                            (reply_set_status 401 reply))
       else ret (request,
                 reply_send (mkBody (Some "INTERNAL_ERROR") "服务器内部错误" None)
                            (reply_set_status 500 reply))).

Definition requirePermission (permission : string) (request : Request) : M unit :=
  match auth request with
  | None => throw (new_Error AuthenticationError "未认证的请求")
  | Some a =>
      if negb (AuthService.checkPermission (auth_permissions a) permission)
      then throw (new_Error AuthorizationError ("需要权限: " +:+ permission))
      else ret tt
  end.

(** [details?.retryAfter] as a condition: a missing or zero value is
    falsy. *)
Definition retryAfter_header (d : option RateLimitDetails) (reply : Reply) : Reply :=
  match d with
  | Some d =>
      if details_retryAfter d =? 0 then reply
      else reply_header "Retry-After" (details_retryAfter d) reply
  | None => reply
  end.

Definition rateLimitMiddleware (request : Request) (reply : Reply) : M Reply :=
  try_catch
    (let* limitInfo := RateLimitService.checkRateLimit request in
     ret (reply_header "X-RateLimit-Reset" (reset limitInfo)
            (reply_header "X-RateLimit-Remaining" (remaining limitInfo)
               (reply_header "X-RateLimit-Limit" (limit limitInfo) reply))))
    (fun error =>
       if instanceof error RateLimitError
       then
         let details := details error in
         ret (reply_send
                (mkBody (AppError.code (err_class error)) (message error)
                        ((fun d => (details_limit d, details_retryAfter d)) <$> details))
                (retryAfter_header details (reply_set_status 429 reply)))
       else ret reply).

Definition createEndpointRateLimit (config : RateLimitConfig)
    (request : Request) (reply : Reply) : M Reply :=
  let endpoint := RateLimitService.normalizeEndpoint (url request) in
  RateLimitAdmin.setEndpointConfig endpoint config ;;
  rateLimitMiddleware request reply.

End Middleware.

(* ===================================================================== *)
(** ** Vocabulary of the properties *)
(* ===================================================================== *)

(** The world [w] after [n] more venue requests and the effects [evs]. *)
Definition advance (n : nat) (evs : list Event) (w : World) : World :=
  set_venue_calls (venue_calls w + n)%nat (set_trace (trace w ++ evs) w).

(** An operation that is one request [c] to the venue, its answer turned into
    an outcome by [result]: every operation [ExchangeService] hands to
    [retryOperation] has this form. *)
Definition venue_driven {A} (operation : M A) (c : VenueCall)
    (result : VenueReply -> Outcome A) : Prop :=
  forall w, operation w
            = (result (venue w (venue_calls w)), ExchangeService.after_request c w).

(** The effects of the retry attempts number [k], [k+1], ... ([n] of them):
    each is the request [c] preceded by the delay [baseDelay * 2^(k-2)]. *)
Fixpoint retries (c : VenueCall) (baseDelay : Z) (k : Z) (n : nat) : list Event :=
  match n with
  | O => []
  | S n' =>
      EvSleep (baseDelay * 2 ^ (k - 2)) :: EvVenue c
        :: retries c baseDelay (k + 1) n'
  end.

(** The effects of [k] attempts: the first request, then the retries. *)
Definition attempts (c : VenueCall) (baseDelay : Z) (k : nat) : list Event :=
  EvVenue c :: retries c baseDelay 2 (k - 1).

(** The outcome of the [i]-th request to the venue from now on, for an
    operation that maps the venue's answer with [result]. *)
Definition answer {A} (result : VenueReply -> Outcome A) (w : World) (i : nat)
    : Outcome A :=
  result (venue w (venue_calls w + i)%nat).

(** A failure the retry policy classifies as retryable. *)
Definition retryable_failure {A} (o : Outcome A) : Prop :=
  exists e, o = Throw e /\ ExchangeService.isNonRetryableError e = false.

(** The number of requests sent to the venue in a trace. *)
Definition venue_requests (t : list Event) : nat :=
  length (List.filter (fun e => match e with EvVenue _ => true | _ => false end) t).

(** The rows and filters of the statements of [Database]. *)
Module Rows.

(** The row [createOrder] inserts when the sequence stands at [seq]. *)
Definition inserted (seq : Z) (r : CreateOrderRequest) : Order :=
  mkOrder (seq + 1) (req_userId r) (req_exchange r) None (req_symbol r)
          (req_side r) (req_type r) (req_price r) (req_amount r)
          0%Q pending None None None.

(** The row [updateOrderStatus] leaves in place of [o]. *)
Definition updated (o : Order) (st : OrderStatus) (filled_ fee_ : option Q)
    (feeCurrency error_ : option string) : Order :=
  mkOrder (id o) (order_user_id o) (exchange o) (exchange_order_id o)
          (symbol o) (side o) (type o) (price o) (amount o)
          (Database.coalesce filled_ (order_filled o)) st
          (Database.coalesce_null fee_ (fee o))
          (Database.coalesce_null feeCurrency (fee_currency o))
          (Database.coalesce_null error_ (error o)).

(** The owner filter of [getOrderById]. *)
Definition owner_filter (userId : option Z) : option Z :=
  match userId with
  | Some u => if u =? 0 then None else Some u
  | None => None
  end.

Definition visible (o : Order) (owner : option Z) : option Order :=
  match owner with
  | Some u => if order_user_id o =? u then Some o else None
  | None => Some o
  end.

End Rows.

(** The effects of the connector: requests to the venue and delays. *)
Definition remote_event (e : Event) : bool :=
  match e with
  | EvVenue _ | EvSleep _ => true
  | _ => false
  end.

(** Two worlds the connector cannot tell apart. *)
Definition same_remote (w1 w2 : World) : Prop :=
  exchanges w1 = exchanges w2 /\ ccxt w1 = ccxt w2
  /\ venue w1 = venue w2 /\ venue_calls w1 = venue_calls w2.

(** The world [w] after the effects [evs] of the connector. *)
Definition replay (evs : list Event) (w : World) : World :=
  advance (venue_requests evs) evs w.

(** A computation that reads only what the connector reads, and whose only
    effects are requests to the venue and delays. *)
Definition remote {A} (m : M A) : Prop :=
  forall w1 w2, same_remote w1 w2 ->
    exists evs,
      forallb remote_event evs = true
      /\ m w1 = (fst (m w2), replay evs w1)
      /\ snd (m w2) = replay evs w2.

(** [wp m Q w]: the run of [m] from [w] ends in an outcome and a world
    related by [Q]. *)
Definition wp {A} (m : M A) (Q : Outcome A -> World -> Prop) (w : World) : Prop :=
  Q (fst (m w)) (snd (m w)).

(** The events between a BEGIN and the COMMIT or ROLLBACK that follows it;
    [open] tells whether a transaction is open at the start of [t]. *)
Fixpoint inside_transaction (t : list Event) (open : bool) : list Event :=
  match t with
  | [] => []
  | EvClient BEGIN :: r => inside_transaction r true
  | EvClient _ :: r => inside_transaction r false
  | e :: r =>
      if open then e :: inside_transaction r open
      else inside_transaction r open
  end.

(** The events a computation performs when run from [w]. *)
Definition performed {A} (m : M A) (w : World) : list Event :=
  List.skipn (length (trace w)) (trace (snd (m w))).

(** A create request that gets as far as the insertion: it is valid, the
    lookup of the user finds a row, and that row has venue credentials that
    decrypt to [credentials]. *)
Definition reaches_insert (request : CreateOrderRequest) (w : World)
    (credentials : Credentials) : Prop :=
  fst (OrderService.validateOrderParams request w) = Return tt
  /\ exists user,
       fst (Database.getUserByApiKey "" w) = Return (Some user)
       /\ fst (OrderService.getUserExchangeCredentials
                 user (req_exchange request) w) = Return credentials.

(** The error [OrderService.createOrder] throws for a failure [e] of the
    connector. *)
Definition creation_error (e : Error) : Error :=
  if instanceof e InsufficientBalanceError then e
  else new_Error ExchangeError ("订单创建失败: " +:+ message e).

(** The row stored after the venue answered [xo]. *)
Definition acknowledged (seq : Z) (request : CreateOrderRequest)
    (xo : ExchangeOrder) : Order :=
  let row :=
    Rows.updated (Rows.inserted seq request)
      (OrderService.mapExchangeStatus (xo_status xo))
      (or_else Q_falsy (xo_filled xo) (Some 0%Q))
      (xo_fee xo ≫= cost) (xo_fee xo ≫= currency) None in
  match OrderService.truthy_id (xo_id xo) with
  | Some xid => Database.set_exchange_order_id xid row
  | None => row
  end.

(** The row stored after the connector failed with [e]. *)
Definition rejected (seq : Z) (request : CreateOrderRequest) (e : Error) : Order :=
  Rows.updated (Rows.inserted seq request) failed
                      (Some 0%Q) None None (Some (message e)).

(** The statements that follow the call of the connector. *)
Definition settlement (key : Z) (x : Outcome ExchangeOrder) : list Event :=
  match x with
  | Return xo =>
      EvPool (UpdateOrderStatus key (OrderService.mapExchangeStatus (xo_status xo)))
      :: match OrderService.truthy_id (xo_id xo) with
         | Some xid => [EvPool (UpdateExchangeOrderId key xid)]
         | None => []
         end
  | Throw e => [EvPool (UpdateOrderStatus key failed)]
  end.

(** How [Database.transaction] ends for an outcome of its callback. *)
Definition verdict {A} (x : Outcome A) : TxCommand :=
  match x with
  | Return _ => COMMIT
  | Throw _ => ROLLBACK
  end.

Definition closing (key : Z) (x : Outcome ExchangeOrder) : list Event :=
  settlement key x ++ [EvClient (verdict x); EvRelease].

(** What the specification says of the transaction of a create request: it
    holds the insertion and nothing else. *)
Definition transaction_covers_only_insert (request : CreateOrderRequest)
    (w : World) : Prop :=
  inside_transaction (performed (OrderService.createOrder request) w) false
  = [EvPool (InsertOrder request)].

(** The same request on behalf of another user. *)
Definition on_behalf_of (userId : Z) (r : CreateOrderRequest) : CreateOrderRequest :=
  mkRequest userId (req_exchange r) (req_symbol r) (req_side r) (req_type r)
            (req_amount r) (req_price r).

(** What the specification says of cancellation: a pending order is always
    left canceled. *)
Definition cancel_always_cancels (orderId userId : Z) (w : World) : Prop :=
  forall order,
    fst (Database.getOrderById orderId (Some userId) w) = Return (Some order) ->
    status order = pending ->
    status <$> orders (snd (OrderService.cancelOrder orderId userId w)) !! orderId
    = Some canceled.

(** The user and the credentials [cancelOrder] needs before it calls the
    connector. *)
Definition credentials_found (userId : Z) (name : string) (w : World)
    (credentials : Credentials) : Prop :=
  exists user,
    fst (OrderService.getUserById userId w) = Return user
    /\ fst (OrderService.getUserExchangeCredentials user name w)
       = Return credentials.

(** The outcome of the remote cancellation of [order], when it has a remote
    identifier. *)
Definition remote_cancel (order : Order) (credentials : Credentials)
    (w : World) : option (Outcome ExchangeOrder) :=
  match OrderService.truthy_id (exchange_order_id order) with
  | Some xid =>
      Some (fst (ExchangeService.cancelOrder xid (symbol order) (exchange order)
                                             (Some credentials) w))
  | None => None
  end.

(** The error column after a cancellation. *)
Definition cancel_error (order : Order) (x : option (Outcome ExchangeOrder))
    : option string :=
  match x with
  | Some (Throw e) => Some ("取消失败: " +:+ message e)
  | _ => error order
  end.

(** The operations of the order lifecycle. *)
Inductive LifecycleOp :=
| OpCreate (request : CreateOrderRequest)
| OpCancel (orderId userId : Z)
| OpRead (orderId userId : Z)
| OpSync (orderId : Z).

(** The world an operation leaves. *)
Definition perform (op : LifecycleOp) (w : World) : World :=
  match op with
  | OpCreate request => snd (OrderService.createOrder request w)
  | OpCancel orderId userId => snd (OrderService.cancelOrder orderId userId w)
  | OpRead orderId userId => snd (OrderService.getOrder orderId userId w)
  | OpSync orderId => snd (OrderService.syncOrderStatus orderId w)
  end.

Definition terminal (st : OrderStatus) : bool :=
  match st with
  | filled | canceled | failed => true
  | pending => false
  end.

(** What the specification says of terminal statuses: no operation changes
    one. *)
Definition terminal_is_final (op : LifecycleOp) (w : World) (key : Z) : Prop :=
  forall o,
    orders w !! key = Some o ->
    terminal (status o) = true ->
    status <$> orders (perform op w) !! key = Some (status o).

(** [syncOrderStatus] refreshes the order [key], whose row is [o], from the
    venue: it does for every status but [filled] and [canceled] when the
    order has a remote identifier. *)
Definition resyncs (op : LifecycleOp) (key : Z) (o : Order) : bool :=
  match op with
  | OpSync orderId =>
      (orderId =? key)
      && bool_decide (is_Some (OrderService.truthy_id (exchange_order_id o)))
      && negb (bool_decide (status o = filled))
      && negb (bool_decide (status o = canceled))
  | _ => false
  end.

(** [keeps I m]: a run of [m] from a world in [I] ends in [I]. *)
Definition keeps (I : World -> Prop) {A} (m : M A) : Prop :=
  forall w, I w -> I (snd (m w)).

(** The facts about the tables that no operation on another order breaks:
    the row [o] is stored under [key], and [key] is not ahead of the
    sequence. *)
Definition row_kept (key : Z) (o : Order) (w : World) : Prop :=
  orders w !! key = Some o /\ key <= orders_seq w.

(** [n] requests one after the other, with their outcomes in order. *)
Fixpoint requests {A} (m : M A) (n : nat) (w : World) : list (Outcome A) * World :=
  match n with
  | O => ([], w)
  | S n' =>
      let '(r, w1) := m w in
      let '(rs, w2) := requests m n' w1 in
      (r :: rs, w2)
  end.

(** The counter [checkLimit] consults. *)
Definition counter_key (type : LimitType) (identifier endpoint : string) : string :=
  match type with
  | limit_global => RateLimitService.getGlobalRateLimitKey identifier
  | _ => RateLimitService.getRateLimitKey identifier endpoint
  end.

Definition admitted {A} (r : Outcome A) : Prop := exists a, r = Return a.

(** A rejection: a [RateLimitError] whose [retryAfter] is at least one
    second. *)
Definition rejected_with_retry {A} (r : Outcome A) : Prop :=
  exists d,
    r = Throw (mkError RateLimitError "请求频率超限" (Some d))
    /\ 1 <= details_retryAfter d.

(** The value of a counter, 0 when the key is missing. *)
Definition counted (c : option Counter) : Z :=
  match c with Some c => count c | None => 0 end.

(** The world after [n] requests [request], one after the other. *)
Definition after_requests (request : Request) (n : nat) (w : World) : World :=
  snd (requests (RateLimitService.checkRateLimit request) n w).

(* ===================================================================== *)
(** ** Concrete worlds *)
(* ===================================================================== *)

Module Sample.

(** The only row a create request can resolve: its key is the empty
    string. *)
Definition root : User :=
  mkUser 1 "" "root-secret" "binance" (Some "6b6579") (Some "736563")
         ["read"; "trade"] active.

(** An active trader without venue credentials. *)
Definition bob : User :=
  mkUser 2 "bob-key" "bob-secret" "binance" None None ["read"; "trade"] active.

Definition carol : User :=
  mkUser 3 "carol-key" "carol-secret" "okx" (Some "6b") (Some "73")
         ["read"] suspended.

(** The table of [initializeEndpointConfigs]. *)
Definition configs : list (string * RateLimitConfig) :=
  [ ("/api/v1/trade/order", mkConfig 60000 10);
    ("/api/v1/trade/orders", mkConfig 60000 30);
    ("/api/v1/market/ticker", mkConfig 60000 200);
    ("/api/v1/market/depth", mkConfig 60000 100);
    ("/api/v1/market/klines", mkConfig 60000 50);
    ("/api/v1/account/balance", mkConfig 60000 60) ].

(** A stand-in for the keyed hash. *)
Definition toy_hmac (key msg : string) : string := key +:+ "|" +:+ msg.

Definition world (table : list User) (rows : gmap Z Order) (seq : Z)
    (answers : nat -> VenueReply) : World :=
  mkWorld table rows seq true ∅ ∅ configs (mkConfig 60000 100)
          ["binance"; "okx"]
          (fun name => String.eqb name "binance" || String.eqb name "okx")
          Some toy_hmac 1700000000000 answers 0 [].

Definition accepted : ExchangeOrder :=
  mkExchangeOrder (Some "X-1001") (Some "open") None None.

Definition closed : ExchangeOrder :=
  mkExchangeOrder (Some "X-1001") (Some "closed") (Some 1%Q)
                  (Some (mkFee (Some (1 # 1000)%Q) (Some "BNB"))).

Definition accepts : nat -> VenueReply := fun _ => VenueResult accepted.

Definition flaky : nat -> VenueReply :=
  fun i =>
    match i with
    | 0%nat => VenueThrows "Network timeout"
    | 1%nat => VenueThrows "Connection failed"
    | _ => VenueResult accepted
    end.

Definition unreachable : nat -> VenueReply :=
  fun _ => VenueThrows "Network timeout".

Definition broke : nat -> VenueReply :=
  fun _ => VenueThrows "Account has insufficient balance for requested action".

Definition buy_limit : CreateOrderRequest :=
  mkRequest 2 "binance" "BTC/USDT" buy limit_order 1%Q (Some 50000%Q).

Definition row (key owner : Z) (remote : option string) (st : OrderStatus) : Order :=
  mkOrder key owner "binance" remote "BTC/USDT" buy limit_order
          (Some 50000%Q) 1%Q 0%Q st None None None.

End Sample.

(** A world in which the row with the empty key exists and the venue accepts
    the order. *)
Definition accepting_world : World :=
  Sample.world [Sample.root; Sample.bob] ∅ 0 Sample.accepts.

Definition root_credentials : Credentials := mkCredentials "6b6579" "736563" None.

(** A world in which the venue cannot be reached. *)
Definition unreachable_world : World :=
  Sample.world [Sample.root; Sample.bob] ∅ 0 Sample.unreachable.

Definition network_timeout : Error :=
  new_Error ExchangeError "订单创建失败: Network timeout".

(** Two pending orders: number 7 of the user with credentials, known to the
    venue, and number 8 of a user without credentials; the venue cannot be
    reached. *)
Definition pending_world : World :=
  Sample.world [Sample.root; Sample.bob]
               (<[7 := Sample.row 7 1 (Some "X-9") pending]>
                  (<[8 := Sample.row 8 2 None pending]> ∅))
               8 Sample.unreachable.

(** A venue that rejects the order it is sent, and later reports it closed. *)
Definition rejects_then_closes : nat -> VenueReply :=
  fun i =>
    match i with
    | O => VenueResult (mkExchangeOrder (Some "X-1001") (Some "rejected") None None)
    | _ => VenueResult Sample.closed
    end.

(** The world after a creation that the venue rejected: order 1 is stored
    with status [failed] and the remote identifier. *)
Definition rejected_world : World :=
  perform (OpCreate (on_behalf_of 1 Sample.buy_limit))
          (Sample.world [Sample.root; Sample.bob] ∅ 0 rejects_then_closes).

Definition rejected_row : Order :=
  mkOrder 1 1 "binance" (Some "X-1001") "BTC/USDT" buy limit_order
          (Some 50000%Q) 1%Q 0%Q failed None None None.

(** A suspended identity still in the cache, and a request of hers timed
    within the window and signed with her secret. *)
Definition stale_cache_world : World :=
  set_user_cache (<[CacheService.getUserKey "carol-key" := Sample.carol]> ∅)
                 (Sample.world [Sample.root; Sample.bob; Sample.carol] ∅ 0
                               Sample.accepts).

Definition carol_request : Request :=
  mkReq "GET" "/api/v1/account/balance" None
        (Some "carol-key") (Some "1700000000000")
        (Some (AuthService.generateSignature stale_cache_world "1700000000000"
                 "GET" "/api/v1/account/balance" "" "carol-secret"))
        None None (Some "10.0.0.1") None.

(** An unauthenticated request for the ticker from the given address. *)
Definition ticker_request (address : string) : Request :=
  mkReq "GET" "/api/v1/market/ticker" None None None None None None
        (Some address) None.

(** A world in which the venue refuses every order for lack of funds. *)
Definition broke_world : World :=
  Sample.world [Sample.root; Sample.bob] ∅ 0 Sample.broke.

Definition buy_limit_call : VenueCall :=
  CallCreateOrder "BTC/USDT" limit_order buy 1%Q (Some 50000%Q).

(* ===================================================================== *)
(** ** Vocabulary of the further properties *)
(* ===================================================================== *)

(** The total of the delays in a trace, in milliseconds. *)
Fixpoint slept (t : list Event) : Z :=
  match t with
  | [] => 0
  | EvSleep ms :: r => ms + slept r
  | _ :: r => slept r
  end.

(** The request [ExchangeService.createOrder] sends for an order, and what
    its operation makes of the answer of the venue. *)
Definition order_call (params : CreateOrderRequest) : VenueCall :=
  CallCreateOrder (req_symbol params) (req_type params) (req_side params)
                  (req_amount params) (req_price params).

Definition order_answer (r : VenueReply) : Outcome ExchangeOrder :=
  match r with
  | VenueResult o => Return o
  | VenueThrows msg =>
      if JS.includes (JS.toLowerCase msg) "insufficient"
         || JS.includes (JS.toLowerCase msg) "balance"
      then Throw (new_Error InsufficientBalanceError "余额不足")
      else Throw (new_Error ExchangeError ("订单创建失败: " +:+ msg))
  end.

(** A create request that passes every check of [validateOrderParams]. *)
Definition acceptable (r : CreateOrderRequest) (w : World) : Prop :=
  req_symbol r <> ""
  /\ (0 < req_amount r)%Q
  /\ match req_type r with
     | limit_order => exists p, req_price r = Some p /\ (0 < p)%Q
     | market_order => True
     end
  /\ req_exchange r <> ""
  /\ req_exchange r ∈ exchanges w.


(** The row [refresh] stores in place of [o] after the venue reported [xo]:
    what the report leaves out is kept from [o]. *)
Definition refreshed (o : Order) (xo : ExchangeOrder) : Order :=
  Rows.updated o
    (OrderService.mapExchangeStatus (xo_status xo))
    (or_else Q_falsy (xo_filled xo) (Some (order_filled o)))
    (or_else Q_falsy (xo_fee xo ≫= cost) (fee o))
    (or_else string_falsy (xo_fee xo ≫= currency) (fee_currency o))
    None.

(** What a refresh of the order [orderId], stored as [o] in [w], leaves
    behind when the connector answered [x]. *)
Definition refresh_post (orderId : Z) (w : World) (o : Order)
    (x : Outcome ExchangeOrder) (r : Outcome Order) (w' : World) : Prop :=
  match x with
  | Return xo =>
      r = Return (refreshed o xo)
      /\ orders w' = <[orderId := refreshed o xo]> (orders w)
  | Throw e => orders w' = orders w
  end.

(** The active row the database holds for an API key. *)
Definition active_row (apiKey : string) (w : World) : option User :=
  List.find (fun u => String.eqb (api_key u) apiKey
                      && bool_decide (user_status u = active)) (users w).

(** A request with the three headers and a timestamp inside the window. *)
Definition well_timed (request : Request) (w : World) : Prop :=
  exists apiKey timestamp signature requestTime,
    AuthService.header (x_api_key request) = Some apiKey
    /\ AuthService.header (x_timestamp request) = Some timestamp
    /\ AuthService.header (x_signature request) = Some signature
    /\ JS.parseInt timestamp = Some requestTime
    /\ Z.abs (now w - requestTime) <= AuthService.TIME_WINDOW.

(** The signature [verifySignature] expects of a request. *)
Definition expected_signature (request : Request) (timestamp : string)
    (user : User) (w : World) : string :=
  AuthService.generateSignature w timestamp (method request) (url request)
    (default "" (body request)) (apiSecret user).

(** Two worlds that differ at most in the user cache and the trace. *)
Definition same_but_user_cache (w w' : World) : Prop :=
  users w' = users w /\ orders w' = orders w /\ orders_seq w' = orders_seq w
  /\ redis_up w' = redis_up w /\ counters w' = counters w
  /\ endpointConfigs w' = endpointConfigs w /\ defaultConfig w' = defaultConfig w
  /\ exchanges w' = exchanges w /\ ccxt w' = ccxt w /\ decrypt w' = decrypt w
  /\ hmac_sha256 w' = hmac_sha256 w /\ now w' = now w
  /\ venue w' = venue w /\ venue_calls w' = venue_calls w.

(** The counter after one more [increment] with the window [seconds]: the
    expiry is set when the counter is created and kept afterwards. *)
Definition incremented (old : option Counter) (seconds : Z) : Counter :=
  let n := counted old + 1 in
  mkCounter n (if negb (seconds =? 0) && (n =? 1) then Some seconds
               else old ≫= expiry).

(** The answer of [checkLimit] when Redis cannot be reached. *)
Definition unlimited (config : RateLimitConfig) (w : World) : RateLimitInfo :=
  mkInfo (maxRequests config) (maxRequests config) (now w + windowMs config) None.

(** The configuration [getConfig] finds for an endpoint. *)
Definition config_of (endpoint : string) (w : World) : RateLimitConfig :=
  default (default (defaultConfig w)
             (RateLimitService.lookup_prefix endpoint (endpointConfigs w)))
          (RateLimitService.lookup_exact endpoint (endpointConfigs w)).

(** Decimal digits only. *)
Fixpoint all_digits (s : string) : bool :=
  match s with
  | EmptyString => true
  | String c r => RateLimitService.is_digit c && all_digits r
  end.

(** No colon in a string. *)
Fixpoint no_colon (s : string) : bool :=
  match s with
  | EmptyString => true
  | String c r => negb (Ascii.eqb c ":") && no_colon r
  end.


(** An active trader's request to create an order, timed at the clock of
    the sample worlds and signed with his secret. *)
Definition bob_request : Request :=
  mkReq "POST" "/api/v1/trade/order" (Some "{}")
        (Some "bob-key") (Some "1700000000000")
        (Some (AuthService.generateSignature accepting_world "1700000000000"
                 "POST" "/api/v1/trade/order" "{}" "bob-secret"))
        None None (Some "10.0.0.2") None.

(** The same request with a timestamp five minutes and one millisecond
    behind the clock of the server. *)
Definition late_request : Request :=
  mkReq "POST" "/api/v1/trade/order" (Some "{}")
        (Some "bob-key") (Some "1699999699999")
        (Some (AuthService.generateSignature accepting_world "1699999699999"
                 "POST" "/api/v1/trade/order" "{}" "bob-secret"))
        None None (Some "10.0.0.2") None.

(** The request as [authMiddleware] hands it on. *)
Definition bob_authenticated : Request :=
  attach (mkAuth 2 Sample.bob ["read"; "trade"]) bob_request.

(** The sample world with Redis out of reach. *)
Definition cache_down_world : World :=
  mkWorld [Sample.root; Sample.bob] ∅ 0 false ∅ ∅ Sample.configs
          (mkConfig 60000 100) ["binance"; "okx"]
          (fun name => String.eqb name "binance" || String.eqb name "okx")
          Some Sample.toy_hmac 1700000000000 Sample.accepts 0 [].

(** A world in which the address 10.0.0.1 has used up the limit of the
    ticker and the global limit. *)
Definition busy_world : World :=
  set_counters
    (<[RateLimitService.getRateLimitKey "10.0.0.1" "/api/v1/market/ticker"
       := mkCounter 200 (Some 30)]>
       (<[RateLimitService.getGlobalRateLimitKey "10.0.0.1"
          := mkCounter 1000 (Some 30)]> ∅))
    (Sample.world [] ∅ 0 Sample.accepts).

(* ===================================================================== *)
(** ** The primitives on concrete inputs *)
(* ===================================================================== *)

Example parseInt_address : JS.parseInt "192.168.1.100" = Some 192.
Proof. reflexivity. Qed.

Example parseInt_timestamp : JS.parseInt "1700000000000" = Some 1700000000000.
Proof. reflexivity. Qed.

Example parseInt_signed_prefix : JS.parseInt "  -42abc" = Some (-42).
Proof. reflexivity. Qed.

Example parseInt_hexadecimal : JS.parseInt "0x1f" = Some 31.
Proof. reflexivity. Qed.

Example parseInt_not_a_number :
  JS.parseInt "unknown" = None /\ JS.parseInt "::1" = None /\ JS.parseInt "" = None.
Proof. repeat split; reflexivity. Qed.

Example includes_lowered :
  JS.includes (JS.toLowerCase "Insufficient Balance") "insufficient" = true.
Proof. reflexivity. Qed.

Example forwarded_first_address :
  RateLimitService.getClientIP
    (mkReq "GET" "/" None None None None
           (Some "203.0.113.1, 198.51.100.1") (Some "203.0.113.2")
           (Some "203.0.113.3") None)
  = "203.0.113.1".
Proof. reflexivity. Qed.

Example normalizeEndpoint_order :
  RateLimitService.normalizeEndpoint "/api/v1/trade/order/123?verbose=1"
  = "/api/v1/trade/order/:id".
Proof. reflexivity. Qed.

Example normalizeEndpoint_symbol :
  RateLimitService.normalizeEndpoint "/api/v1/market/ticker/BTC/USDT"
  = "/api/v1/market/ticker/:symbol".
Proof. reflexivity. Qed.

Example normalizeEndpoint_uuid :
  RateLimitService.normalizeEndpoint
    "/jobs/abcdefab-abcd-abcd-abcd-abcdefabcdef/log"
  = "/jobs/:uuid/log".
Proof. reflexivity. Qed.

Example getConfig_prefix :
  fst (RateLimitService.getConfig "/api/v1/trade/order/:id"
         (Sample.world [] ∅ 0 Sample.accepts))
  = Return (mkConfig 60000 10).
Proof. reflexivity. Qed.

Example mapExchangeStatus_table :
  map OrderService.mapExchangeStatus
      [Some "open"; Some "closed"; Some "canceled"; Some "cancelled";
       Some "rejected"; Some "expired"; Some "partially"; None]
  = [pending; filled; canceled; canceled; failed; failed; pending; pending].
Proof. reflexivity. Qed.

Example checkPermission_admin :
  AuthService.checkPermission ["admin"] "trade" = true
  /\ AuthService.checkPermission ["read"] "trade" = false.
Proof. split; reflexivity. Qed.

(* ===================================================================== *)
(** ** Retry policy *)
(* ===================================================================== *)

Section RetryPolicy.

Context {A : Type} (operation : M A) (c : VenueCall)
        (result : VenueReply -> Outcome A).
Hypothesis Hop : venue_driven operation c result.

Variables (maxRetries baseDelay : Z) (w : World).

Lemma advance_request n evs :
  ExchangeService.after_request c (advance n evs w)
  = advance (S n) (evs ++ [EvVenue c]) w.
Proof.
  unfold ExchangeService.after_request, advance, log_event, set_venue_calls,
    set_trace; simpl.
  f_equal; [lia | by rewrite <- app_assoc].
Qed.

Lemma advance_sleep n evs d :
  log_event (EvSleep d) (advance n evs w) = advance n (evs ++ [EvSleep d]) w.
Proof.
  unfold advance, log_event, set_venue_calls, set_trace; simpl.
  f_equal. by rewrite <- app_assoc.
Qed.

Lemma advance_nothing : advance 0 [] w = w.
Proof.
  destruct w; unfold advance, set_venue_calls, set_trace; simpl.
  f_equal; [lia | apply app_nil_r].
Qed.

(** One retryable failure before the last attempt: a delay, and the loop
    goes on with the next attempt. *)
Lemma retry_loop_step (fuel : nat) (attempt : Z) (n : nat)
    (evs : list Event) last :
  attempt <> maxRetries ->
  retryable_failure (answer result w n) ->
  exists e,
    ExchangeService.retry_loop operation (S fuel) attempt maxRetries baseDelay
      last (advance n evs w)
    = ExchangeService.retry_loop operation fuel (attempt + 1) maxRetries
        baseDelay (Some e)
        (advance (S n)
           (evs ++ [EvVenue c; EvSleep (baseDelay * 2 ^ (attempt + 1 - 2))]) w).
Proof.
  intros Hne (e & He & Hretry). exists e. simpl.
  unfold try_catch. rewrite Hop, advance_request. simpl.
  unfold answer in He. rewrite He, Hretry.
  replace (attempt =? maxRetries) with false by lia.
  unfold bind, emit, modify. rewrite advance_sleep.
  rewrite <- app_assoc. simpl.
  by replace (attempt + 1 - 2) with (attempt - 1) by lia.
Qed.

(** The last answer the loop looks at. *)
Lemma retry_loop_last (fuel : nat) (attempt : Z) (n : nat)
    (evs : list Event) last :
  forall o, answer result w n = o ->
  (forall e, o = Throw e ->
             ExchangeService.isNonRetryableError e = true
             \/ attempt = maxRetries) ->
  ExchangeService.retry_loop operation (S fuel) attempt maxRetries baseDelay
    last (advance n evs w)
  = (o, advance (S n) (evs ++ [EvVenue c]) w).
Proof.
  intros o Ho Hstop. simpl.
  unfold try_catch. rewrite Hop, advance_request. simpl.
  unfold answer in Ho. rewrite Ho.
  destruct o as [v|e]; [done|].
  destruct (Hstop e eq_refl) as [-> | ->]; [done|].
  rewrite Z.eqb_refl. by destruct (ExchangeService.isNonRetryableError e).
Qed.

(** [j] retryable failures, then a success: the loop returns it after
    [j + 1] requests. *)
Lemma retry_loop_success (v : A) (j : nat) :
  forall (fuel : nat) (attempt : Z) (n : nat) (evs : list Event) last,
    (j < fuel)%nat ->
    attempt + Z.of_nat fuel - 1 = maxRetries ->
    (forall i, (i < j)%nat -> retryable_failure (answer result w (n + i))) ->
    answer result w (n + j) = Return v ->
    ExchangeService.retry_loop operation fuel attempt maxRetries baseDelay last
      (advance n evs w)
    = (Return v,
       advance (n + j + 1)
               (evs ++ EvVenue c :: retries c baseDelay (attempt + 1) j) w).
Proof.
  induction j as [|j IH]; intros fuel attempt n evs last Hfuel Hmax Hfail Hok;
    (destruct fuel as [|fuel]; [lia|]).
  - rewrite Nat.add_0_r in Hok.
    rewrite (retry_loop_last _ _ _ _ _ _ Hok) by done.
    do 2 f_equal. lia.
  - destruct (retry_loop_step fuel attempt n evs last) as [e ->]; [lia| |].
    { specialize (Hfail 0%nat ltac:(lia)). by rewrite Nat.add_0_r in Hfail. }
    rewrite (IH fuel (attempt + 1) (S n) _ (Some e)); try lia.
    + f_equal. f_equal; [lia|]. by rewrite <- !app_assoc.
    + intros i Hi. replace (S n + i)%nat with (n + S i)%nat by lia.
      apply Hfail. lia.
    + replace (S n + j)%nat with (n + S j)%nat by lia. exact Hok.
Qed.

(** Every attempt fails with a retryable error: the loop throws the error of
    the last one after [fuel + 1] requests. *)
Lemma retry_loop_exhausted (e : Error) :
  forall (fuel : nat) (attempt : Z) (n : nat) (evs : list Event) last,
    attempt + Z.of_nat (S fuel) - 1 = maxRetries ->
    (forall i, (i < fuel)%nat -> retryable_failure (answer result w (n + i))) ->
    answer result w (n + fuel) = Throw e ->
    ExchangeService.retry_loop operation (S fuel) attempt maxRetries baseDelay
      last (advance n evs w)
    = (Throw e,
       advance (n + fuel + 1)
               (evs ++ EvVenue c :: retries c baseDelay (attempt + 1) fuel) w).
Proof.
  induction fuel as [|fuel IH]; intros attempt n evs last Hmax Hfail Hlast.
  - rewrite Nat.add_0_r in Hlast.
    rewrite (retry_loop_last _ _ _ _ _ _ Hlast).
    + do 2 f_equal. lia.
    + intros ? _. right. lia.
  - destruct (retry_loop_step (S fuel) attempt n evs last) as [e0 ->]; [lia| |].
    { specialize (Hfail 0%nat ltac:(lia)). by rewrite Nat.add_0_r in Hfail. }
    rewrite (IH (attempt + 1) (S n) _ (Some e0)); try lia.
    + f_equal. f_equal; [lia|]. by rewrite <- !app_assoc.
    + intros i Hi. replace (S n + i)%nat with (n + S i)%nat by lia.
      apply Hfail. lia.
    + replace (S n + fuel)%nat with (n + S fuel)%nat by lia. exact Hlast.
Qed.

End RetryPolicy.

(** C5. Retry policy: for an operation whose failures are classified
    retryable, failing on attempts 1..k-1 and succeeding on attempt k <= 3,
    [retryOperation] with three attempts returns that result after exactly k
    requests, the retry attempt number j >= 2 being preceded by the delay
    baseDelay * 2^(j-2) (this is [attempts]); and when all three attempts
    fail, the error of the third is thrown, after three requests and the same
    delays. *)
Theorem retry_policy_backoff {A} (operation : M A) (c : VenueCall)
    (result : VenueReply -> Outcome A) (baseDelay : Z) (w : World) (k : nat) :
  venue_driven operation c result ->
  (1 <= k <= 3)%nat ->
  (forall i, (i < k - 1)%nat -> retryable_failure (answer result w i)) ->
  (forall v, answer result w (k - 1) = Return v ->
     ExchangeService.retryOperation operation 3 baseDelay w
     = (Return v, advance k (attempts c baseDelay k) w))
  /\ (k = 3%nat ->
      forall e, answer result w 2 = Throw e ->
        ExchangeService.retryOperation operation 3 baseDelay w
        = (Throw e, advance 3 (attempts c baseDelay 3) w)).
Proof.
  intros Hop Hk Hfail. unfold ExchangeService.retryOperation. split.
  - intros v Hok.
    rewrite <- (advance_nothing w) at 1.
    rewrite (retry_loop_success operation c result Hop 3 baseDelay w v (k - 1));
      try done; try lia.
    unfold attempts. simpl. do 2 f_equal. lia.
  - intros -> e Hlast.
    rewrite <- (advance_nothing w) at 1.
    by rewrite (retry_loop_exhausted operation c result Hop 3 baseDelay w e 2).
Qed.

Lemma request_venue_driven (c : VenueCall) :
  venue_driven (ExchangeService.request c) c ExchangeService.reply_outcome.
Proof. by intros w. Qed.

(** A ticker fetch that fails twice with a transient network message and then
    succeeds: three requests, delays of 1000 ms and 2000 ms. *)
Lemma retry_policy_backoff_witness :
  ExchangeService.retryOperation
    (ExchangeService.request (CallFetchTicker "BTC/USDT")) 3 1000
    (Sample.world [] ∅ 0 Sample.flaky)
  = (Return Sample.accepted,
     advance 3 [EvVenue (CallFetchTicker "BTC/USDT"); EvSleep 1000;
                EvVenue (CallFetchTicker "BTC/USDT"); EvSleep 2000;
                EvVenue (CallFetchTicker "BTC/USDT")]
             (Sample.world [] ∅ 0 Sample.flaky)).
Proof.
  refine (proj1 (retry_policy_backoff
                   (ExchangeService.request (CallFetchTicker "BTC/USDT"))
                   (CallFetchTicker "BTC/USDT") ExchangeService.reply_outcome
                   1000 (Sample.world [] ∅ 0 Sample.flaky) 3
                   (request_venue_driven _) _ _) Sample.accepted _).
  - lia.
  - intros [|[|i]] Hi; [| |lia]; eexists; split; reflexivity.
  - reflexivity.
Defined.

(* ===================================================================== *)
(** ** What a call to the venue connector can change *)
(* ===================================================================== *)

Lemma same_remote_refl w : same_remote w w.
Proof. by repeat split. Qed.

Lemma same_remote_replay evs w1 w2 :
  same_remote w1 w2 -> same_remote (replay evs w1) (replay evs w2).
Proof. intros (? & ? & ? & ?). repeat split; simpl; congruence. Qed.

Lemma advance_advance n evs n' evs' w :
  advance n' evs' (advance n evs w) = advance (n + n') (evs ++ evs') w.
Proof.
  unfold advance, set_venue_calls, set_trace; simpl.
  f_equal; [lia | by rewrite <- app_assoc].
Qed.

Lemma venue_requests_app evs evs' :
  venue_requests (evs ++ evs') = (venue_requests evs + venue_requests evs')%nat.
Proof. unfold venue_requests. by rewrite List.filter_app, length_app. Qed.

Lemma replay_replay evs evs' w :
  replay evs' (replay evs w) = replay (evs ++ evs') w.
Proof. unfold replay. by rewrite advance_advance, venue_requests_app. Qed.

Lemma replay_nothing w : replay [] w = w.
Proof. apply advance_nothing. Qed.

Section RemoteRules.

Context {A B : Type}.

Lemma remote_ret (a : A) : remote (ret a).
Proof. intros w1 w2 _. exists []. by rewrite !replay_nothing. Qed.

Lemma remote_throw (e : Error) : remote (@throw A e).
Proof. intros w1 w2 _. exists []. by rewrite !replay_nothing. Qed.

Lemma remote_bind (m : M A) (k : A -> M B) :
  remote m -> (forall a, remote (k a)) -> remote (bind m k).
Proof.
  intros Hm Hk w1 w2 Hw.
  destruct (Hm w1 w2 Hw) as (evs & Hevs & H1 & H2).
  unfold bind. rewrite H1.
  destruct (m w2) as [[a|e] w2'] eqn:E2; simpl in *; subst w2'.
  - destruct (Hk a _ _ (same_remote_replay evs _ _ Hw))
      as (evs' & Hevs' & H1' & H2').
    exists (evs ++ evs'). rewrite forallb_app, Hevs, Hevs'.
    by rewrite H1', H2', !replay_replay.
  - by exists evs.
Qed.

Lemma remote_try_catch (m : M A) (h : Error -> M A) :
  remote m -> (forall e, remote (h e)) -> remote (try_catch m h).
Proof.
  intros Hm Hh w1 w2 Hw.
  destruct (Hm w1 w2 Hw) as (evs & Hevs & H1 & H2).
  unfold try_catch. rewrite H1.
  destruct (m w2) as [[a|e] w2'] eqn:E2; simpl in *; subst w2'.
  - by exists evs.
  - destruct (Hh e _ _ (same_remote_replay evs _ _ Hw))
      as (evs' & Hevs' & H1' & H2').
    exists (evs ++ evs'). rewrite forallb_app, Hevs, Hevs'.
    by rewrite H1', H2', !replay_replay.
Qed.

End RemoteRules.

Lemma remote_sleep (d : Z) : remote (emit (EvSleep d)).
Proof.
  intros w1 w2 _. exists [EvSleep d]. split; [done|].
  unfold emit, modify, log_event, replay, advance, set_venue_calls, set_trace;
    simpl.
  by rewrite !Nat.add_0_r.
Qed.

Lemma remote_request (c : VenueCall) : remote (ExchangeService.request c).
Proof.
  intros w1 w2 (_ & _ & Hv & Hn). exists [EvVenue c]. split; [done|].
  unfold ExchangeService.request, ExchangeService.after_request, log_event,
    replay, advance, set_venue_calls, set_trace; simpl.
  rewrite Hv, Hn, !Nat.add_1_r. done.
Qed.

Lemma remote_getExchange (name : string) : remote (ExchangeService.getExchange name).
Proof.
  intros w1 w2 (He & _). exists []. rewrite !replay_nothing.
  unfold ExchangeService.getExchange, bind, get_world. rewrite He.
  by case_bool_decide.
Qed.

Lemma remote_userInstance (name : string) (credentials : option Credentials) :
  remote (ExchangeService.userInstance name credentials).
Proof.
  intros w1 w2 (_ & Hc & _). exists []. rewrite !replay_nothing.
  unfold ExchangeService.userInstance, bind, get_world.
  destruct credentials; [|done]. rewrite Hc. by destruct (ccxt w2 name).
Qed.

Lemma remote_retry_loop {A} (operation : M A) (maxRetries baseDelay : Z) :
  remote operation ->
  forall fuel attempt last,
    remote (ExchangeService.retry_loop operation fuel attempt maxRetries
                                       baseDelay last).
Proof.
  intros Hop. induction fuel as [|fuel IH]; intros attempt last; simpl.
  - apply remote_throw.
  - apply remote_try_catch; [done|]. intros e.
    destruct (ExchangeService.isNonRetryableError e); [apply remote_throw|].
    destruct (attempt =? maxRetries); [apply remote_throw|].
    apply remote_bind; [apply remote_sleep | intros _; apply IH].
Qed.

Lemma remote_createOrder params name credentials :
  remote (ExchangeService.createOrder params name credentials).
Proof.
  unfold ExchangeService.createOrder.
  apply remote_bind; [apply remote_getExchange | intros _].
  apply remote_bind; [apply remote_userInstance | intros _].
  apply remote_retry_loop.
  apply remote_try_catch; [apply remote_request | intros e].
  cbv zeta. destruct (JS.includes _ _ || JS.includes _ _); apply remote_throw.
Qed.

Lemma remote_cancelOrder orderId sym name credentials :
  remote (ExchangeService.cancelOrder orderId sym name credentials).
Proof.
  unfold ExchangeService.cancelOrder.
  apply remote_bind; [apply remote_getExchange | intros _].
  apply remote_bind; [apply remote_userInstance | intros _].
  apply remote_retry_loop, remote_request.
Qed.

Lemma remote_fetchOrder orderId sym name credentials :
  remote (ExchangeService.fetchOrder orderId sym name credentials).
Proof.
  unfold ExchangeService.fetchOrder.
  apply remote_bind; [apply remote_getExchange | intros _].
  apply remote_bind; [apply remote_userInstance | intros _].
  apply remote_retry_loop, remote_request.
Qed.

(** The form in which the rules are used: the run from [w1] is the run from
    [w], replayed. *)
Lemma remote_run {A} (m : M A) (w w1 : World) :
  remote m -> same_remote w1 w ->
  exists evs,
    forallb remote_event evs = true
    /\ m w1 = (fst (m w), replay evs w1).
Proof.
  intros Hm Hw. destruct (Hm w1 w Hw) as (evs & ? & ? & _). eauto.
Qed.

(* ===================================================================== *)
(** ** Running a computation step by step *)
(* ===================================================================== *)

Section WpRules.

Context {A B : Type}.

Lemma wp_ret (a : A) Q w : Q (Return a) w -> wp (ret a) Q w.
Proof. done. Qed.

Lemma wp_throw (e : Error) (Q : Outcome A -> World -> Prop) w :
  Q (Throw e) w -> wp (throw e) Q w.
Proof. done. Qed.

Lemma wp_run (m : M A) Q w r w' : m w = (r, w') -> Q r w' -> wp m Q w.
Proof. unfold wp. by intros ->. Qed.

Lemma wp_bind (m : M A) (k : A -> M B) Q w :
  wp m (fun r w' =>
          match r with
          | Return a => wp (k a) Q w'
          | Throw e => Q (Throw e) w'
          end) w ->
  wp (bind m k) Q w.
Proof. unfold wp, bind. by destruct (m w) as [[a|e] w']. Qed.

Lemma wp_try_catch (m : M A) (h : Error -> M A) Q w :
  wp m (fun r w' =>
          match r with
          | Return a => Q (Return a) w'
          | Throw e => wp (h e) Q w'
          end) w ->
  wp (try_catch m h) Q w.
Proof. unfold wp, try_catch. by destruct (m w) as [[a|e] w']. Qed.

Lemma wp_try_finally (m : M A) (f : World -> World) Q w :
  wp m (fun r w' => Q r (f w')) w -> wp (try_finally m f) Q w.
Proof. unfold wp, try_finally. by destruct (m w). Qed.

Lemma wp_remote (m : M A) Q w w1 :
  remote m -> same_remote w1 w ->
  (forall evs, forallb remote_event evs = true ->
               Q (fst (m w)) (replay evs w1)) ->
  wp m Q w1.
Proof.
  intros Hm Hw HQ. unfold wp.
  destruct (remote_run m w w1 Hm Hw) as (evs & Hevs & ->).
  by apply HQ.
Qed.

End WpRules.

Lemma wp_emit (e : Event) Q w : Q (Return tt) (log_event e w) -> wp (emit e) Q w.
Proof. done. Qed.

Lemma wp_get_world Q w : Q (Return w) w -> wp get_world Q w.
Proof. done. Qed.

Lemma wp_intro {A} (m : M A) Q w : Q (fst (m w)) (snd (m w)) -> wp m Q w.
Proof. done. Qed.

Lemma wp_elim {A} (m : M A) Q w : wp m Q w -> Q (fst (m w)) (snd (m w)).
Proof. done. Qed.

#[global] Opaque wp.

(** The statements of [Database], run. *)
Module DatabaseRun.

Lemma getUserByApiKey apiKey w :
  Database.getUserByApiKey apiKey w
  = (Return (List.find
               (fun u => String.eqb (api_key u) apiKey
                         && bool_decide (user_status u = active))
               (users w)),
     log_event (EvPool (SelectUserByApiKey apiKey)) w).
Proof. done. Qed.

Lemma queryUsersById userId w :
  Database.queryUsersById userId w
  = (Return (List.filter (fun u => user_id u =? userId) (users w)),
     log_event (EvPool (SelectUserById userId)) w).
Proof. done. Qed.

Lemma createOrder r w :
  Database.createOrder r w
  = (Return (Rows.inserted (orders_seq w) r),
     set_orders (<[orders_seq w + 1 := Rows.inserted (orders_seq w) r]> (orders w))
                (orders_seq w + 1)
                (log_event (EvPool (InsertOrder r)) w)).
Proof. done. Qed.

Lemma updateOrderStatus_found oid st f fe fc er w o :
  orders w !! oid = Some o ->
  Database.updateOrderStatus oid st f fe fc er w
  = (Return (Some (Rows.updated o st f fe fc er)),
     set_orders (<[oid := Rows.updated o st f fe fc er]> (orders w)) (orders_seq w)
                (log_event (EvPool (UpdateOrderStatus oid st)) w)).
Proof.
  intros H. unfold Database.updateOrderStatus, bind, emit, modify, get_world.
  simpl. by rewrite H.
Qed.

Lemma updateOrderStatus_missing oid st f fe fc er w :
  orders w !! oid = None ->
  Database.updateOrderStatus oid st f fe fc er w
  = (Return None, log_event (EvPool (UpdateOrderStatus oid st)) w).
Proof.
  intros H. unfold Database.updateOrderStatus, bind, emit, modify, get_world.
  simpl. by rewrite H.
Qed.

Lemma queryUpdateExchangeOrderId_found xid oid w o :
  orders w !! oid = Some o ->
  Database.queryUpdateExchangeOrderId xid oid w
  = (Return tt,
     set_orders (<[oid := Database.set_exchange_order_id xid o]> (orders w))
                (orders_seq w)
                (log_event (EvPool (UpdateExchangeOrderId oid xid)) w)).
Proof.
  intros H.
  unfold Database.queryUpdateExchangeOrderId, bind, emit, modify, get_world.
  simpl. by rewrite H.
Qed.

Lemma queryUpdateExchangeOrderId_missing xid oid w :
  orders w !! oid = None ->
  Database.queryUpdateExchangeOrderId xid oid w
  = (Return tt, log_event (EvPool (UpdateExchangeOrderId oid xid)) w).
Proof.
  intros H.
  unfold Database.queryUpdateExchangeOrderId, bind, emit, modify, get_world.
  simpl. by rewrite H.
Qed.

Lemma getOrderById oid userId w :
  Database.getOrderById oid userId w
  = (Return (orders w !! oid ≫= fun o => Rows.visible o (Rows.owner_filter userId)),
     log_event (EvPool (SelectOrderById oid (Rows.owner_filter userId))) w).
Proof.
  unfold Database.getOrderById, Rows.owner_filter, Rows.visible, bind, emit, modify,
    get_world; simpl.
  destruct userId as [u|]; [destruct (u =? 0)|];
    by destruct (orders w !! oid).
Qed.

End DatabaseRun.

(** The checks of [OrderService] read the world and leave it as it is. *)
Lemma validateOrderParams_world params w :
  snd (OrderService.validateOrderParams params w) = w.
Proof.
  unfold OrderService.validateOrderParams,
    ExchangeService.getSupportedExchanges, bind, get_world, ret, throw.
  repeat (match goal with
          | |- context [if ?b then _ else _] => destruct b
          end; try done).
Qed.

Lemma getUserExchangeCredentials_world user name w :
  snd (OrderService.getUserExchangeCredentials user name w) = w.
Proof.
  unfold OrderService.getUserExchangeCredentials,
    OrderService.decryptSensitiveData, bind, get_world, ret, throw.
  destruct (exchange_api_key user) as [key|]; [|reflexivity].
  destruct (exchange_secret user) as [secret|]; [|reflexivity].
  destruct (string_falsy key || string_falsy secret); [reflexivity|]. simpl.
  destruct (decrypt w key); [|reflexivity]. by destruct (decrypt w secret).
Qed.

Lemma getUserExchangeCredentials_same user name w1 w2 :
  decrypt w1 = decrypt w2 ->
  fst (OrderService.getUserExchangeCredentials user name w1)
  = fst (OrderService.getUserExchangeCredentials user name w2).
Proof.
  intros H.
  unfold OrderService.getUserExchangeCredentials,
    OrderService.decryptSensitiveData, bind, get_world, ret, throw.
  destruct (exchange_api_key user) as [key|]; [|reflexivity].
  destruct (exchange_secret user) as [secret|]; [|reflexivity].
  destruct (string_falsy key || string_falsy secret); [reflexivity|]. simpl.
  rewrite H.
  destruct (decrypt w2 key); simpl; [|reflexivity]. rewrite ?H.
  by destruct (decrypt w2 secret).
Qed.

Lemma run_eq {A} (m : M A) w r w' :
  fst (m w) = r -> snd (m w) = w' -> m w = (r, w').
Proof. destruct (m w). simpl. congruence. Qed.

Lemma getUserById_run userId w :
  OrderService.getUserById userId w
  = (match List.filter (fun u => user_id u =? userId) (users w) with
     | [] => Throw (new_Error NotFoundError "用户不存在")
     | user :: _ => Return user
     end,
     log_event (EvPool (SelectUserById userId)) w).
Proof.
  unfold OrderService.getUserById, bind.
  rewrite DatabaseRun.queryUsersById. by destruct (List.filter _ _).
Qed.

Lemma getUserById_same userId w1 w2 :
  users w1 = users w2 ->
  fst (OrderService.getUserById userId w1) = fst (OrderService.getUserById userId w2).
Proof. intros H. by rewrite !getUserById_run, H. Qed.

(* ===================================================================== *)
(** ** Order creation *)
(* ===================================================================== *)

(** From here on the statements and the calls of the connector are run by
    their lemmas only. *)
#[global] Opaque Database.getUserByApiKey Database.queryUsersById
  Database.createOrder Database.updateOrderStatus
  Database.queryUpdateExchangeOrderId Database.getOrderById
  ExchangeService.createOrder ExchangeService.cancelOrder
  ExchangeService.fetchOrder OrderService.getUserById
  OrderService.validateOrderParams OrderService.getUserExchangeCredentials.

Ltac wp_statement :=
  eapply wp_run;
  [ first [ apply DatabaseRun.getUserByApiKey
          | apply DatabaseRun.queryUsersById
          | apply DatabaseRun.createOrder
          | apply DatabaseRun.getOrderById
          | apply getUserById_run
          | apply DatabaseRun.updateOrderStatus_found;
            first [eassumption | apply lookup_insert_eq]
          | apply DatabaseRun.queryUpdateExchangeOrderId_found;
            first [eassumption | apply lookup_insert_eq] ] | ].

Ltac wp_step :=
  first [ apply wp_ret | apply wp_throw | apply wp_emit | apply wp_get_world
        | apply wp_bind | apply wp_try_catch | apply wp_try_finally
        | wp_statement ];
  cbv beta iota.

(** A check that leaves the world as it is and whose outcome is known. *)
Ltac wp_check res H :=
  eapply (wp_run _ _ _ res);
  [ apply run_eq;
    [ first [ exact H
            | rewrite <- H; first [ by apply getUserExchangeCredentials_same
                                  | by apply getUserById_same ] ]
    | first [ apply validateOrderParams_world
            | apply getUserExchangeCredentials_world ] ]
  | cbv beta iota ].

Lemma createOrder_run (request : CreateOrderRequest) (w : World)
    (credentials : Credentials) :
  reaches_insert request w credentials ->
  let key := orders_seq w + 1 in
  let x := fst (ExchangeService.createOrder request (req_exchange request)
                                            (Some credentials) w) in
  wp (OrderService.createOrder request)
     (fun r w' =>
        exists evs,
          forallb remote_event evs = true
          /\ trace w' = trace w
                        ++ [EvPool (SelectUserByApiKey ""); EvClient BEGIN;
                            EvPool (InsertOrder request)]
                        ++ evs ++ closing key x
          /\ venue_calls w' = (venue_calls w + venue_requests evs)%nat
          /\ orders_seq w' = key
          /\ (forall j, j <> key -> orders w' !! j = orders w !! j)
          /\ match x with
             | Return xo =>
                 r = Return (acknowledged (orders_seq w) request xo)
                 /\ orders w' !! key
                    = Some (acknowledged (orders_seq w) request xo)
             | Throw e =>
                 r = Throw (creation_error e)
                 /\ orders w' !! key = Some (rejected (orders_seq w) request e)
             end) w.
Proof.
  intros (Hvalid & user & Huser & Hcreds) key x.
  match goal with |- wp _ ?P _ => set (Q := P) end.
  rewrite DatabaseRun.getUserByApiKey in Huser. simpl in Huser.
  injection Huser as Huser.
  unfold OrderService.createOrder.
  wp_step. wp_check (Return tt) Hvalid.
  do 2 wp_step. rewrite Huser.
  wp_step. wp_check (Return credentials) Hcreds.
  wp_step. unfold Database.transaction. repeat wp_step.
  eapply (wp_remote _ _ w); [apply remote_createOrder | by repeat split |].
  intros evs Hevs. fold x.
  set (w3 := set_orders _ _ _).
  assert (Hrow : orders (replay evs w3) !! key
                 = Some (Rows.inserted (orders_seq w) request)).
  { simpl. apply lookup_insert_eq. }
  change (id (Rows.inserted _ request)) with key.
  destruct x as [xo|e] eqn:Hx.
  - do 2 wp_step.
    destruct (OrderService.truthy_id (xo_id xo)) as [xid|] eqn:Hxid;
      repeat wp_step; subst Q w3; simpl; exists evs;
      unfold closing, settlement, verdict, acknowledged; rewrite Hxid; simpl;
      (repeat split; try done);
      try (by rewrite <- !app_assoc);
      try (intros j Hj; by rewrite !lookup_insert_ne);
      apply lookup_insert_eq.
  - do 2 wp_step.
    destruct (instanceof e InsufficientBalanceError) eqn:Hi;
      repeat wp_step; subst Q w3;
      unfold creation_error, closing, settlement, verdict; rewrite Hi; simpl;
      exists evs; (repeat split; try done);
      try (by rewrite <- !app_assoc);
      try (intros j Hj; by rewrite !lookup_insert_ne);
      apply lookup_insert_eq.
Qed.

Lemma inside_transaction_remote evs rest :
  forallb remote_event evs = true ->
  inside_transaction (evs ++ rest) true = evs ++ inside_transaction rest true.
Proof.
  induction evs as [|e evs IH]; [done|]. simpl.
  intros [He Hevs]%andb_prop. destruct e; try done; simpl; by rewrite IH.
Qed.

Lemma venue_requests_settlement key x : venue_requests (settlement key x) = 0%nat.
Proof.
  destruct x as [xo|e]; [|done]. simpl.
  by destruct (OrderService.truthy_id (xo_id xo)).
Qed.

Lemma inside_transaction_closing key x :
  inside_transaction (closing key x) true = settlement key x.
Proof.
  unfold closing. destruct x as [xo|e]; simpl; [|done].
  by destruct (OrderService.truthy_id (xo_id xo)).
Qed.

Lemma performed_app {A} (m : M A) w evs :
  trace (snd (m w)) = trace w ++ evs -> performed m w = evs.
Proof. unfold performed. intros ->. by rewrite drop_app_length. Qed.

(** C1, as the code has it. For every create request that passes validation
    and whose user and credentials are found, the transaction bracket is
    BEGIN, the insertion of the pending row, every request the call of the
    connector sends to the venue (with the delays between them), the status
    update and, when the venue gave an identifier, its update, then COMMIT
    when the call succeeded and ROLLBACK when it failed: the call of the
    connector and the status update lie inside the bracket. *)
Theorem createOrder_transaction_bracket (request : CreateOrderRequest)
    (w : World) (credentials : Credentials) :
  reaches_insert request w credentials ->
  let key := orders_seq w + 1 in
  let x := fst (ExchangeService.createOrder request (req_exchange request)
                                            (Some credentials) w) in
  let w' := snd (OrderService.createOrder request w) in
  exists evs,
    forallb remote_event evs = true
    /\ performed (OrderService.createOrder request) w
       = EvPool (SelectUserByApiKey "") :: EvClient BEGIN
         :: (EvPool (InsertOrder request) :: evs ++ settlement key x)
         ++ [EvClient (verdict x); EvRelease]
    /\ inside_transaction (performed (OrderService.createOrder request) w) false
       = EvPool (InsertOrder request) :: evs ++ settlement key x
    /\ venue_requests (EvPool (InsertOrder request) :: evs ++ settlement key x)
       = (venue_calls w' - venue_calls w)%nat
    /\ exists st, In (EvPool (UpdateOrderStatus key st)) (settlement key x).
Proof.
  intros Hreach key x w'.
  pose proof (createOrder_run request w credentials Hreach) as Hrun.
  apply wp_elim in Hrun. destruct Hrun as (evs & Hevs & Htrace & Hcalls & _).
  fold key x in Htrace. apply performed_app in Htrace.
  exists evs. split; [done|]. rewrite Htrace. repeat split.
  - simpl. unfold closing. by rewrite <- !app_assoc.
  - simpl. by rewrite inside_transaction_remote, inside_transaction_closing.
  - change (EvPool (InsertOrder request) :: evs ++ settlement key x)
      with ([EvPool (InsertOrder request)] ++ evs ++ settlement key x).
    rewrite !venue_requests_app, venue_requests_settlement.
    fold w' in Hcalls. rewrite Hcalls. simpl. lia.
  - destruct x as [xo|e]; eexists; simpl; by left.
Qed.

(** C2. When the pending row was inserted and the call of the connector then
    fails with [e], the caller gets an error, and the row of the order is
    still in the table afterwards, with status [failed] and the message of
    [e] as its error: the ROLLBACK that follows does not undo it. *)
Theorem createOrder_failure_recorded (request : CreateOrderRequest)
    (w : World) (credentials : Credentials) (e : Error) :
  reaches_insert request w credentials ->
  fst (ExchangeService.createOrder request (req_exchange request)
                                   (Some credentials) w) = Throw e ->
  let w' := snd (OrderService.createOrder request w) in
  fst (OrderService.createOrder request w) = Throw (creation_error e)
  /\ last (trace w') = Some EvRelease
  /\ In (EvClient ROLLBACK) (trace w')
  /\ exists row,
       orders w' !! (orders_seq w + 1) = Some row
       /\ id row = orders_seq w + 1
       /\ status row = failed
       /\ error row = Some (message e).
Proof.
  intros Hreach Hfail w'.
  pose proof (createOrder_run request w credentials Hreach) as Hrun.
  apply wp_elim in Hrun.
  destruct Hrun as (evs & Hevs & Htrace & _ & _ & _ & Hrow).
  rewrite Hfail in Htrace, Hrow. destruct Hrow as [Hr Hrow].
  fold w' in Htrace, Hrow. rewrite Htrace. repeat split.
  - exact Hr.
  - change (closing (orders_seq w + 1) (Throw e))
      with ([EvPool (UpdateOrderStatus (orders_seq w + 1) failed);
             EvClient ROLLBACK] ++ [EvRelease]).
    rewrite !app_assoc. apply last_snoc.
  - rewrite !in_app_iff. right. right. right. simpl. auto.
  - by exists (rejected (orders_seq w) request e).
Qed.

(** C10. [createOrder] looks the user up under the empty API key: when no
    row of [users] has that key, a valid request fails with [NotFoundError]
    after that single query, whoever the requesting user is, and no order is
    inserted. *)
Theorem createOrder_resolves_empty_key (request : CreateOrderRequest) (w : World) :
  fst (OrderService.validateOrderParams request w) = Return tt ->
  (forall u, In u (users w) -> api_key u <> "") ->
  forall userId,
    OrderService.createOrder (on_behalf_of userId request) w
    = (Throw (new_Error NotFoundError "用户不存在"),
       log_event (EvPool (SelectUserByApiKey "")) w)
    /\ orders (snd (OrderService.createOrder (on_behalf_of userId request) w))
       = orders w.
Proof.
  intros Hvalid Hnone userId.
  assert (Hfind : List.find
                    (fun u => String.eqb (api_key u) ""
                              && bool_decide (user_status u = active))
                    (users w) = None).
  { induction (users w) as [|u l IH]; [done|]. simpl.
    destruct (String.eqb_spec (api_key u) "") as [Hkey|_].
    - destruct (Hnone u (or_introl eq_refl) Hkey).
    - apply IH. intros u' Hu'. apply Hnone. by right. }
  assert (Hrun : OrderService.createOrder (on_behalf_of userId request) w
                 = (Throw (new_Error NotFoundError "用户不存在"),
                    log_event (EvPool (SelectUserByApiKey "")) w)).
  { unfold OrderService.createOrder, bind at 1.
    rewrite (run_eq _ w (Return tt) w); [|exact Hvalid|apply validateOrderParams_world].
    unfold bind at 1. rewrite DatabaseRun.getUserByApiKey, Hfind. done. }
  by rewrite Hrun.
Qed.

Lemma accepting_world_reaches_insert :
  reaches_insert Sample.buy_limit accepting_world root_credentials.
Proof. split; [reflexivity|]. exists Sample.root. split; reflexivity. Qed.

Lemma createOrder_transaction_bracket_witness :
  exists evs,
    forallb remote_event evs = true
    /\ performed (OrderService.createOrder Sample.buy_limit) accepting_world
       = EvPool (SelectUserByApiKey "") :: EvClient BEGIN
         :: (EvPool (InsertOrder Sample.buy_limit)
             :: evs ++ [EvPool (UpdateOrderStatus 1 pending);
                        EvPool (UpdateExchangeOrderId 1 "X-1001")])
         ++ [EvClient COMMIT; EvRelease]
    /\ inside_transaction
         (performed (OrderService.createOrder Sample.buy_limit) accepting_world)
         false
       = EvPool (InsertOrder Sample.buy_limit)
         :: evs ++ [EvPool (UpdateOrderStatus 1 pending);
                    EvPool (UpdateExchangeOrderId 1 "X-1001")]
    /\ venue_requests
         (EvPool (InsertOrder Sample.buy_limit)
          :: evs ++ [EvPool (UpdateOrderStatus 1 pending);
                     EvPool (UpdateExchangeOrderId 1 "X-1001")])
       = (venue_calls (snd (OrderService.createOrder Sample.buy_limit
                                                     accepting_world)) - 0)%nat
    /\ exists st,
         In (EvPool (UpdateOrderStatus 1 st))
            [EvPool (UpdateOrderStatus 1 pending);
             EvPool (UpdateExchangeOrderId 1 "X-1001")].
Proof.
  exact (createOrder_transaction_bracket Sample.buy_limit accepting_world
           root_credentials accepting_world_reaches_insert).
Defined.

(** C1, as stated, fails: for a valid request the bracket also holds the
    request to the venue and the two updates that follow it. *)
Lemma transaction_covers_more_than_insert :
  reaches_insert Sample.buy_limit accepting_world root_credentials
  /\ inside_transaction
       (performed (OrderService.createOrder Sample.buy_limit) accepting_world)
       false
     = [EvPool (InsertOrder Sample.buy_limit);
        EvVenue (CallCreateOrder "BTC/USDT" limit_order buy 1%Q (Some 50000%Q));
        EvPool (UpdateOrderStatus 1 pending);
        EvPool (UpdateExchangeOrderId 1 "X-1001")]
  /\ ~ transaction_covers_only_insert Sample.buy_limit accepting_world.
Proof.
  split; [exact accepting_world_reaches_insert|].
  assert (H : inside_transaction
                (performed (OrderService.createOrder Sample.buy_limit)
                           accepting_world) false
              = [EvPool (InsertOrder Sample.buy_limit);
                 EvVenue (CallCreateOrder "BTC/USDT" limit_order buy 1%Q
                                          (Some 50000%Q));
                 EvPool (UpdateOrderStatus 1 pending);
                 EvPool (UpdateExchangeOrderId 1 "X-1001")])
    by (vm_compute; reflexivity).
  split; [exact H|].
  unfold transaction_covers_only_insert. rewrite H. discriminate.
Qed.

Lemma unreachable_world_reaches_insert :
  reaches_insert Sample.buy_limit unreachable_world root_credentials.
Proof. split; [reflexivity|]. exists Sample.root. split; reflexivity. Qed.

Lemma createOrder_failure_recorded_witness :
  fst (OrderService.createOrder Sample.buy_limit unreachable_world)
  = Throw (creation_error network_timeout)
  /\ last (trace (snd (OrderService.createOrder Sample.buy_limit unreachable_world)))
     = Some EvRelease
  /\ In (EvClient ROLLBACK)
        (trace (snd (OrderService.createOrder Sample.buy_limit unreachable_world)))
  /\ exists row,
       orders (snd (OrderService.createOrder Sample.buy_limit unreachable_world))
         !! 1 = Some row
       /\ id row = 1
       /\ status row = failed
       /\ error row = Some "订单创建失败: Network timeout".
Proof.
  apply (createOrder_failure_recorded Sample.buy_limit unreachable_world
           root_credentials network_timeout unreachable_world_reaches_insert).
  vm_compute. reflexivity.
Defined.

Lemma createOrder_resolves_empty_key_witness :
  OrderService.createOrder
    (on_behalf_of 2 Sample.buy_limit) (Sample.world [Sample.bob] ∅ 0 Sample.accepts)
  = (Throw (new_Error NotFoundError "用户不存在"),
     log_event (EvPool (SelectUserByApiKey ""))
               (Sample.world [Sample.bob] ∅ 0 Sample.accepts))
  /\ orders (snd (OrderService.createOrder
                    (on_behalf_of 2 Sample.buy_limit)
                    (Sample.world [Sample.bob] ∅ 0 Sample.accepts)))
     = orders (Sample.world [Sample.bob] ∅ 0 Sample.accepts).
Proof.
  apply (createOrder_resolves_empty_key Sample.buy_limit
           (Sample.world [Sample.bob] ∅ 0 Sample.accepts)).
  - reflexivity.
  - intros u [<-|[]]. discriminate.
Defined.

(* ===================================================================== *)
(** ** Cancellation *)
(* ===================================================================== *)

Lemma getOrderById_found orderId userId w order :
  fst (Database.getOrderById orderId userId w) = Return (Some order) ->
  orders w !! orderId = Some order.
Proof.
  rewrite DatabaseRun.getOrderById. simpl. intros [= H].
  destruct (orders w !! orderId) as [o|]; [|done]. simpl in H.
  unfold Rows.visible in H.
  destruct (Rows.owner_filter userId) as [u|]; [|done].
  by destruct (order_user_id o =? u); simplify_eq.
Qed.

(** C6, as the code has it. For an order found by [cancelOrder]: when it is
    pending and the user and the venue credentials are found, the operation
    returns the row and leaves it with status [canceled], whether or not the
    remote cancellation succeeds, and a failure of the remote cancellation is
    written to the error column; when it is not pending, the operation fails
    with [ValidationError] and the table is unchanged. *)
Theorem cancelOrder_pending_or_rejected (orderId userId : Z) (w : World)
    (order : Order) :
  fst (Database.getOrderById orderId (Some userId) w) = Return (Some order) ->
  let r := fst (OrderService.cancelOrder orderId userId w) in
  let w' := snd (OrderService.cancelOrder orderId userId w) in
  (status order = pending ->
   forall credentials,
     credentials_found userId (exchange order) w credentials ->
     exists row,
       r = Return (Some row)
       /\ orders w' !! orderId = Some row
       /\ status row = canceled
       /\ error row = cancel_error order (remote_cancel order credentials w))
  /\ (status order <> pending ->
      r = Throw (new_Error ValidationError "只能取消待处理的订单")
      /\ orders w' = orders w).
Proof.
  intros Hfound r w'.
  pose proof (getOrderById_found _ _ _ _ Hfound) as Hrow.
  assert (Hget : Database.getOrderById orderId (Some userId) w
                 = (Return (Some order),
                    log_event (EvPool (SelectOrderById orderId
                                 (Rows.owner_filter (Some userId)))) w)).
  { apply run_eq; [done|]. by rewrite DatabaseRun.getOrderById. }
  split.
  - intros Hpending credentials (user & Huser & Hcreds).
    rewrite getUserById_run in Huser. simpl in Huser.
    apply (wp_elim (OrderService.cancelOrder orderId userId)
             (fun r w' =>
                exists row,
                  r = Return (Some row) /\ orders w' !! orderId = Some row
                  /\ status row = canceled
                  /\ error row
                     = cancel_error order (remote_cancel order credentials w))).
    unfold OrderService.cancelOrder, remote_cancel.
    wp_step. eapply wp_run; [exact Hget|]. cbv beta iota.
    rewrite Hpending. simpl negb. cbv iota.
    do 2 wp_step. change (users (log_event _ w)) with (users w). rewrite Huser.
    wp_step. wp_check (Return credentials) Hcreds.
    do 2 wp_step.
    destruct (OrderService.truthy_id (exchange_order_id order)) as [xid|].
    + wp_step.
      eapply (wp_remote _ _ w); [apply remote_cancelOrder | by repeat split |].
      intros evs Hevs.
      destruct (fst (ExchangeService.cancelOrder _ _ _ _ w)) as [xo|e];
        repeat wp_step; simpl;
        (eexists; split; [reflexivity|]; split; [apply lookup_insert_eq|]);
        by split.
    + repeat wp_step. simpl.
      eexists; split; [reflexivity|]; split; [apply lookup_insert_eq|].
      by split.
  - intros Hstatus. subst r w'.
    apply (wp_elim (OrderService.cancelOrder orderId userId)
             (fun r w' =>
                r = Throw (new_Error ValidationError "只能取消待处理的订单")
                /\ orders w' = orders w)).
    unfold OrderService.cancelOrder.
    wp_step. eapply wp_run; [exact Hget|]. cbv beta iota.
    case_bool_decide; [done|]. by wp_step.
Qed.

Lemma cancelOrder_pending_or_rejected_witness :
  exists row,
    fst (OrderService.cancelOrder 7 1 pending_world) = Return (Some row)
    /\ orders (snd (OrderService.cancelOrder 7 1 pending_world)) !! 7 = Some row
    /\ status row = canceled
    /\ error row = Some "取消失败: Network timeout".
Proof.
  refine (proj1 (cancelOrder_pending_or_rejected
                   7 1 pending_world (Sample.row 7 1 (Some "X-9") pending) _)
                eq_refl root_credentials _).
  - vm_compute. reflexivity.
  - exists Sample.root. split; vm_compute; reflexivity.
Defined.

(** C6, as stated, fails: a pending order whose owner has no venue
    credentials is not canceled; the operation fails with
    [ValidationError] and the row stays pending. *)
Lemma cancel_pending_without_credentials :
  fst (Database.getOrderById 8 (Some 2) pending_world)
  = Return (Some (Sample.row 8 2 None pending))
  /\ fst (OrderService.cancelOrder 8 2 pending_world)
     = Throw (new_Error ValidationError "用户未配置交易所API凭据")
  /\ status <$> orders (snd (OrderService.cancelOrder 8 2 pending_world)) !! 8
     = Some pending
  /\ ~ cancel_always_cancels 8 2 pending_world.
Proof.
  assert (H : status <$> orders (snd (OrderService.cancelOrder 8 2 pending_world)) !! 8
              = Some pending) by (vm_compute; reflexivity).
  split; [vm_compute; reflexivity|].
  split; [vm_compute; reflexivity|].
  split; [exact H|].
  intros Hspec.
  specialize (Hspec (Sample.row 8 2 None pending)).
  rewrite H in Hspec.
  discriminate Hspec; vm_compute; reflexivity.
Qed.

(* ===================================================================== *)
(** ** Terminal statuses *)
(* ===================================================================== *)

Section Keeps.

Context (I : World -> Prop).

Lemma keeps_ret {A} (a : A) : keeps I (ret a).
Proof. by intros w. Qed.

Lemma keeps_throw {A} (e : Error) : keeps I (@throw A e).
Proof. by intros w. Qed.

(** A step whose result satisfies [P]. *)
Lemma keeps_bind_post {A B} (P : A -> Prop) (m : M A) (k : A -> M B) :
  (forall w, I w ->
     I (snd (m w))
     /\ match fst (m w) with Return a => P a | Throw _ => True end) ->
  (forall a, P a -> keeps I (k a)) ->
  keeps I (bind m k).
Proof.
  intros Hm Hk w Hw. specialize (Hm w Hw). unfold bind.
  destruct (m w) as [[a|e] w1]; simpl in *; [|tauto].
  apply Hk; tauto.
Qed.

Lemma keeps_bind {A B} (m : M A) (k : A -> M B) :
  keeps I m -> (forall a, keeps I (k a)) -> keeps I (bind m k).
Proof.
  intros Hm Hk. apply (keeps_bind_post (fun _ => True)); [|auto].
  intros w Hw. split; [by apply Hm|]. by destruct (fst (m w)).
Qed.

Lemma keeps_try_catch {A} (m : M A) (h : Error -> M A) :
  keeps I m -> (forall e, keeps I (h e)) -> keeps I (try_catch m h).
Proof.
  intros Hm Hh w Hw. specialize (Hm w Hw). unfold try_catch.
  destruct (m w) as [[a|e] w1]; simpl in *; [done|]. by apply Hh.
Qed.

Lemma keeps_try_finally {A} (m : M A) (f : World -> World) :
  keeps I m -> (forall w, I w -> I (f w)) -> keeps I (try_finally m f).
Proof.
  intros Hm Hf w Hw. specialize (Hm w Hw). unfold try_finally.
  destruct (m w) as [r w1]; simpl in *. by apply Hf.
Qed.

End Keeps.

Section RowKept.

Context (key : Z) (o : Order).

Lemma row_kept_log e w : row_kept key o w -> row_kept key o (log_event e w).
Proof. done. Qed.

Lemma keeps_emit e : keeps (row_kept key o) (emit e).
Proof. by intros w. Qed.

Lemma keeps_remote {A} (m : M A) : remote m -> keeps (row_kept key o) m.
Proof.
  intros Hm w Hw.
  destruct (remote_run m w w Hm (same_remote_refl w)) as (evs & _ & ->).
  exact Hw.
Qed.

Lemma keeps_validateOrderParams params :
  keeps (row_kept key o) (OrderService.validateOrderParams params).
Proof. intros w Hw. by rewrite validateOrderParams_world. Qed.

Lemma keeps_getUserExchangeCredentials user name :
  keeps (row_kept key o) (OrderService.getUserExchangeCredentials user name).
Proof. intros w Hw. by rewrite getUserExchangeCredentials_world. Qed.

Lemma keeps_getUserByApiKey apiKey :
  keeps (row_kept key o) (Database.getUserByApiKey apiKey).
Proof. intros w Hw. by rewrite DatabaseRun.getUserByApiKey. Qed.

Lemma keeps_getUserById userId :
  keeps (row_kept key o) (OrderService.getUserById userId).
Proof. intros w Hw. by rewrite getUserById_run. Qed.

Lemma keeps_getOrderById orderId userId :
  keeps (row_kept key o) (Database.getOrderById orderId userId).
Proof. intros w Hw. by rewrite DatabaseRun.getOrderById. Qed.

Lemma keeps_updateOrderStatus orderId st f fe fc er :
  orderId <> key ->
  keeps (row_kept key o) (Database.updateOrderStatus orderId st f fe fc er).
Proof.
  intros Hne w [Hrow Hseq].
  destruct (orders w !! orderId) as [row|] eqn:E.
  - rewrite (DatabaseRun.updateOrderStatus_found _ _ _ _ _ _ _ _ E).
    split; [|done]. simpl. by rewrite lookup_insert_ne.
  - by rewrite (DatabaseRun.updateOrderStatus_missing _ _ _ _ _ _ _ E).
Qed.

Lemma keeps_queryUpdateExchangeOrderId xid orderId :
  orderId <> key ->
  keeps (row_kept key o) (Database.queryUpdateExchangeOrderId xid orderId).
Proof.
  intros Hne w [Hrow Hseq].
  destruct (orders w !! orderId) as [row|] eqn:E.
  - rewrite (DatabaseRun.queryUpdateExchangeOrderId_found _ _ _ _ E).
    split; [|done]. simpl. by rewrite lookup_insert_ne.
  - by rewrite (DatabaseRun.queryUpdateExchangeOrderId_missing _ _ _ E).
Qed.

(** The insertion takes a key beyond [key]. *)
Lemma createOrder_beyond request w :
  row_kept key o w ->
  row_kept key o (snd (Database.createOrder request w))
  /\ match fst (Database.createOrder request w) with
     | Return row => id row <> key
     | Throw _ => True
     end.
Proof.
  intros [Hrow Hseq]. rewrite DatabaseRun.createOrder.
  unfold row_kept, Rows.inserted. simpl.
  split; [split|]; [|lia|lia]. rewrite lookup_insert_ne; [done|lia].
Qed.

End RowKept.

Ltac keeps_auto :=
  repeat first
    [ apply keeps_ret | apply keeps_throw | apply keeps_emit
    | apply keeps_validateOrderParams
    | apply keeps_getUserExchangeCredentials
    | apply keeps_getUserByApiKey | apply keeps_getUserById
    | apply keeps_getOrderById
    | apply keeps_updateOrderStatus; assumption
    | apply keeps_queryUpdateExchangeOrderId; assumption
    | apply keeps_remote;
      first [ apply remote_createOrder | apply remote_cancelOrder
            | apply remote_fetchOrder ]
    | apply keeps_bind; [|intros ?]
    | apply keeps_try_catch; [|intros ?]
    | apply keeps_try_finally; [|intros ? ?; by apply row_kept_log]
    | match goal with
      | |- keeps _ (match ?x with _ => _ end) => destruct x
      | |- keeps _ (if ?b then _ else _) => destruct b
      end ].

Section OtherOrders.

Context (key : Z) (o : Order).

(** A creation leaves every row already in the table as it is. *)
Lemma keeps_createOrder request :
  keeps (row_kept key o) (OrderService.createOrder request).
Proof.
  unfold OrderService.createOrder, Database.transaction, OrderService.defined.
  apply keeps_bind; [apply keeps_validateOrderParams | intros _].
  apply keeps_bind; [apply keeps_getUserByApiKey | intros [user|]];
    [|apply keeps_throw].
  apply keeps_bind; [apply keeps_getUserExchangeCredentials | intros credentials].
  apply keeps_try_catch; [|intros e; apply keeps_throw].
  apply keeps_try_finally; [|intros ? ?; by apply row_kept_log].
  apply keeps_try_catch; [|intros e; keeps_auto].
  apply keeps_bind; [apply keeps_emit | intros _].
  apply keeps_bind; [|intros result; keeps_auto].
  apply (keeps_bind_post _ (fun row => id row <> key));
    [apply createOrder_beyond | intros dbOrder Hne].
  keeps_auto.
Qed.

(** The operations on an order leave the rows of the other orders as they
    are. *)
Lemma keeps_cancelOrder orderId userId :
  orderId <> key ->
  keeps (row_kept key o) (OrderService.cancelOrder orderId userId).
Proof. intros Hne. unfold OrderService.cancelOrder. keeps_auto. Qed.

Lemma keeps_refresh orderId ownerId order xid :
  orderId <> key ->
  keeps (row_kept key o) (OrderService.refresh orderId ownerId order xid).
Proof.
  intros Hne. unfold OrderService.refresh, OrderService.defined. keeps_auto.
Qed.

Lemma keeps_getOrder orderId userId :
  orderId <> key ->
  keeps (row_kept key o) (OrderService.getOrder orderId userId).
Proof.
  intros Hne. unfold OrderService.getOrder.
  apply keeps_bind; [apply keeps_getOrderById | intros [order|]];
    [|apply keeps_throw].
  destruct (bool_decide _); [|apply keeps_ret].
  destruct (OrderService.truthy_id _); [|apply keeps_ret].
  apply keeps_try_catch; [by apply keeps_refresh | intros e; apply keeps_ret].
Qed.

Lemma keeps_syncOrderStatus orderId :
  orderId <> key ->
  keeps (row_kept key o) (OrderService.syncOrderStatus orderId).
Proof.
  intros Hne. unfold OrderService.syncOrderStatus.
  apply keeps_bind; [apply keeps_getOrderById | intros [order|]];
    [|apply keeps_throw].
  destruct (OrderService.truthy_id _); [|apply keeps_ret].
  destruct (_ || _); [apply keeps_ret|].
  apply keeps_try_catch; [by apply keeps_refresh | intros e; apply keeps_throw].
Qed.

End OtherOrders.

Section SameOrder.

Context (key : Z) (o : Order) (w : World).
Hypothesis Hrow : orders w !! key = Some o.

Lemma visible_row owner row :
  Rows.visible o owner = Some row -> row = o.
Proof.
  unfold Rows.visible. destruct owner as [u|]; [|congruence].
  destruct (order_user_id o =? u); congruence.
Qed.

(** What [getOrderById] finds under [key]: the row, or nothing when the
    owner does not match. *)
Lemma getOrderById_row userId :
  exists found,
    Database.getOrderById key userId w
    = (Return found,
       log_event (EvPool (SelectOrderById key (Rows.owner_filter userId))) w)
    /\ (found = Some o \/ found = None).
Proof.
  rewrite DatabaseRun.getOrderById, Hrow. simpl.
  destruct (Rows.visible o _) as [row|] eqn:E; eexists; split; try done.
  - left. by rewrite (visible_row _ _ E).
  - by right.
Qed.

Lemma cancelOrder_terminal userId :
  status o <> pending ->
  orders (snd (OrderService.cancelOrder key userId w)) = orders w.
Proof.
  intros Hst.
  apply (wp_elim (OrderService.cancelOrder key userId)
           (fun _ w' => orders w' = orders w)).
  destruct (getOrderById_row (Some userId)) as (found & Hget & [-> | ->]);
    unfold OrderService.cancelOrder;
    wp_step; (eapply wp_run; [exact Hget|]); cbv beta iota.
  - case_bool_decide; [done|]. by wp_step.
  - by wp_step.
Qed.

Lemma getOrder_terminal userId :
  status o <> pending ->
  orders (snd (OrderService.getOrder key userId w)) = orders w.
Proof.
  intros Hst.
  apply (wp_elim (OrderService.getOrder key userId)
           (fun _ w' => orders w' = orders w)).
  destruct (getOrderById_row (Some userId)) as (found & Hget & [-> | ->]);
    unfold OrderService.getOrder;
    wp_step; (eapply wp_run; [exact Hget|]); cbv beta iota.
  - case_bool_decide; [done|]. cbv iota.
    try destruct (OrderService.truthy_id (exchange_order_id o)); by wp_step.
  - by wp_step.
Qed.

Lemma syncOrderStatus_terminal :
  resyncs (OpSync key) key o = false ->
  orders (snd (OrderService.syncOrderStatus key w)) = orders w.
Proof.
  unfold resyncs. rewrite Z.eqb_refl. simpl. intros Hno.
  apply (wp_elim (OrderService.syncOrderStatus key)
           (fun _ w' => orders w' = orders w)).
  unfold OrderService.syncOrderStatus.
  wp_step. wp_step. rewrite Hrow. simpl.
  destruct (OrderService.truthy_id (exchange_order_id o)) as [xid|];
    [|by wp_step].
  rewrite bool_decide_eq_true_2 in Hno by eauto. simpl in Hno.
  destruct (bool_decide (status o = filled)); simpl in *; [by wp_step|].
  destruct (bool_decide (status o = canceled)); simpl in *; [by wp_step|].
  done.
Qed.

End SameOrder.

(** C7, as the code has it. An order whose status is [filled] or [canceled]
    keeps its row, hence its status, through every lifecycle operation
    (create, cancel, read with reconciliation, sync), and so does a [failed]
    order through every operation but one: [syncOrderStatus] on that order
    when it has a remote identifier. *)
Theorem terminal_status_kept (op : LifecycleOp) (w : World) (key : Z) (o : Order) :
  orders w !! key = Some o ->
  key <= orders_seq w ->
  terminal (status o) = true ->
  resyncs op key o = false ->
  orders (perform op w) !! key = Some o
  /\ status <$> orders (perform op w) !! key = Some (status o).
Proof.
  intros Hrow Hseq Hterm Hsync.
  assert (Hst : status o <> pending) by (intros E; by rewrite E in Hterm).
  assert (Hkept : row_kept key o w) by done.
  cut (orders (perform op w) !! key = Some o); [intros ->; by split|].
  destruct op as [request|orderId userId|orderId userId|orderId]; simpl.
  - by apply (keeps_createOrder key o request w).
  - destruct (decide (orderId = key)) as [->|Hne].
    + by rewrite cancelOrder_terminal with (o := o).
    + by apply (keeps_cancelOrder key o orderId userId Hne w).
  - destruct (decide (orderId = key)) as [->|Hne].
    + by rewrite getOrder_terminal with (o := o).
    + by apply (keeps_getOrder key o orderId userId Hne w).
  - destruct (decide (orderId = key)) as [->|Hne].
    + by rewrite syncOrderStatus_terminal with (o := o).
    + by apply (keeps_syncOrderStatus key o orderId Hne w).
Qed.

Lemma rejected_world_row : orders rejected_world !! 1 = Some rejected_row.
Proof. vm_compute. reflexivity. Qed.

(** C7, as stated, fails: [syncOrderStatus] takes a [failed] order that has
    a remote identifier to [filled]. *)
Lemma sync_leaves_failed :
  orders rejected_world !! 1 = Some rejected_row
  /\ terminal (status rejected_row) = true
  /\ status <$> orders (perform (OpSync 1) rejected_world) !! 1 = Some filled
  /\ ~ terminal_is_final (OpSync 1) rejected_world 1.
Proof.
  assert (H : status <$> orders (perform (OpSync 1) rejected_world) !! 1
              = Some filled) by (vm_compute; reflexivity).
  split; [exact rejected_world_row|].
  split; [reflexivity|].
  split; [exact H|].
  intros Hspec.
  specialize (Hspec rejected_row rejected_world_row eq_refl).
  rewrite H in Hspec. discriminate Hspec.
Qed.

Lemma terminal_status_kept_witness :
  orders (perform (OpCancel 1 1) rejected_world) !! 1 = Some rejected_row
  /\ status <$> orders (perform (OpCancel 1 1) rejected_world) !! 1
     = Some failed.
Proof.
  apply (terminal_status_kept (OpCancel 1 1) rejected_world 1 rejected_row).
  - exact rejected_world_row.
  - vm_compute. discriminate.
  - reflexivity.
  - reflexivity.
Defined.

(* ===================================================================== *)
(** ** Admission control *)
(* ===================================================================== *)

Section CheckLimit.

Context (identifier endpoint : string) (config : RateLimitConfig)
        (type : LimitType).

Let key := counter_key type identifier endpoint.

(** One check against a store that answers: the counter goes up by one, and
    the request is admitted exactly when the new value is within the
    limit. *)
Lemma checkLimit_step (w : World) :
  redis_up w = true ->
  let n := counted (counters w !! key) + 1 in
  let r := fst (RateLimitService.checkLimit identifier endpoint config type w) in
  let w' := snd (RateLimitService.checkLimit identifier endpoint config type w) in
  redis_up w' = true
  /\ counted (counters w' !! key) = n
  /\ (if decide (n <= maxRequests config) then admitted r
      else rejected_with_retry r).
Proof.
  intros Hup n r w'. subst r w'.
  unfold RateLimitService.checkLimit.
  fold (counter_key type identifier endpoint). fold key.
  unfold try_catch, bind, CacheService.increment, CacheService.ttl,
    CacheService.command, get_world.
  rewrite Hup. simpl.
  assert (Hn : match counters w !! key with
               | Some c => count c + 1
               | None => 1
               end = n).
  { subst n. by destruct (counters w !! key). }
  rewrite Hn.
  destruct (n >? maxRequests config) eqn:Hgt.
  - simpl. rewrite Hup. simpl. rewrite lookup_insert_eq. simpl.
    repeat split; [done|].
    destruct (decide (n <= maxRequests config)); [lia|].
    eexists. split; [reflexivity|]. simpl. lia.
  - simpl. rewrite lookup_insert_eq. simpl.
    repeat split; [done|].
    destruct (decide (n <= maxRequests config)); [|lia].
    by eexists.
Qed.

Lemma requests_from (N : nat) :
  forall (w : World),
    redis_up w = true ->
    let j := counted (counters w !! key) in
    let outcomes :=
      fst (requests (RateLimitService.checkLimit identifier endpoint config type)
                    N w) in
    length outcomes = N
    /\ forall (i : nat) r,
         outcomes !! i = Some r ->
         if decide (j + Z.of_nat i < maxRequests config) then admitted r
         else rejected_with_retry r.
Proof.
  induction N as [|N IH]; intros w Hup j outcomes; subst outcomes.
  - split; [done|]. by intros i r.
  - simpl.
    destruct (checkLimit_step w Hup) as (Hup' & Hcount & Hr). fold j in Hcount, Hr.
    destruct (RateLimitService.checkLimit identifier endpoint config type w)
      as [r1 w1]. simpl in *.
    specialize (IH w1 Hup'). rewrite Hcount in IH. simpl in IH.
    destruct (requests _ N w1) as [rs w2]. simpl in *.
    destruct IH as [Hlen IH]. split; [by rewrite Hlen|].
    intros [|i] r Hi; simpl in Hi.
    + injection Hi as <-. rewrite Z.add_0_r.
      destruct (decide (j + 1 <= maxRequests config)),
        (decide (j < maxRequests config)); try done; lia.
    + specialize (IH i r Hi).
      destruct (decide (j + 1 + Z.of_nat i < maxRequests config)),
        (decide (j + Z.of_nat (S i) < maxRequests config)); try done; lia.
Qed.

End CheckLimit.

(** C3. [N] requests against one scope with limit [L], [0 <= L < N], the
    store answering and the counter not yet created: the first [L] requests
    are admitted and each of the [N - L] others is rejected with a
    [RateLimitError] whose [retryAfter] is at least 1. *)
Theorem checkLimit_admits_exactly_limit (identifier endpoint : string)
    (config : RateLimitConfig) (type : LimitType) (w : World) (N : nat) :
  redis_up w = true ->
  counters w !! counter_key type identifier endpoint = None ->
  0 <= maxRequests config < Z.of_nat N ->
  let outcomes :=
    fst (requests (RateLimitService.checkLimit identifier endpoint config type)
                  N w) in
  length outcomes = N
  /\ (forall r, r ∈ take (Z.to_nat (maxRequests config)) outcomes -> admitted r)
  /\ (forall r, r ∈ drop (Z.to_nat (maxRequests config)) outcomes ->
                rejected_with_retry r)
  /\ length (drop (Z.to_nat (maxRequests config)) outcomes)
     = (N - Z.to_nat (maxRequests config))%nat.
Proof.
  intros Hup Hfresh HL outcomes.
  destruct (requests_from identifier endpoint config type N w Hup) as [Hlen Hat].
  fold outcomes in Hlen, Hat. rewrite Hfresh in Hat. simpl in Hat.
  split; [done|]. split; [|split].
  - intros r [i Hi]%list_elem_of_lookup.
    apply lookup_take_Some in Hi as [Hi Hlt].
    specialize (Hat i r Hi). destruct (decide _); [done|lia].
  - intros r [i Hi]%list_elem_of_lookup.
    rewrite lookup_drop in Hi.
    specialize (Hat _ r Hi). destruct (decide _); [lia|done].
  - rewrite length_drop. lia.
Qed.

Lemma checkLimit_admits_exactly_limit_witness :
  let outcomes :=
    fst (requests (RateLimitService.checkLimit "42" "/api/v1/test"
                     (mkConfig 60000 2) limit_user)
                  3 (Sample.world [] ∅ 0 Sample.accepts)) in
  length outcomes = 3%nat
  /\ (forall r, r ∈ take (Z.to_nat 2) outcomes -> admitted r)
  /\ (forall r, r ∈ drop (Z.to_nat 2) outcomes -> rejected_with_retry r)
  /\ length (drop (Z.to_nat 2) outcomes) = (3 - Z.to_nat 2)%nat.
Proof.
  apply (checkLimit_admits_exactly_limit "42" "/api/v1/test"
           (mkConfig 60000 2) limit_user (Sample.world [] ∅ 0 Sample.accepts) 3).
  - reflexivity.
  - vm_compute. reflexivity.
  - simpl. lia.
Defined.

(** The three outcomes of that run: two admissions, then a rejection that
    asks to retry after the 60 seconds left on the counter. *)
Example three_requests_limit_two :
  fst (requests (RateLimitService.checkLimit "42" "/api/v1/test"
                   (mkConfig 60000 2) limit_user)
                3 (Sample.world [] ∅ 0 Sample.accepts))
  = [ Return (mkInfo 2 1 1700000060000 None);
      Return (mkInfo 2 0 1700000060000 None);
      Throw (mkError RateLimitError "请求频率超限" (Some (mkDetails 2 3 60))) ].
Proof. vm_compute. reflexivity. Qed.

(* ===================================================================== *)
(** ** Authentication *)
(* ===================================================================== *)

(** C8. A request whose API key resolves to an identity that is not active
    (suspended or inactive) is refused with an [AuthenticationError],
    whatever its signature: the status is tested before the signature is
    looked at. *)
Theorem inactive_identity_rejected (request : Request) (w : World)
    (apiKey : string) (user : User) :
  AuthService.header (x_api_key request) = Some apiKey ->
  fst (AuthService.getUserByApiKey apiKey w) = Return (Some user) ->
  user_status user = suspended \/ user_status user = inactive ->
  exists msg,
    fst (AuthService.authenticateRequest request w)
    = Throw (new_Error AuthenticationError msg).
Proof.
  intros Hkey Hresolved Hstatus.
  unfold AuthService.authenticateRequest. rewrite Hkey.
  destruct (AuthService.header (x_timestamp request)) as [timestamp|];
    [|by eexists].
  destruct (AuthService.header (x_signature request)) as [signature|];
    [|by eexists].
  unfold bind at 1, get_world.
  destruct (JS.parseInt timestamp) as [requestTime|]; [|by eexists].
  destruct (Z.abs (now w - requestTime) >? AuthService.TIME_WINDOW);
    [by eexists|].
  unfold bind at 1.
  destruct (AuthService.getUserByApiKey apiKey w) as [resolved w1].
  simpl in Hresolved. subst resolved.
  rewrite bool_decide_eq_false_2; [by eexists|].
  destruct Hstatus as [-> | ->]; discriminate.
Qed.

Lemma carol_signature_is_valid :
  fst (AuthService.verifySignature carol_request "1700000000000" "carol-secret"
         (default "" (x_signature carol_request)) stale_cache_world)
  = Return true.
Proof. vm_compute. reflexivity. Qed.

Lemma inactive_identity_rejected_witness :
  exists msg,
    fst (AuthService.authenticateRequest carol_request stale_cache_world)
    = Throw (new_Error AuthenticationError msg).
Proof.
  apply (inactive_identity_rejected carol_request stale_cache_world
           "carol-key" Sample.carol).
  - reflexivity.
  - vm_compute. reflexivity.
  - left. reflexivity.
Defined.

(** When the identity is not in the cache, the query keeps active rows
    only: a key whose rows are all suspended or inactive is refused as
    unknown. *)
Lemma inactive_row_rejected (request : Request) (w : World) (apiKey : string) :
  AuthService.header (x_api_key request) = Some apiKey ->
  redis_up w = true ->
  user_cache w !! CacheService.getUserKey apiKey = None ->
  (forall u, In u (users w) -> api_key u = apiKey -> user_status u <> active) ->
  exists msg,
    fst (AuthService.authenticateRequest request w)
    = Throw (new_Error AuthenticationError msg).
Proof.
  intros Hkey Hup Hmiss Hrows.
  unfold AuthService.authenticateRequest. rewrite Hkey.
  destruct (AuthService.header (x_timestamp request)) as [timestamp|];
    [|by eexists].
  destruct (AuthService.header (x_signature request)) as [signature|];
    [|by eexists].
  unfold bind at 1, get_world.
  destruct (JS.parseInt timestamp) as [requestTime|]; [|by eexists].
  destruct (Z.abs (now w - requestTime) >? AuthService.TIME_WINDOW);
    [by eexists|].
  unfold bind at 1, AuthService.getUserByApiKey, bind at 1,
    CacheService.get, CacheService.command.
  rewrite Hup, Hmiss. unfold bind at 1.
  rewrite DatabaseRun.getUserByApiKey.
  change (users (log_event _ w)) with (users w).
  assert (Hfind : List.find
                    (fun u => String.eqb (api_key u) apiKey
                              && bool_decide (user_status u = active))
                    (users w) = None).
  { induction (users w) as [|u l IH]; [done|]. simpl.
    destruct (String.eqb_spec (api_key u) apiKey) as [Heq|_]; simpl.
    - rewrite bool_decide_eq_false_2
        by (apply Hrows; [by left | done]).
      apply IH. intros u' Hu'. apply Hrows. by right.
    - apply IH. intros u' Hu'. apply Hrows. by right. }
  rewrite Hfind. by eexists.
Qed.

(* ===================================================================== *)
(** ** Scope of the counters of unauthenticated callers *)
(* ===================================================================== *)

(** [getRateLimitKey] turns the identifier into a number with [parseInt]:
    of an address it keeps the digits before the first dot. *)
Lemma getRateLimitKey_of_address (endpoint : string) :
  RateLimitService.getRateLimitKey "10.0.0.1" endpoint
  = "ratelimit:10:" +:+ endpoint
  /\ RateLimitService.getRateLimitKey "10.0.0.2" endpoint
     = "ratelimit:10:" +:+ endpoint.
Proof. split; reflexivity. Qed.

(** C9 fails on the code. Two unauthenticated requests for the same endpoint
    from the distinct addresses 10.0.0.1 and 10.0.0.2 consult the same
    endpoint counter, "ratelimit:10:/api/v1/market/ticker" (only their
    global counters differ); and once 10.0.0.1 has used up the 200 requests
    of the window, the first request of 10.0.0.2 is rejected. *)
Theorem distinct_addresses_share_counter :
  let start := Sample.world [] ∅ 0 Sample.accepts in
  let one := ticker_request "10.0.0.1" in
  let other := ticker_request "10.0.0.2" in
  RateLimitService.getClientIP one <> RateLimitService.getClientIP other
  /\ counter_key limit_ip (RateLimitService.getClientIP one)
                 (RateLimitService.normalizeEndpoint (url one))
     = counter_key limit_ip (RateLimitService.getClientIP other)
                   (RateLimitService.normalizeEndpoint (url other))
  /\ counters (after_requests other 1 (after_requests one 1 start))
       !! "ratelimit:10:/api/v1/market/ticker"
     = Some (mkCounter 2 (Some 60))
  /\ counters (after_requests other 1 (after_requests one 1 start))
       !! "ratelimit:global:10.0.0.2"
     = Some (mkCounter 1 (Some 60))
  /\ fst (RateLimitService.checkRateLimit other start)
     = Return (mkInfo 200 199 1700000060000 None)
  /\ fst (RateLimitService.checkRateLimit other (after_requests one 200 start))
     = Throw (mkError RateLimitError "请求频率超限"
                (Some (mkDetails 200 201 60))).
Proof.
  cbv zeta. split; [discriminate|].
  repeat split; vm_compute; reflexivity.
Qed.

(* ===================================================================== *)
(** ** Insufficient balance *)
(* ===================================================================== *)

(** The error by which [createOrder] replaces the venue's is not recognised
    by the classification: its message has none of the four substrings. *)
Lemma InsufficientBalanceError_is_retried :
  ExchangeService.isNonRetryableError
    (new_Error PlainError "Account has insufficient balance for requested action")
  = true
  /\ ExchangeService.isNonRetryableError
       (new_Error InsufficientBalanceError "余额不足")
     = false.
Proof. split; reflexivity. Qed.

(** C4 fails on the code. When the venue answers every order with an error
    whose message contains "insufficient balance", the caller does receive
    an [InsufficientBalanceError] and the order is stored as [failed], but
    the venue was asked three times, with delays of 1000 ms and 2000 ms:
    two retries, not zero. *)
Theorem insufficient_balance_is_retried :
  ExchangeService.createOrder Sample.buy_limit "binance"
                              (Some root_credentials) broke_world
  = (Throw (new_Error InsufficientBalanceError "余额不足"),
     advance 3 [EvVenue buy_limit_call; EvSleep 1000;
                EvVenue buy_limit_call; EvSleep 2000;
                EvVenue buy_limit_call] broke_world)
  /\ fst (OrderService.createOrder Sample.buy_limit broke_world)
     = Throw (new_Error InsufficientBalanceError "余额不足")
  /\ venue_calls (snd (OrderService.createOrder Sample.buy_limit broke_world))
     = 3%nat
  /\ status <$> orders (snd (OrderService.createOrder Sample.buy_limit broke_world))
                  !! 1
     = Some failed.
Proof. repeat split; vm_compute; reflexivity. Qed.

(** The sibling case that is not retried: an "invalid symbol" answer is
    thrown after a single request, the message of the wrapping
    [ExchangeError] still containing it. *)
Example invalid_symbol_is_not_retried :
  venue_calls
    (snd (ExchangeService.createOrder Sample.buy_limit "binance"
            (Some root_credentials)
            (Sample.world [Sample.root] ∅ 0 (fun _ => VenueThrows "Invalid symbol"))))
  = 1%nat.
Proof. vm_compute. reflexivity. Qed.

(* ===================================================================== *)
(** ** The retry policy for any number of attempts *)
(* ===================================================================== *)

Section RetryBound.

Context {A : Type} (operation : M A) (c : VenueCall)
        (result : VenueReply -> Outcome A).
Hypothesis Hop : venue_driven operation c result.

Variables (maxRetries baseDelay : Z) (w : World).

Lemma retryable_failure_dec (o : Outcome A) :
  {retryable_failure o} + {~ retryable_failure o}.
Proof.
  destruct o as [v|e].
  - right. by intros (e & ? & _).
  - destruct (ExchangeService.isNonRetryableError e) eqn:E.
    + right. intros (e' & [= <-] & ?). congruence.
    + left. by exists e.
Qed.

(** The loop stops at the first answer that is not a retryable failure, or
    at the last attempt. *)
Lemma retry_loop_run :
  forall (fuel : nat) (attempt : Z) (n : nat) (evs : list Event) last,
    attempt + Z.of_nat (S fuel) - 1 = maxRetries ->
    exists j,
      (j <= fuel)%nat
      /\ ExchangeService.retry_loop operation (S fuel) attempt maxRetries baseDelay
           last (advance n evs w)
         = (answer result w (n + j),
            advance (n + j + 1)
                    (evs ++ EvVenue c :: retries c baseDelay (attempt + 1) j) w)
      /\ (forall i, (i < j)%nat -> retryable_failure (answer result w (n + i)))
      /\ (j = fuel \/ ~ retryable_failure (answer result w (n + j))).
Proof.
  induction fuel as [|fuel IH]; intros attempt n evs last Hmax.
  - exists 0%nat. rewrite Nat.add_0_r. split; [lia|].
    split; [|split; [lia|by left]].
    rewrite (retry_loop_last operation c result Hop maxRetries baseDelay w
               0 attempt n evs last _ eq_refl).
    + do 2 f_equal. lia.
    + intros e _. right. lia.
  - destruct (retryable_failure_dec (answer result w n)) as [Hr|Hr].
    + destruct (retry_loop_step operation c result Hop maxRetries baseDelay w
                  (S fuel) attempt n evs last) as [e ->]; [lia|done|].
      destruct (IH (attempt + 1) (S n)
                   (evs ++ [EvVenue c; EvSleep (baseDelay * 2 ^ (attempt + 1 - 2))])
                   (Some e)) as (j & Hj & -> & Hfail & Hstop); [lia|].
      exists (S j). split; [lia|].
      replace (n + S j)%nat with (S n + j)%nat by lia.
      split; [|split].
      * f_equal. simpl. rewrite <- !app_assoc. done.
      * intros [|i] Hi; [by rewrite Nat.add_0_r|].
        replace (n + S i)%nat with (S n + i)%nat by lia. apply Hfail. lia.
      * destruct Hstop as [->|?]; [by left | by right].
    + exists 0%nat. rewrite Nat.add_0_r. split; [lia|].
      split; [|split; [lia|by right]].
      rewrite (retry_loop_last operation c result Hop maxRetries baseDelay w
                 (S fuel) attempt n evs last _ eq_refl).
      * do 2 f_equal. lia.
      * intros e He. left.
        destruct (ExchangeService.isNonRetryableError e) eqn:E; [done|].
        destruct Hr. by exists e.
Qed.

End RetryBound.

Lemma slept_retries c baseDelay k n :
  2 <= k ->
  slept (retries c baseDelay k n) = baseDelay * 2 ^ (k - 2) * (2 ^ Z.of_nat n - 1).
Proof.
  revert k. induction n as [|n IH]; intros k Hk.
  - simpl. lia.
  - cbn [retries slept]. rewrite IH by lia.
    replace (k + 1 - 2) with (Z.succ (k - 2)) by lia.
    rewrite Nat2Z.inj_succ, !Z.pow_succ_r by lia. lia.
Qed.

Lemma slept_attempts c baseDelay n :
  (1 <= n)%nat ->
  slept (attempts c baseDelay n) = baseDelay * (2 ^ (Z.of_nat n - 1) - 1).
Proof.
  intros Hn. unfold attempts. cbn [slept]. rewrite slept_retries by lia.
  replace (2 - 2) with 0 by lia. rewrite Z.pow_0_r.
  replace (Z.of_nat (n - 1)) with (Z.of_nat n - 1) by lia. lia.
Qed.

(** X1. For an operation that is one request to the venue, and any positive
    number of attempts, [retryOperation] makes n requests with 1 <= n <=
    maxRetries, each retry preceded by its delay and nothing else in
    between; its outcome is the answer to the last request; every earlier
    answer was a retryable failure; and it stopped either because the
    attempts were used up or because the last answer was a result or a
    non-retryable failure. *)
Theorem retryOperation_attempts {A} (operation : M A) (c : VenueCall)
    (result : VenueReply -> Outcome A) (maxRetries baseDelay : Z) (w : World) :
  venue_driven operation c result ->
  1 <= maxRetries ->
  exists n : nat,
    (1 <= n)%nat /\ Z.of_nat n <= maxRetries
    /\ ExchangeService.retryOperation operation maxRetries baseDelay w
       = (answer result w (n - 1), advance n (attempts c baseDelay n) w)
    /\ (forall i, (i < n - 1)%nat -> retryable_failure (answer result w i))
    /\ (Z.of_nat n = maxRetries \/ ~ retryable_failure (answer result w (n - 1))).
Proof.
  intros Hop Hmax. unfold ExchangeService.retryOperation.
  destruct (Z.to_nat maxRetries) as [|fuel] eqn:Hfuel; [lia|].
  destruct (retry_loop_run operation c result Hop maxRetries baseDelay w
              fuel 1 0 [] None) as (j & Hj & Hrun & Hfail & Hstop); [lia|].
  rewrite advance_nothing in Hrun.
  exists (S j). replace (S j - 1)%nat with j by lia.
  split; [lia|]. split; [lia|]. split; [|split].
  - rewrite Hrun. unfold attempts. simpl.
    replace (j - 0)%nat with j by lia. do 2 f_equal. lia.
  - exact Hfail.
  - destruct Hstop as [->|?]; [left; lia | by right].
Qed.

Lemma retryOperation_attempts_witness :
  exists n : nat,
    (1 <= n)%nat /\ Z.of_nat n <= 5
    /\ ExchangeService.retryOperation
         (ExchangeService.request (CallFetchTicker "BTC/USDT")) 5 1000
         (Sample.world [] ∅ 0 Sample.flaky)
       = (answer ExchangeService.reply_outcome
                 (Sample.world [] ∅ 0 Sample.flaky) (n - 1),
          advance n (attempts (CallFetchTicker "BTC/USDT") 1000 n)
                  (Sample.world [] ∅ 0 Sample.flaky))
    /\ (forall i, (i < n - 1)%nat ->
          retryable_failure
            (answer ExchangeService.reply_outcome
                    (Sample.world [] ∅ 0 Sample.flaky) i))
    /\ (Z.of_nat n = 5
        \/ ~ retryable_failure
               (answer ExchangeService.reply_outcome
                       (Sample.world [] ∅ 0 Sample.flaky) (n - 1))).
Proof.
  apply (retryOperation_attempts
           (ExchangeService.request (CallFetchTicker "BTC/USDT"))
           (CallFetchTicker "BTC/USDT") ExchangeService.reply_outcome 5 1000
           (Sample.world [] ∅ 0 Sample.flaky)).
  - intros w. reflexivity.
  - lia.
Defined.

(** X2. The delays [retryOperation] adds are bounded: with a non-negative
    base delay and maxRetries >= 1 attempts, the time slept in one call is
    at most baseDelay * (2^(maxRetries-1) - 1) milliseconds, 3000 ms for the
    default arguments. *)
Theorem retryOperation_total_delay {A} (operation : M A) (c : VenueCall)
    (result : VenueReply -> Outcome A) (maxRetries baseDelay : Z) (w : World) :
  venue_driven operation c result ->
  1 <= maxRetries ->
  0 <= baseDelay ->
  0 <= slept (performed (ExchangeService.retryOperation operation maxRetries
                                                        baseDelay) w)
    <= baseDelay * (2 ^ (maxRetries - 1) - 1).
Proof.
  intros Hop Hmax Hb.
  assert (Hrun : exists j,
             Z.of_nat j < maxRetries
             /\ trace (snd (ExchangeService.retryOperation operation maxRetries
                                                           baseDelay w))
                = trace w ++ attempts c baseDelay (S j)).
  { unfold ExchangeService.retryOperation.
    destruct (Z.to_nat maxRetries) as [|fuel] eqn:Hfuel; [lia|].
    destruct (retry_loop_run operation c result Hop maxRetries baseDelay w
                fuel 1 0 [] None) as (j & Hj & Hrun & _); [lia|].
    rewrite advance_nothing in Hrun. exists j. split; [lia|].
    rewrite Hrun. unfold attempts. simpl. by rewrite Nat.sub_0_r. }
  destruct Hrun as (j & Hj & Hrun).
  rewrite (performed_app _ _ _ Hrun), slept_attempts by lia.
  replace (Z.of_nat (S j) - 1) with (Z.of_nat j) by lia.
  pose proof (Z.pow_le_mono_r 2 0 (Z.of_nat j) ltac:(lia) ltac:(lia)) as H1.
  pose proof (Z.pow_le_mono_r 2 (Z.of_nat j) (maxRetries - 1)
                ltac:(lia) ltac:(lia)) as H2.
  rewrite Z.pow_0_r in H1. nia.
Qed.

Lemma retryOperation_total_delay_witness :
  0 <= slept (performed
                (ExchangeService.retryOperation
                   (ExchangeService.request (CallFetchTicker "BTC/USDT")) 3 1000)
                (Sample.world [] ∅ 0 Sample.unreachable))
    <= 1000 * (2 ^ (3 - 1) - 1).
Proof.
  apply (retryOperation_total_delay
           (ExchangeService.request (CallFetchTicker "BTC/USDT"))
           (CallFetchTicker "BTC/USDT") ExchangeService.reply_outcome 3 1000
           (Sample.world [] ∅ 0 Sample.unreachable)).
  - intros w. reflexivity.
  - lia.
  - lia.
Defined.

(** X3. With no attempt allowed (maxRetries <= 0) [retryOperation] never
    calls the operation: it throws the undefined last error at once and
    leaves the world as it is. *)
Theorem retryOperation_without_attempts {A} (operation : M A)
    (maxRetries baseDelay : Z) (w : World) :
  maxRetries <= 0 ->
  ExchangeService.retryOperation operation maxRetries baseDelay w
  = (Throw ExchangeService.undefined_thrown, w).
Proof.
  intros H. unfold ExchangeService.retryOperation.
  by replace (Z.to_nat maxRetries) with 0%nat by lia.
Qed.

Lemma retryOperation_without_attempts_witness :
  ExchangeService.retryOperation
    (ExchangeService.request (CallFetchTicker "BTC/USDT")) 0 1000
    (Sample.world [] ∅ 0 Sample.accepts)
  = (Throw ExchangeService.undefined_thrown, Sample.world [] ∅ 0 Sample.accepts).
Proof. apply retryOperation_without_attempts. lia. Defined.

(* ===================================================================== *)
(** ** The connector: which venue is asked, and what it throws *)
(* ===================================================================== *)

(** The methods of [ExchangeService], unfolded. *)
Lemma connector_createOrder params name credentials :
  ExchangeService.createOrder params name credentials
  = (ExchangeService.getExchange name ;;
     ExchangeService.userInstance name credentials ;;
     ExchangeService.retryOperation (ExchangeService.createOrderOperation params)
       ExchangeService.defaultMaxRetries ExchangeService.defaultBaseDelay).
Proof. with_strategy transparent [ExchangeService.createOrder] reflexivity. Qed.

Lemma connector_cancelOrder orderId sym name credentials :
  ExchangeService.cancelOrder orderId sym name credentials
  = (ExchangeService.getExchange name ;;
     ExchangeService.userInstance name credentials ;;
     ExchangeService.retryOperation
       (ExchangeService.request (CallCancelOrder orderId sym))
       ExchangeService.defaultMaxRetries ExchangeService.defaultBaseDelay).
Proof. with_strategy transparent [ExchangeService.cancelOrder] reflexivity. Qed.

Lemma connector_fetchOrder orderId sym name credentials :
  ExchangeService.fetchOrder orderId sym name credentials
  = (ExchangeService.getExchange name ;;
     ExchangeService.userInstance name credentials ;;
     ExchangeService.retryOperation
       (ExchangeService.request (CallFetchOrder orderId sym))
       ExchangeService.defaultMaxRetries ExchangeService.defaultBaseDelay).
Proof. with_strategy transparent [ExchangeService.fetchOrder] reflexivity. Qed.

(** The connector is reached: the venue is configured and, when credentials
    are given, the connector class exists. *)
Lemma connector_reached {A} name credentials (k : M A) w :
  JS.toLowerCase name ∈ exchanges w ->
  (credentials = None \/ ccxt w name = true) ->
  (ExchangeService.getExchange name ;;
   ExchangeService.userInstance name credentials ;; k) w = k w.
Proof.
  intros Hin Hc. unfold ExchangeService.getExchange, ExchangeService.userInstance,
    bind, get_world.
  rewrite bool_decide_eq_true_2 by done. simpl.
  destruct credentials as [cr|]; [|done].
  destruct Hc as [?| ->]; done.
Qed.

Lemma connector_unsupported {A} name credentials (k : M A) w :
  JS.toLowerCase name ∉ exchanges w ->
  (ExchangeService.getExchange name ;;
   ExchangeService.userInstance name credentials ;; k) w
  = (Throw (new_Error ExchangeError
              ("Exchange " +:+ name +:+ " not configured or supported")), w).
Proof.
  intros Hin. unfold ExchangeService.getExchange, bind, get_world.
  by rewrite bool_decide_eq_false_2.
Qed.

Lemma createOrderOperation_venue_driven params :
  venue_driven (ExchangeService.createOrderOperation params)
    (order_call params) order_answer.
Proof.
  intros w. unfold ExchangeService.createOrderOperation, try_catch,
    ExchangeService.request, order_answer.
  destruct (venue w (venue_calls w)) as [o|msg]; simpl; [done|].
  by destruct (JS.includes _ _ || JS.includes _ _).
Qed.

Lemma toLowerCase_app a b :
  JS.toLowerCase (a +:+ b) = JS.toLowerCase a +:+ JS.toLowerCase b.
Proof. induction a as [|c a IH]; [done|]. simpl. by rewrite IH. Qed.

Lemma includes_app_r a b sub :
  JS.includes b sub = true -> JS.includes (a +:+ b) sub = true.
Proof.
  intros H. induction a as [|c a IH]; [done|].
  change (String c a +:+ b) with (String c (a +:+ b)).
  destruct sub as [|s sub]; [done|].
  simpl. simpl in IH. rewrite IH. by destruct (if Ascii.eqb s c then _ else _).
Qed.

Lemma wrapped_error_non_retryable prefix msg :
  JS.includes (JS.toLowerCase msg) "invalid symbol" = true
  \/ JS.includes (JS.toLowerCase msg) "invalid order" = true ->
  ExchangeService.isNonRetryableError
    (new_Error ExchangeError (prefix +:+ msg)) = true.
Proof.
  intros H. unfold ExchangeService.isNonRetryableError. cbn [message new_Error].
  rewrite toLowerCase_app.
  destruct H as [H|H];
    rewrite (includes_app_r (JS.toLowerCase prefix) _ _ H);
    by rewrite ?orb_true_r.
Qed.

(** X4. An order the venue refuses as invalid is not retried: when the
    first answer of the venue is an error whose message contains, in any
    letter case, "invalid symbol" or "invalid order" (and neither
    "insufficient" nor "balance"), [ExchangeService.createOrder] throws an
    [ExchangeError] carrying that message after exactly one request and no
    delay. *)
Theorem createOrder_invalid_order_once (params : CreateOrderRequest)
    (name : string) (credentials : option Credentials) (w : World) (msg : string) :
  JS.toLowerCase name ∈ exchanges w ->
  credentials = None \/ ccxt w name = true ->
  venue w (venue_calls w) = VenueThrows msg ->
  JS.includes (JS.toLowerCase msg) "insufficient" = false ->
  JS.includes (JS.toLowerCase msg) "balance" = false ->
  JS.includes (JS.toLowerCase msg) "invalid symbol" = true
  \/ JS.includes (JS.toLowerCase msg) "invalid order" = true ->
  ExchangeService.createOrder params name credentials w
  = (Throw (new_Error ExchangeError ("订单创建失败: " +:+ msg)),
     advance 1 [EvVenue (order_call params)] w).
Proof.
  intros Hin Hc Hv H1 H2 H3.
  rewrite connector_createOrder, connector_reached by done.
  unfold ExchangeService.retryOperation.
  change (Z.to_nat ExchangeService.defaultMaxRetries) with 3%nat.
  rewrite <- (advance_nothing w) at 1.
  rewrite (retry_loop_last _ _ _ (createOrderOperation_venue_driven params)
             _ _ w 2 1 0 [] None _ eq_refl).
  - unfold answer, order_answer. rewrite Nat.add_0_r, Hv, H1, H2. done.
  - intros e He. left. unfold answer, order_answer in He.
    rewrite Nat.add_0_r, Hv, H1, H2 in He. injection He as <-.
    by apply wrapped_error_non_retryable.
Qed.

Lemma createOrder_invalid_order_once_witness :
  ExchangeService.createOrder Sample.buy_limit "binance" (Some root_credentials)
    (Sample.world [Sample.root] ∅ 0 (fun _ => VenueThrows "Invalid symbol BTC/USDT"))
  = (Throw (new_Error ExchangeError "订单创建失败: Invalid symbol BTC/USDT"),
     advance 1 [EvVenue (order_call Sample.buy_limit)]
             (Sample.world [Sample.root] ∅ 0
                           (fun _ => VenueThrows "Invalid symbol BTC/USDT"))).
Proof.
  apply createOrder_invalid_order_once.
  - apply (bool_decide_unpack _). vm_compute. exact I.
  - right. reflexivity.
  - reflexivity.
  - reflexivity.
  - reflexivity.
  - left. reflexivity.
Defined.

(** X5. Whatever the venue answers, an error thrown by
    [ExchangeService.createOrder] is an [InsufficientBalanceError] with the
    fixed message, or an [ExchangeError]: a bare error of the venue never
    reaches the caller (given that the connector class exists when
    credentials are passed). *)
Theorem createOrder_error_classes (params : CreateOrderRequest) (name : string)
    (credentials : option Credentials) (w : World) (e : Error) :
  credentials = None \/ ccxt w name = true ->
  fst (ExchangeService.createOrder params name credentials w) = Throw e ->
  (err_class e = InsufficientBalanceError /\ message e = "余额不足")
  \/ err_class e = ExchangeError.
Proof.
  intros Hc. rewrite connector_createOrder.
  destruct (decide (JS.toLowerCase name ∈ exchanges w)) as [Hin|Hin].
  - rewrite connector_reached by done.
    unfold ExchangeService.retryOperation.
    change (Z.to_nat ExchangeService.defaultMaxRetries) with 3%nat.
    destruct (retry_loop_run _ _ _ (createOrderOperation_venue_driven params)
                ExchangeService.defaultMaxRetries
                ExchangeService.defaultBaseDelay w 2 1 0 [] None eq_refl)
      as (j & _ & Hrun & _).
    rewrite advance_nothing in Hrun. rewrite Hrun.
    cbn [fst]. unfold answer, order_answer.
    destruct (venue w _) as [xo|msg]; [done|].
    destruct (_ || _); intros [= <-]; [left|right]; done.
  - rewrite connector_unsupported by done. intros [= <-]. by right.
Qed.

Lemma createOrder_error_classes_witness :
  (err_class (new_Error InsufficientBalanceError "余额不足") = InsufficientBalanceError
   /\ message (new_Error InsufficientBalanceError "余额不足") = "余额不足")
  \/ err_class (new_Error InsufficientBalanceError "余额不足") = ExchangeError.
Proof.
  apply (createOrder_error_classes Sample.buy_limit "binance"
           (Some root_credentials) broke_world).
  - right. reflexivity.
  - vm_compute. reflexivity.
Defined.

(** X6. A venue that is not configured is never contacted: for a name
    whose lower-case form is not a key of the connector table,
    [createOrder], [cancelOrder] and [fetchOrder] throw an [ExchangeError]
    and leave the world as it is: no request, no delay, also when
    credentials are passed. *)
Theorem unsupported_exchange_never_contacted (name : string)
    (credentials : option Credentials) (w : World) :
  JS.toLowerCase name ∉ exchanges w ->
  let refused :=
    (Throw (new_Error ExchangeError
              ("Exchange " +:+ name +:+ " not configured or supported")), w) in
  (forall params, ExchangeService.createOrder params name credentials w = refused)
  /\ (forall orderId sym,
        ExchangeService.cancelOrder orderId sym name credentials w = refused)
  /\ (forall orderId sym,
        ExchangeService.fetchOrder orderId sym name credentials w = refused).
Proof.
  intros Hin refused. repeat split; intros.
  - rewrite connector_createOrder. by apply connector_unsupported.
  - rewrite connector_cancelOrder. by apply connector_unsupported.
  - rewrite connector_fetchOrder. by apply connector_unsupported.
Qed.

Lemma unsupported_exchange_never_contacted_witness :
  let w := Sample.world [Sample.root] ∅ 0 Sample.accepts in
  let refused :=
    (Throw (new_Error ExchangeError
              "Exchange kraken not configured or supported"), w) in
  (forall params,
     ExchangeService.createOrder params "kraken" (Some root_credentials) w = refused)
  /\ (forall orderId sym,
        ExchangeService.cancelOrder orderId sym "kraken" (Some root_credentials) w
        = refused)
  /\ (forall orderId sym,
        ExchangeService.fetchOrder orderId sym "kraken" (Some root_credentials) w
        = refused).
Proof.
  apply (unsupported_exchange_never_contacted "kraken" (Some root_credentials)
           (Sample.world [Sample.root] ∅ 0 Sample.accepts)).
  apply (bool_decide_unpack _). vm_compute. exact I.
Defined.

(* ===================================================================== *)
(** ** Validation of a create request *)
(* ===================================================================== *)

Lemma string_falsy_empty s : string_falsy s = true <-> s = "".
Proof. by destruct s. Qed.

Lemma not_positive q : Q_falsy q || Qle_bool q 0%Q = false <-> (0 < q)%Q.
Proof.
  rewrite orb_false_iff. split.
  - intros [_ H]. apply Qnot_le_lt. intros Hle.
    apply Qle_bool_iff in Hle. congruence.
  - intros H. split.
    + unfold Q_falsy. destruct (Qeq_bool q 0) eqn:E; [|done].
      apply Qeq_bool_iff in E. rewrite E in H. by apply Qlt_irrefl in H.
    + destruct (Qle_bool q 0) eqn:E; [|done].
      apply Qle_bool_iff in E. by apply Qlt_not_le in H.
Qed.

(** The checks run: the request is acceptable and nothing happens, or it is
    not and a [ValidationError] is thrown, the world being left as it is. *)
Lemma validateOrderParams_run params w :
  (acceptable params w /\ OrderService.validateOrderParams params w = (Return tt, w))
  \/ (~ acceptable params w
      /\ exists msg,
           OrderService.validateOrderParams params w
           = (Throw (new_Error ValidationError msg), w)).
Proof.
  with_strategy transparent [OrderService.validateOrderParams]
    unfold OrderService.validateOrderParams.
  unfold acceptable.
  destruct (string_falsy (req_symbol params)) eqn:Hs.
  { right. split; [|by eexists]. apply string_falsy_empty in Hs. tauto. }
  destruct (Q_falsy (req_amount params) || Qle_bool (req_amount params) 0%Q) eqn:Ha.
  { right. split; [|by eexists]. intros (_ & H & _).
    apply not_positive in H. congruence. }
  destruct (match req_type params, req_price params with
            | limit_order, None => true
            | limit_order, Some p => Q_falsy p || Qle_bool p 0%Q
            | market_order, _ => false
            end) eqn:Hp.
  { right. split; [|by eexists]. intros (_ & _ & H & _).
    destruct (req_type params); [|done]. destruct H as (p & Hp1 & Hp2).
    rewrite Hp1 in Hp. apply not_positive in Hp2. congruence. }
  destruct (string_falsy (req_exchange params)) eqn:He.
  { right. split; [|by eexists]. apply string_falsy_empty in He. tauto. }
  unfold bind, ExchangeService.getSupportedExchanges, get_world, ret.
  simpl.
  destruct (decide (req_exchange params ∈ exchanges w)) as [Hin|Hin].
  - rewrite bool_decide_eq_true_2 by done. left. split; [|done].
    repeat split; try done.
    + intros H. apply string_falsy_empty in H. congruence.
    + by apply not_positive.
    + destruct (req_type params); [|done].
      destruct (req_price params) as [p|]; [|done]. exists p. split; [done|].
      by apply not_positive.
    + intros H. apply string_falsy_empty in H. congruence.
  - rewrite bool_decide_eq_false_2 by done.
    right. split; [|by eexists]. tauto.
Qed.


(** X8. A create request that fails validation has no effect at all:
    [OrderService.createOrder] throws a [ValidationError] and the world is
    unchanged: no statement is sent to the database, no row is inserted and
    the venue is not contacted. *)
Theorem createOrder_rejects_before_any_effect (request : CreateOrderRequest)
    (w : World) :
  ~ acceptable request w ->
  exists msg,
    OrderService.createOrder request w
    = (Throw (new_Error ValidationError msg), w).
Proof.
  intros Hno.
  destruct (validateOrderParams_run request w) as [[H _]|[_ (msg & Hrun)]];
    [done|].
  exists msg. unfold OrderService.createOrder, bind at 1. by rewrite Hrun.
Qed.

Lemma createOrder_rejects_before_any_effect_witness :
  exists msg,
    OrderService.createOrder
      (mkRequest 1 "binance" "BTC/USDT" buy limit_order 0%Q (Some 50000%Q))
      accepting_world
    = (Throw (new_Error ValidationError msg), accepting_world).
Proof.
  apply createOrder_rejects_before_any_effect.
  intros (_ & H & _). vm_compute in H. discriminate.
Defined.

(* ===================================================================== *)
(** ** The record store *)
(* ===================================================================== *)

(** X9. [Database.transaction] closes by the outcome of its callback: it
    sends BEGIN, runs the callback, sends COMMIT when the callback returned
    and ROLLBACK when it threw, releases the client last in both cases, and
    hands the callback's result or error on unchanged. *)
Theorem transaction_closes_by_outcome {A} (callback : Database.PoolClient -> M A)
    (w : World) :
  let r := callback Database.client (log_event (EvClient BEGIN) w) in
  Database.transaction callback w
  = (fst r, log_event EvRelease (log_event (EvClient (verdict (fst r))) (snd r))).
Proof.
  unfold Database.transaction, try_finally, try_catch, bind, emit, modify, ret,
    throw. simpl.
  by destruct (callback Database.client (log_event (EvClient BEGIN) w))
    as [[a|e] w1].
Qed.




(* ===================================================================== *)
(** ** Reading and refreshing an order *)
(* ===================================================================== *)

(** X11. The orders of another user cannot be seen: for a non-zero user
    and an order that belongs to someone else, [getOrder] and [cancelOrder]
    both throw [NotFoundError], and the only effect is the SELECT: the row
    is unchanged and the venue is not contacted. *)
Theorem foreign_order_not_found (orderId userId : Z) (w : World) (o : Order) :
  orders w !! orderId = Some o ->
  userId <> 0 ->
  order_user_id o <> userId ->
  let w1 := log_event (EvPool (SelectOrderById orderId (Some userId))) w in
  OrderService.getOrder orderId userId w
  = (Throw (new_Error NotFoundError "订单不存在"), w1)
  /\ OrderService.cancelOrder orderId userId w
     = (Throw (new_Error NotFoundError "订单不存在"), w1).
Proof.
  intros Hrow Hu Hne w1.
  assert (Hget : Database.getOrderById orderId (Some userId) w
                 = (Return None,
                    log_event (EvPool (SelectOrderById orderId (Some userId))) w)).
  { rewrite DatabaseRun.getOrderById, Hrow. simpl.
    unfold Rows.visible, Rows.owner_filter.
    replace (userId =? 0) with false by lia.
    by replace (order_user_id o =? userId) with false by lia. }
  unfold OrderService.getOrder, OrderService.cancelOrder, bind.
  by rewrite Hget.
Qed.

Lemma foreign_order_not_found_witness :
  let w1 := log_event (EvPool (SelectOrderById 7 (Some 2))) pending_world in
  OrderService.getOrder 7 2 pending_world
  = (Throw (new_Error NotFoundError "订单不存在"), w1)
  /\ OrderService.cancelOrder 7 2 pending_world
     = (Throw (new_Error NotFoundError "订单不存在"), w1).
Proof.
  apply (foreign_order_not_found 7 2 pending_world
           (Sample.row 7 1 (Some "X-9") pending)).
  - vm_compute. reflexivity.
  - lia.
  - simpl. lia.
Defined.

(** Any refresh: a returned row is the one now stored, a failure leaves the
    table as it was. *)
Lemma refresh_any orderId ownerId o xid w :
  orders w !! orderId = Some o ->
  wp (OrderService.refresh orderId ownerId o xid)
     (fun r w' =>
        match r with
        | Return row => orders w' = <[orderId := row]> (orders w)
        | Throw _ => orders w' = orders w
        end) w.
Proof.
  intros Hrow. unfold OrderService.refresh.
  do 2 wp_step.
  destruct (List.filter _ _) as [|user rest]; [done|].
  wp_step. apply wp_intro. rewrite getUserExchangeCredentials_world.
  destruct (fst (OrderService.getUserExchangeCredentials _ _ _)) as [credentials|e];
    [|done].
  wp_step.
  eapply (wp_remote _ _ w); [apply remote_fetchOrder | by repeat split |].
  intros evs Hevs.
  destruct (fst (ExchangeService.fetchOrder _ _ _ _ w)) as [xo|e]; [|done].
  wp_step. eapply wp_run.
  { apply DatabaseRun.updateOrderStatus_found. exact Hrow. }
  cbv beta iota. by wp_step.
Qed.

(** A refresh whose user and credentials are found: the outcome follows the
    answer of the connector. *)
Lemma refresh_found orderId ownerId o xid w w1 credentials :
  orders w1 !! orderId = Some o ->
  users w1 = users w -> decrypt w1 = decrypt w -> same_remote w1 w ->
  credentials_found ownerId (exchange o) w credentials ->
  wp (OrderService.refresh orderId ownerId o xid)
     (fun r w' =>
        match fst (ExchangeService.fetchOrder xid (symbol o) (exchange o)
                                              (Some credentials) w) with
        | Return xo =>
            r = Return (refreshed o xo)
            /\ orders w' = <[orderId := refreshed o xo]> (orders w1)
        | Throw e => r = Throw e /\ orders w' = orders w1
        end) w1.
Proof.
  intros Hrow Hu Hd Hsame (user & Huser & Hcreds).
  rewrite getUserById_run in Huser. simpl in Huser.
  unfold OrderService.refresh.
  do 2 wp_step. rewrite Hu, Huser.
  wp_step. wp_check (Return credentials) Hcreds.
  wp_step.
  eapply (wp_remote _ _ w); [apply remote_fetchOrder | done |].
  intros evs Hevs.
  destruct (fst (ExchangeService.fetchOrder _ _ _ _ w)) as [xo|e]; [|done].
  wp_step. eapply wp_run.
  { apply DatabaseRun.updateOrderStatus_found. exact Hrow. }
  cbv beta iota. by wp_step.
Qed.

Lemma getOrderById_visible orderId userId w o :
  orders w !! orderId = Some o ->
  userId = 0 \/ order_user_id o = userId ->
  Database.getOrderById orderId (Some userId) w
  = (Return (Some o),
     log_event (EvPool (SelectOrderById orderId
                          (Rows.owner_filter (Some userId)))) w).
Proof.
  intros Hrow Hown. rewrite DatabaseRun.getOrderById, Hrow. simpl.
  unfold Rows.visible, Rows.owner_filter.
  destruct (userId =? 0) eqn:E0; [done|].
  destruct Hown as [->| ->]; [done|]. by rewrite Z.eqb_refl.
Qed.

(** X12. [getOrder] never fails on an order the caller may see (his own,
    or any order when the user id is 0, for which the owner filter is
    dropped): whatever the user lookup, the credentials or the venue do, it
    returns a row, that row is the one stored under the key afterwards, and
    no other row is touched. *)
Theorem getOrder_returns_stored_row (orderId userId : Z) (w : World) (o : Order) :
  orders w !! orderId = Some o ->
  userId = 0 \/ order_user_id o = userId ->
  exists row,
    fst (OrderService.getOrder orderId userId w) = Return row
    /\ orders (snd (OrderService.getOrder orderId userId w)) !! orderId = Some row
    /\ (forall k, k <> orderId ->
          orders (snd (OrderService.getOrder orderId userId w)) !! k
          = orders w !! k).
Proof.
  intros Hrow Hown.
  apply (wp_elim (OrderService.getOrder orderId userId)
           (fun r w' =>
              exists row,
                r = Return row /\ orders w' !! orderId = Some row
                /\ (forall k, k <> orderId -> orders w' !! k = orders w !! k))).
  unfold OrderService.getOrder.
  wp_step. eapply wp_run; [by apply getOrderById_visible|]. cbv beta iota.
  destruct (bool_decide (status o = pending)); [|wp_step; by exists o].
  destruct (OrderService.truthy_id (exchange_order_id o)) as [xid|];
    [|wp_step; by exists o].
  wp_step. apply wp_intro.
  set (w1 := log_event _ w).
  pose proof (refresh_any orderId userId o xid w1 Hrow) as Hrun.
  apply wp_elim in Hrun.
  destruct (OrderService.refresh orderId userId o xid w1) as [[row|e] w2];
    simpl in *.
  - exists row. rewrite Hrun. split; [done|]. split; [apply lookup_insert_eq|].
    intros k Hk. by rewrite lookup_insert_ne.
  - apply wp_ret. exists o. rewrite Hrun. by repeat split.
Qed.

Lemma getOrder_returns_stored_row_witness :
  exists row,
    fst (OrderService.getOrder 7 1 pending_world) = Return row
    /\ orders (snd (OrderService.getOrder 7 1 pending_world)) !! 7 = Some row
    /\ (forall k, k <> 7 ->
          orders (snd (OrderService.getOrder 7 1 pending_world)) !! k
          = orders pending_world !! k).
Proof.
  apply (getOrder_returns_stored_row 7 1 pending_world
           (Sample.row 7 1 (Some "X-9") pending)).
  - vm_compute. reflexivity.
  - right. reflexivity.
Defined.

Section Refresh.

Context (orderId : Z) (w : World) (o : Order) (xid : string)
        (credentials : Credentials).
Hypothesis Hrow : orders w !! orderId = Some o.
Hypothesis Hxid : OrderService.truthy_id (exchange_order_id o) = Some xid.
Hypothesis Hcreds : credentials_found (order_user_id o) (exchange o) w credentials.

Let x := fst (ExchangeService.fetchOrder xid (symbol o) (exchange o)
                                         (Some credentials) w).

Lemma getOrder_refresh :
  status o = pending ->
  wp (OrderService.getOrder orderId (order_user_id o))
     (fun r w' =>
        refresh_post orderId w o x r w'
        /\ match x with Return _ => True | Throw _ => r = Return o end) w.
Proof.
  intros Hpending. unfold OrderService.getOrder.
  wp_step. eapply wp_run; [apply getOrderById_visible; eauto|]. cbv beta iota.
  rewrite Hxid, bool_decide_eq_true_2 by done.
  wp_step. apply wp_intro.
  pose proof (refresh_found orderId (order_user_id o) o xid w
                (log_event (EvPool (SelectOrderById orderId
                   (Rows.owner_filter (Some (order_user_id o))))) w)
                credentials Hrow eq_refl eq_refl
                ltac:(by repeat split) Hcreds) as Hrun.
  apply wp_elim in Hrun. unfold refresh_post. fold x in Hrun.
  destruct x as [xo|e]; destruct Hrun as [-> Ho]; simpl; [done|].
  by apply wp_ret.
Qed.

Lemma syncOrderStatus_refresh :
  status o <> filled -> status o <> canceled ->
  wp (OrderService.syncOrderStatus orderId)
     (fun r w' =>
        refresh_post orderId w o x r w'
        /\ match x with Return _ => True | Throw e => r = Throw e end) w.
Proof.
  intros Hf Hc. unfold OrderService.syncOrderStatus.
  wp_step. wp_step. rewrite Hrow. simpl. rewrite Hxid.
  rewrite !bool_decide_eq_false_2 by done. simpl.
  wp_step. apply wp_intro.
  pose proof (refresh_found orderId (order_user_id o) o xid w
                (log_event (EvPool (SelectOrderById orderId None)) w)
                credentials Hrow eq_refl eq_refl
                ltac:(by repeat split) Hcreds) as Hrun.
  apply wp_elim in Hrun. unfold refresh_post. fold x in Hrun.
  destruct x as [xo|e]; destruct Hrun as [-> Ho]; simpl; [done|].
  by split.
Qed.

End Refresh.



(** X14. A failed refresh is swallowed by a read and rethrown by a
    synchronisation. For a pending order known to the venue whose owner's
    credentials are found, when the fetch at the venue fails, [getOrder]
    returns the stored row as it was, [syncOrderStatus] throws the error of
    the connector as it is, and both leave the table unchanged. *)
Theorem refresh_failure_swallowed_or_rethrown (orderId : Z) (w : World)
    (o : Order) (xid : string) (credentials : Credentials) (e : Error) :
  orders w !! orderId = Some o ->
  status o = pending ->
  OrderService.truthy_id (exchange_order_id o) = Some xid ->
  credentials_found (order_user_id o) (exchange o) w credentials ->
  fst (ExchangeService.fetchOrder xid (symbol o) (exchange o)
                                  (Some credentials) w) = Throw e ->
  let read := OrderService.getOrder orderId (order_user_id o) w in
  let sync := OrderService.syncOrderStatus orderId w in
  fst read = Return o
  /\ fst sync = Throw e
  /\ orders (snd read) = orders w
  /\ orders (snd sync) = orders w.
Proof.
  intros Hrow Hpending Hxid Hcreds Hx read sync.
  pose proof (getOrder_refresh orderId w o xid credentials Hrow Hxid Hcreds
                Hpending) as Hread.
  pose proof (syncOrderStatus_refresh orderId w o xid credentials Hrow Hxid
                Hcreds ltac:(congruence) ltac:(congruence)) as Hsync.
  apply wp_elim in Hread, Hsync. unfold refresh_post in *.
  rewrite Hx in Hread, Hsync.
  destruct Hread as [? ?], Hsync as [? ?]. by repeat split.
Qed.

Lemma refresh_failure_swallowed_or_rethrown_witness :
  let o := Sample.row 7 1 (Some "X-9") pending in
  let read := OrderService.getOrder 7 1 pending_world in
  let sync := OrderService.syncOrderStatus 7 pending_world in
  fst read = Return o
  /\ fst sync = Throw (new_Error PlainError "Network timeout")
  /\ orders (snd read) = orders pending_world
  /\ orders (snd sync) = orders pending_world.
Proof.
  apply (refresh_failure_swallowed_or_rethrown 7 pending_world
           (Sample.row 7 1 (Some "X-9") pending) "X-9" root_credentials
           (new_Error PlainError "Network timeout")).
  - vm_compute. reflexivity.
  - reflexivity.
  - reflexivity.
  - exists Sample.root. split; vm_compute; reflexivity.
  - vm_compute. reflexivity.
Defined.



(* ===================================================================== *)
(** ** Authentication *)
(* ===================================================================== *)

Lemma getUserByApiKey_run apiKey w :
  AuthService.getUserByApiKey apiKey w
  = if redis_up w then
      match user_cache w !! CacheService.getUserKey apiKey with
      | Some cached => (Return (Some cached), w)
      | None =>
          let w1 := log_event (EvPool (SelectUserByApiKey apiKey)) w in
          match active_row apiKey w with
          | Some u =>
              (Return (Some u),
               set_user_cache (<[CacheService.getUserKey apiKey := u]> (user_cache w)) w1)
          | None => (Return None, w1)
          end
      end
    else (Throw (new_Error CacheError
                   ("Failed to get cache key: " +:+ CacheService.getUserKey apiKey)), w).
Proof.
  unfold AuthService.getUserByApiKey, bind at 1, CacheService.get,
    CacheService.command.
  destruct (redis_up w) eqn:Hup; [|done].
  destruct (user_cache w !! _) as [cached|]; [done|].
  unfold bind at 1. rewrite DatabaseRun.getUserByApiKey. fold (active_row apiKey w).
  destruct (active_row apiKey w) as [u|]; [|done].
  unfold bind, CacheService.set, CacheService.command. simpl. by rewrite Hup.
Qed.

Lemma getUserByApiKey_footprint apiKey w :
  same_but_user_cache w (snd (AuthService.getUserByApiKey apiKey w)).
Proof.
  rewrite getUserByApiKey_run.
  destruct (redis_up w); [|by repeat split].
  destruct (user_cache w !! _); [by repeat split|].
  simpl. destruct (active_row apiKey w); by repeat split.
Qed.

Lemma authenticateRequest_run request w apiKey timestamp signature requestTime :
  AuthService.header (x_api_key request) = Some apiKey ->
  AuthService.header (x_timestamp request) = Some timestamp ->
  AuthService.header (x_signature request) = Some signature ->
  JS.parseInt timestamp = Some requestTime ->
  Z.abs (now w - requestTime) <= AuthService.TIME_WINDOW ->
  AuthService.authenticateRequest request w
  = let '(r, w1) := AuthService.getUserByApiKey apiKey w in
    (match r with
     | Return None => Throw (new_Error AuthenticationError "无效的API密钥")
     | Return (Some user) =>
         if negb (bool_decide (user_status user = active))
         then Throw (new_Error AuthenticationError "用户账户已被禁用")
         else if String.eqb (expected_signature request timestamp user w) signature
              then Return (mkAuth (user_id user) user (permissions user))
              else Throw (new_Error AuthenticationError "签名验证失败")
     | Throw e => Throw e
     end, w1).
Proof.
  intros Hk Ht Hs Hp Hw. unfold AuthService.authenticateRequest.
  rewrite Hk, Ht, Hs. unfold bind at 1, get_world. rewrite Hp.
  replace (Z.abs (now w - requestTime) >? AuthService.TIME_WINDOW) with false by lia.
  unfold bind at 1.
  pose proof (getUserByApiKey_footprint apiKey w) as Hfoot.
  destruct (AuthService.getUserByApiKey apiKey w) as [[[user|]|e] w1]; try done.
  destruct (negb _); [done|].
  unfold bind, AuthService.verifySignature, get_world, ret, expected_signature,
    AuthService.generateSignature.
  destruct Hfoot as (_ & _ & _ & _ & _ & _ & _ & _ & _ & _ & Hh & _).
  simpl in Hh. unfold bind. cbv beta iota. rewrite Hh. by destruct (String.eqb _ _).
Qed.



(** X17. The envelope is checked before any store is read. A request
    with a missing or empty header, a timestamp that is not a number, or a
    timestamp more than five minutes from the clock in either direction is
    refused with an [AuthenticationError] and the world is unchanged (no
    cache read, no database query); [authMiddleware] answers 401 with the
    code of that error and attaches no identity. *)
Theorem authenticateRequest_checks_envelope_first (request : Request) (w : World) :
  ~ well_timed request w ->
  exists msg,
    AuthService.authenticateRequest request w
    = (Throw (new_Error AuthenticationError msg), w)
    /\ forall reply,
         Middleware.authMiddleware request reply w
         = (Return (request,
                    reply_send (mkBody (Some "AUTHENTICATION_ERROR") msg None)
                               (reply_set_status 401 reply)), w).
Proof.
  intros Hno.
  assert (Hthrow : exists msg,
             AuthService.authenticateRequest request w
             = (Throw (new_Error AuthenticationError msg), w)).
  { unfold AuthService.authenticateRequest.
    destruct (AuthService.header (x_api_key request)) as [apiKey|] eqn:Hk;
      [|by eexists].
    destruct (AuthService.header (x_timestamp request)) as [timestamp|] eqn:Ht;
      [|by eexists].
    destruct (AuthService.header (x_signature request)) as [signature|] eqn:Hs;
      [|by eexists].
    unfold bind, get_world.
    destruct (JS.parseInt timestamp) as [requestTime|] eqn:Hp; [|by eexists].
    destruct (Z.abs (now w - requestTime) >? AuthService.TIME_WINDOW) eqn:Hw;
      [by eexists|].
    destruct Hno. exists apiKey, timestamp, signature, requestTime.
    repeat split; try done. lia. }
  destruct Hthrow as (msg & Hrun). exists msg. split; [done|].
  intros reply. unfold Middleware.authMiddleware, try_catch, bind.
  by rewrite Hrun.
Qed.

Lemma authenticateRequest_checks_envelope_first_witness :
  exists msg,
    AuthService.authenticateRequest late_request accepting_world
    = (Throw (new_Error AuthenticationError msg), accepting_world)
    /\ forall reply,
         Middleware.authMiddleware late_request reply accepting_world
         = (Return (late_request,
                    reply_send (mkBody (Some "AUTHENTICATION_ERROR") msg None)
                               (reply_set_status 401 reply)), accepting_world).
Proof.
  apply authenticateRequest_checks_envelope_first.
  intros (apiKey & timestamp & signature & requestTime & _ & Ht & _ & Hp & Hw).
  vm_compute in Ht. injection Ht as <-.
  vm_compute in Hp. injection Hp as <-.
  vm_compute in Hw. by apply Hw.
Defined.

(** X18. Authentication fails closed when the cache cannot be reached:
    a well-formed, well-timed request is refused with a [CacheError]
    without any fallback to the database, and [authMiddleware] answers 500
    with the generic message and attaches no identity. *)
Theorem authentication_fails_closed_without_cache (request : Request) (w : World) :
  well_timed request w ->
  redis_up w = false ->
  exists msg,
    AuthService.authenticateRequest request w
    = (Throw (new_Error CacheError msg), w)
    /\ forall reply,
         Middleware.authMiddleware request reply w
         = (Return (request,
                    reply_send (mkBody (Some "INTERNAL_ERROR") "服务器内部错误" None)
                               (reply_set_status 500 reply)), w).
Proof.
  intros (apiKey & timestamp & signature & requestTime & Hk & Ht & Hs & Hp & Hw) Hup.
  eexists. split.
  - rewrite (authenticateRequest_run _ _ _ _ _ _ Hk Ht Hs Hp Hw).
    rewrite getUserByApiKey_run, Hup. reflexivity.
  - intros reply. unfold Middleware.authMiddleware, try_catch, bind.
    rewrite (authenticateRequest_run _ _ _ _ _ _ Hk Ht Hs Hp Hw).
    by rewrite getUserByApiKey_run, Hup.
Qed.

Lemma authentication_fails_closed_without_cache_witness :
  exists msg,
    AuthService.authenticateRequest bob_request cache_down_world
    = (Throw (new_Error CacheError msg), cache_down_world)
    /\ forall reply,
         Middleware.authMiddleware bob_request reply cache_down_world
         = (Return (bob_request,
                    reply_send (mkBody (Some "INTERNAL_ERROR") "服务器内部错误" None)
                               (reply_set_status 500 reply)), cache_down_world).
Proof.
  apply authentication_fails_closed_without_cache.
  - eexists "bob-key", "1700000000000", _, 1700000000000.
    repeat split; try reflexivity. vm_compute. discriminate.
  - reflexivity.
Defined.

Ltac unchanged_cache' := simpl; cbv beta; split; [auto | intros ? ? ?; by left].
Ltac unchanged_cache := simpl; split; [by repeat split | unchanged_cache'].

(** X19. What authentication can change. [authenticateRequest] leaves the
    tables, the counters and everything else but the user cache and the
    trace as they were; it never overwrites or removes a cache entry; and
    the only entry it can add is the active database row of the presented
    key, under that key. *)
Theorem authenticateRequest_footprint (request : Request) (w : World) :
  let w' := snd (AuthService.authenticateRequest request w) in
  same_but_user_cache w w'
  /\ (forall k u, user_cache w !! k = Some u -> user_cache w' !! k = Some u)
  /\ (forall k u,
        user_cache w' !! k = Some u ->
        user_cache w !! k = Some u
        \/ exists apiKey,
             AuthService.header (x_api_key request) = Some apiKey
             /\ k = CacheService.getUserKey apiKey
             /\ user_cache w !! k = None
             /\ active_row apiKey w = Some u).
Proof.
  intros w'.
  pattern w'.
  match goal with |- ?Q w' => set (P := Q) end.
  subst w'. unfold AuthService.authenticateRequest.
  destruct (AuthService.header (x_api_key request)) as [apiKey|] eqn:Hk;
    [|subst P; unchanged_cache].
  destruct (AuthService.header (x_timestamp request)) as [timestamp|];
    [|subst P; unchanged_cache].
  destruct (AuthService.header (x_signature request)) as [signature|];
    [|subst P; unchanged_cache].
  unfold bind at 1, get_world.
  destruct (JS.parseInt timestamp) as [requestTime|]; [|subst P; unchanged_cache].
  destruct (Z.abs (now w - requestTime) >? AuthService.TIME_WINDOW);
    [subst P; unchanged_cache|].
  unfold bind at 1.
  assert (Hlookup : P (snd (AuthService.getUserByApiKey apiKey w))).
  { subst P. cbv beta. split; [apply getUserByApiKey_footprint|].
    rewrite getUserByApiKey_run.
    destruct (redis_up w); [|unchanged_cache'].
    destruct (user_cache w !! CacheService.getUserKey apiKey) as [cached|] eqn:Hc;
      [unchanged_cache'|].
    simpl. destruct (active_row apiKey w) as [u0|] eqn:Hrow; [|unchanged_cache'].
    simpl. split.
    - intros k u Hku. rewrite lookup_insert_ne; [done|]. congruence.
    - intros k u. destruct (decide (k = CacheService.getUserKey apiKey)) as [->|Hne].
      + rewrite lookup_insert_eq. intros [= <-]. right. by exists apiKey.
      + rewrite lookup_insert_ne by done. by left. }
  destruct (AuthService.getUserByApiKey apiKey w) as [[[user|]|e] w1];
    simpl in Hlookup; try exact Hlookup.
  destruct (negb _); [exact Hlookup|].
  unfold bind, AuthService.verifySignature, get_world, ret. simpl.
  by destruct (negb _).
Qed.

(** X20. Identities are served from the cache. After a lookup that found
    an identity, the cache holds it under the key; and any lookup of that
    key in a world whose cache holds it returns that identity and leaves the
    world unchanged: no query is sent, whatever the users table says by
    then. *)
Theorem getUserByApiKey_served_from_cache (apiKey : string) (w : World)
    (user : User) :
  fst (AuthService.getUserByApiKey apiKey w) = Return (Some user) ->
  let w1 := snd (AuthService.getUserByApiKey apiKey w) in
  user_cache w1 !! CacheService.getUserKey apiKey = Some user
  /\ forall w2,
       redis_up w2 = true ->
       user_cache w2 !! CacheService.getUserKey apiKey = Some user ->
       AuthService.getUserByApiKey apiKey w2 = (Return (Some user), w2).
Proof.
  intros Hfound w1. split.
  - subst w1. rewrite getUserByApiKey_run in *.
    destruct (redis_up w); [|done].
    destruct (user_cache w !! _) as [cached|] eqn:Hc; [simpl in *; congruence|].
    simpl in *. destruct (active_row apiKey w); simpl in *; [|done].
    injection Hfound as ->. apply lookup_insert_eq.
  - intros w2 Hup Hhit. by rewrite getUserByApiKey_run, Hup, Hhit.
Qed.

Lemma getUserByApiKey_served_from_cache_witness :
  let w1 := snd (AuthService.getUserByApiKey "bob-key" accepting_world) in
  user_cache w1 !! CacheService.getUserKey "bob-key" = Some Sample.bob
  /\ forall w2,
       redis_up w2 = true ->
       user_cache w2 !! CacheService.getUserKey "bob-key" = Some Sample.bob ->
       AuthService.getUserByApiKey "bob-key" w2 = (Return (Some Sample.bob), w2).
Proof.
  apply (getUserByApiKey_served_from_cache "bob-key" accepting_world Sample.bob).
  vm_compute. reflexivity.
Defined.

(** X21. [requirePermission] lets a request pass exactly when it carries
    an identity that has the permission or "admin"; a request without
    identity gets an [AuthenticationError], one without the permission an
    [AuthorizationError]; the world is unchanged in every case. *)
Theorem requirePermission_passes_iff (permission : string) (request : Request)
    (w : World) :
  let r := Middleware.requirePermission permission request w in
  snd r = w
  /\ (fst r = Return tt
      <-> exists a, auth request = Some a
                    /\ (permission ∈ auth_permissions a
                        \/ "admin" ∈ auth_permissions a))
  /\ (forall e, fst r = Throw e ->
        err_class e = match auth request with
                      | Some _ => AuthorizationError
                      | None => AuthenticationError
                      end).
Proof.
  unfold Middleware.requirePermission, AuthService.checkPermission.
  destruct (auth request) as [a|]; simpl.
  - destruct (bool_decide (permission ∈ auth_permissions a)) eqn:H1;
      [|destruct (bool_decide ("admin" ∈ auth_permissions a)) eqn:H2]; simpl.
    + apply bool_decide_eq_true in H1. split; [done|]. split; [|done].
      split; [|done]. intros _. exists a. by split; [|left].
    + apply bool_decide_eq_true in H2. split; [done|]. split; [|done].
      split; [|done]. intros _. exists a. by split; [|right].
    + apply bool_decide_eq_false in H1, H2. split; [done|]. split.
      * split; [done|]. intros (a' & [= <-] & [?|?]); done.
      * by intros e [= <-].
  - split; [done|]. split.
    + split; [done|]. by intros (a' & ? & _).
    + by intros e [= <-].
Qed.

(* ===================================================================== *)
(** ** Rate limiting *)
(* ===================================================================== *)

Lemma checkLimit_run identifier endpoint config type w :
  let key := counter_key type identifier endpoint in
  let c := incremented (counters w !! key)
             (RateLimitService.ceil_seconds (windowMs config)) in
  let w' := set_counters (<[key := c]> (counters w)) w in
  RateLimitService.checkLimit identifier endpoint config type w
  = if redis_up w then
      if count c >? maxRequests config
      then (Throw (mkError RateLimitError "请求频率超限"
                     (Some (mkDetails (maxRequests config) (count c)
                                      (Z.max 1 (default (-1) (expiry c)))))), w')
      else (Return (mkInfo (maxRequests config)
                           (Z.max 0 (maxRequests config - count c))
                           (now w + windowMs config) None), w')
    else (Return (unlimited config w), w).
Proof.
  intros key c w'. subst c w'.
  unfold RateLimitService.checkLimit.
  fold (counter_key type identifier endpoint). fold key.
  unfold try_catch, bind, CacheService.increment, CacheService.ttl,
    CacheService.command, get_world, incremented, counted.
  destruct (redis_up w) eqn:Hup; [|done]. simpl.
  destruct (counters w !! key) as [old|]; simpl;
    destruct (_ >? maxRequests config); simpl; rewrite ?Hup; simpl;
    by rewrite ?lookup_insert_eq.
Qed.

Lemma getConfig_run endpoint w :
  RateLimitService.getConfig endpoint w = (Return (config_of endpoint w), w).
Proof.
  unfold RateLimitService.getConfig, config_of, bind, get_world.
  by destruct (RateLimitService.lookup_exact _ _).
Qed.

Lemma checkLimit_throws identifier endpoint config type w e :
  fst (RateLimitService.checkLimit identifier endpoint config type w) = Throw e ->
  exists d,
    e = mkError RateLimitError "请求频率超限" (Some d)
    /\ 1 <= details_retryAfter d
    /\ details_limit d < details_current d.
Proof.
  rewrite checkLimit_run. cbv zeta.
  destruct (redis_up w); [|done].
  destruct (_ >? _) eqn:Hgt; [|done]. cbn [fst]. intros [= <-].
  eexists. split; [reflexivity|].
  cbn [details_retryAfter details_limit details_current].
  unfold incremented in Hgt. cbn [count] in Hgt.
  split; [apply Z.le_max_l | lia].
Qed.

(** X22. The rate limiter fails open: when Redis cannot be reached,
    [checkRateLimit] admits the request, authenticated or not, reports the
    whole limit as remaining, and leaves the world unchanged. *)
Theorem checkRateLimit_fails_open (request : Request) (w : World) :
  redis_up w = false ->
  exists info,
    RateLimitService.checkRateLimit request w = (Return info, w)
    /\ remaining info = limit info
    /\ retryAfter info = None.
Proof.
  intros Hup.
  unfold RateLimitService.checkRateLimit. unfold bind at 1.
  rewrite getConfig_run.
  set (config := config_of _ w).
  destruct (auth request) as [a|]; unfold bind at 1;
    rewrite checkLimit_run; cbv zeta; rewrite Hup; simpl.
  - by eexists.
  - unfold bind. rewrite checkLimit_run; cbv zeta; rewrite Hup; simpl.
    destruct (_ <? _); by eexists.
Qed.

Lemma checkRateLimit_fails_open_witness :
  exists info,
    RateLimitService.checkRateLimit (ticker_request "10.0.0.1") cache_down_world
    = (Return info, cache_down_world)
    /\ remaining info = limit info
    /\ retryAfter info = None.
Proof. apply checkRateLimit_fails_open. reflexivity. Defined.


Lemma pretty_N_char_digit x :
  (x < 10)%N ->
  RateLimitService.is_digit (pretty_N_char x) = true
  /\ JS.digit_value 10 (pretty_N_char x) = Some (Z.of_N x).
Proof.
  intros Hx. rewrite <- (N2Nat.id x).
  assert (Hn : (N.to_nat x < 10)%nat) by lia.
  generalize dependent (N.to_nat x). clear. intros n Hn.
  do 10 (destruct n as [|n]; [by vm_compute|]). lia.
Qed.

Lemma pretty_N_go_digits x :
  forall s,
    all_digits (pretty_N_go x s) = all_digits s
    /\ ((0 < x)%N ->
        pretty_N_go x s <> ""
        /\ JS.digits 10 (pretty_N_go x s) None = JS.digits 10 s (Some (Z.of_N x))).
Proof.
  induction (N.lt_wf_0 x) as [x _ IH]; intros s.
  destruct (decide (x = 0)%N) as [->|Hx].
  - rewrite pretty_N_go_0. split; [done|lia].
  - rewrite pretty_N_go_step by lia.
    destruct (pretty_N_char_digit (x `mod` 10)%N) as [Hd Hv];
      [apply N.mod_lt; lia|].
    destruct (IH (x `div` 10)%N ltac:(apply N.div_lt; lia)
                 (String (pretty_N_char (x `mod` 10)) s)) as [Hall Hpos].
    split; [rewrite Hall; simpl; by rewrite Hd|].
    intros _.
    pose proof (N.div_mod x 10 ltac:(lia)) as Hdm.
    destruct (decide (x `div` 10 = 0)%N) as [H0|H0].
    + rewrite H0, pretty_N_go_0. split; [done|]. simpl. rewrite Hv.
      do 2 f_equal. rewrite H0 in Hdm. clear -Hdm.
      set (m := (x `mod` 10)%N) in *. clearbody m. lia.
    + destruct Hpos as [Hne ->]; [by apply N.neq_0_lt_0|]. split; [done|]. simpl. rewrite Hv.
      do 2 f_equal. clear -Hdm.
      set (m := (x `mod` 10)%N) in *. set (d := (x `div` 10)%N) in *.
      clearbody m d. lia.
Qed.

Lemma is_digit_cases c :
  RateLimitService.is_digit c = true ->
  c ∈ ["0"; "1"; "2"; "3"; "4"; "5"; "6"; "7"; "8"; "9"]%char.
Proof.
  intros Hc.
  destruct c as [[] [] [] [] [] [] [] []]; try discriminate Hc;
    apply (bool_decide_unpack _); vm_compute; exact I.
Qed.

Ltac digit_cases H :=
  apply is_digit_cases in H;
  repeat (apply elem_of_cons in H as [->|H]);
  try (by apply elem_of_nil in H).

Lemma parseInt_digits t :
  all_digits t = true -> t <> "" -> JS.parseInt t = JS.digits 10 t None.
Proof.
  intros Hall Hne. destruct t as [|c r]; [done|]. simpl in Hall.
  apply andb_prop in Hall as [Hc Hr].
  assert (Hid : forall o : option Z, Z.mul 1 <$> o = o).
  { intros [z|]; [|done]. simpl. f_equal. lia. }
  destruct r as [|c2 r].
  - digit_cases Hc; unfold JS.parseInt; cbn -[JS.digits Z.mul fmap]; apply Hid.
  - simpl in Hr. apply andb_prop in Hr as [Hc2 Hr].
    digit_cases Hc; digit_cases Hc2;
      unfold JS.parseInt; cbn -[JS.digits Z.mul fmap]; apply Hid.
Qed.

Lemma parseInt_show (n : Z) : JS.parseInt (JS.show n) = Some n.
Proof.
  unfold JS.show, pretty, pretty_Z.
  destruct n as [|p|p]; [done| |];
    change (pretty p) with (pretty_N_go (N.pos p) "");
    destruct (pretty_N_go_digits (N.pos p) "") as [Hall [Hne Hval]]; try lia.
  - rewrite parseInt_digits by done. by rewrite Hval.
  - destruct (pretty_N_go (N.pos p) "") as [|c r] eqn:E; [done|].
    simpl in Hall. apply andb_prop in Hall as [Hc Hr].
    assert (Hskip : JS.parseInt ("-" +:+ String c r)
                    = Z.mul (-1) <$> JS.digits 10 (String c r) None).
    { destruct r as [|c2 r].
      - by digit_cases Hc.
      - simpl in Hr. apply andb_prop in Hr as [Hc2 _].
        by digit_cases Hc; digit_cases Hc2. }
    rewrite Hskip, Hval. simpl. f_equal.
Qed.

Lemma all_digits_no_colon s : all_digits s = true -> no_colon s = true.
Proof.
  induction s as [|c s IH]; [done|]. simpl.
  intros [Hc Hs]%andb_prop. rewrite IH by done.
  by digit_cases Hc.
Qed.

(** An integer in a template literal: an optional minus sign, then digits. *)
Lemma show_shape (n : Z) :
  exists c r,
    JS.show n = String c r
    /\ (RateLimitService.is_digit c = true \/ c = "-"%char)
    /\ no_colon (JS.show n) = true.
Proof.
  unfold JS.show, pretty, pretty_Z. destruct n as [|p|p].
  - exists "0"%char, "". by split; [|split; [left|]].
  - change (pretty p) with (pretty_N_go (N.pos p) "").
    destruct (pretty_N_go_digits (N.pos p) "") as [Hall [Hne _]]; [lia|].
    destruct (pretty_N_go (N.pos p) "") as [|c r] eqn:E; [done|].
    exists c, r. split; [done|]. split.
    + left. simpl in Hall. by apply andb_prop in Hall as [-> _].
    + by apply all_digits_no_colon.
  - change (pretty p) with (pretty_N_go (N.pos p) "").
    destruct (pretty_N_go_digits (N.pos p) "") as [Hall _].
    exists "-"%char, (pretty_N_go (N.pos p) ""). split; [done|].
    split; [by right|]. simpl. by apply all_digits_no_colon.
Qed.

Lemma split_at_colon s1 s2 t1 t2 :
  no_colon s1 = true -> no_colon s2 = true ->
  s1 +:+ ":" +:+ t1 = s2 +:+ ":" +:+ t2 -> s1 = s2 /\ t1 = t2.
Proof.
  revert s2. induction s1 as [|c s1 IH]; intros [|c2 s2]; simpl.
  - intros _ _ H. by simplify_eq/=.
  - intros _ [Hc _]%andb_prop H. by simplify_eq/=.
  - intros [Hc _]%andb_prop _ H. by simplify_eq/=.
  - intros [_ H1]%andb_prop [_ H2]%andb_prop H. injection H as -> Heq.
    destruct (IH s2 H1 H2 Heq) as [-> ->]. done.
Qed.

Lemma getRateLimitKey_of_user (userId : Z) (endpoint : string) :
  RateLimitService.getRateLimitKey (JS.show userId) endpoint
  = CacheService.getRateLimitKey userId endpoint.
Proof. unfold RateLimitService.getRateLimitKey. by rewrite parseInt_show. Qed.

(** X23. Authenticated callers never share a counter: the identifier
    [userId.toString()] is read back by [parseInt] as the same number, so
    the keys of two different user ids, or of two different endpoints, are
    different. *)
Theorem user_counters_are_separate (a b : Z) (endpoint1 endpoint2 : string) :
  a <> b \/ endpoint1 <> endpoint2 ->
  RateLimitService.getRateLimitKey (JS.show a) endpoint1
  <> RateLimitService.getRateLimitKey (JS.show b) endpoint2.
Proof.
  intros Hne Heq. rewrite !getRateLimitKey_of_user in Heq.
  unfold CacheService.getRateLimitKey in Heq.
  apply (inj (String.app "ratelimit:")) in Heq.
  destruct (show_shape a) as (_ & _ & _ & _ & Ha).
  destruct (show_shape b) as (_ & _ & _ & _ & Hb).
  apply split_at_colon in Heq as [Hab ->]; [|done..].
  assert (a = b).
  { apply (f_equal JS.parseInt) in Hab. rewrite !parseInt_show in Hab.
    congruence. }
  tauto.
Qed.

Lemma user_counters_are_separate_witness :
  RateLimitService.getRateLimitKey (JS.show 1) "/api/v1/trade/order"
  <> RateLimitService.getRateLimitKey (JS.show 11) "/api/v1/trade/order".
Proof. apply user_counters_are_separate. left. lia. Defined.

Lemma checkRateLimit_authenticated request w a :
  auth request = Some a ->
  let endpoint := RateLimitService.normalizeEndpoint (url request) in
  RateLimitService.checkRateLimit request w
  = RateLimitService.checkLimit (JS.show (auth_userId a)) endpoint
      (config_of endpoint w) limit_user w.
Proof.
  intros Ha endpoint. unfold RateLimitService.checkRateLimit. unfold bind at 1.
  rewrite getConfig_run, Ha. fold endpoint.
  unfold bind. by destruct (RateLimitService.checkLimit _ _ _ _ w) as [[info|e] w1].
Qed.

(** X24. A check of an authenticated request consults one counter only:
    with Redis up, the counter of the user's id and the normalised endpoint
    goes up by one and no other key changes; the global counter is not
    touched. *)
Theorem authenticated_caller_has_own_counter (request : Request) (w : World)
    (a : AuthenticatedRequest) :
  auth request = Some a ->
  redis_up w = true ->
  let key := CacheService.getRateLimitKey (auth_userId a)
               (RateLimitService.normalizeEndpoint (url request)) in
  let w' := snd (RateLimitService.checkRateLimit request w) in
  counted (counters w' !! key) = counted (counters w !! key) + 1
  /\ forall k, k <> key -> counters w' !! k = counters w !! k.
Proof.
  intros Ha Hup key w'. subst w'.
  rewrite (checkRateLimit_authenticated _ _ _ Ha), checkLimit_run.
  cbv zeta. rewrite Hup.
  unfold counter_key. rewrite getRateLimitKey_of_user. fold key.
  destruct (_ >? _); cbn [snd fst set_counters counters];
    (split; [by rewrite lookup_insert_eq|]);
    intros k Hk; by rewrite lookup_insert_ne.
Qed.

Lemma authenticated_caller_has_own_counter_witness :
  let key := CacheService.getRateLimitKey 2 "/api/v1/trade/order" in
  let w' := snd (RateLimitService.checkRateLimit bob_authenticated
                                                 accepting_world) in
  counted (counters w' !! key) = counted (counters accepting_world !! key) + 1
  /\ forall k, k <> key -> counters w' !! k = counters accepting_world !! k.
Proof.
  apply (authenticated_caller_has_own_counter bob_authenticated
           accepting_world (mkAuth 2 Sample.bob ["read"; "trade"])).
  - reflexivity.
  - reflexivity.
Defined.

Section Window.

Context (identifier endpoint : string) (config : RateLimitConfig)
        (type : LimitType).

Let key := counter_key type identifier endpoint.
Let seconds := RateLimitService.ceil_seconds (windowMs config).
Let check := RateLimitService.checkLimit identifier endpoint config type.

Lemma checkLimit_counter (w : World) :
  redis_up w = true ->
  let w' := snd (check w) in
  redis_up w' = true
  /\ counters w' = <[key := incremented (counters w !! key) seconds]> (counters w).
Proof.
  intros Hup. subst check. cbv zeta. rewrite checkLimit_run. cbv zeta. rewrite Hup.
  fold key seconds. by destruct (_ >? _).
Qed.

Lemma requests_counter (n : nat) :
  forall (w : World) (j s : Z),
    redis_up w = true ->
    counters w !! key = Some (mkCounter j (Some s)) ->
    1 <= j ->
    counters (snd (requests check n w)) !! key
    = Some (mkCounter (j + Z.of_nat n) (Some s)).
Proof.
  induction n as [|n IH]; intros w j s Hup Hc Hj.
  - simpl. rewrite Hc. do 2 f_equal. lia.
  - simpl. destruct (checkLimit_counter w Hup) as [Hup' Hcs].
    destruct (check w) as [r w1]. simpl in *.
    specialize (IH w1 (j + 1) s Hup').
    destruct (requests check n w1) as [rs w2]. simpl in *.
    rewrite IH; [do 2 f_equal; lia| |lia].
    rewrite Hcs, lookup_insert_eq, Hc. unfold incremented. simpl.
    replace (j + 1 =? 1) with false by lia. by rewrite andb_false_r.
Qed.

End Window.

(** X25. The window is fixed by the first request. Starting from a
    counter that does not exist, after n >= 1 checks the counter holds n
    (rejected requests are counted too) and its expiry is still the window
    set by the first check: later requests never extend it. *)
Theorem window_is_fixed_at_first_request (identifier endpoint : string)
    (config : RateLimitConfig) (type : LimitType) (w : World) (n : nat) :
  redis_up w = true ->
  counters w !! counter_key type identifier endpoint = None ->
  RateLimitService.ceil_seconds (windowMs config) <> 0 ->
  (1 <= n)%nat ->
  counters (snd (requests (RateLimitService.checkLimit identifier endpoint
                             config type) n w))
    !! counter_key type identifier endpoint
  = Some (mkCounter (Z.of_nat n)
                    (Some (RateLimitService.ceil_seconds (windowMs config)))).
Proof.
  intros Hup Hfresh Hs Hn. destruct n as [|n]; [lia|]. simpl.
  destruct (checkLimit_counter identifier endpoint config type w Hup)
    as [Hup' Hcs].
  destruct (RateLimitService.checkLimit identifier endpoint config type w)
    as [r w1]. simpl in *.
  pose proof (requests_counter identifier endpoint config type n w1 1
                (RateLimitService.ceil_seconds (windowMs config)) Hup') as Hrest.
  destruct (requests _ n w1) as [rs w2]. simpl in *.
  rewrite Hrest; [do 2 f_equal; lia| |lia].
  rewrite Hcs, lookup_insert_eq, Hfresh. unfold incremented. simpl.
  by replace (RateLimitService.ceil_seconds (windowMs config) =? 0) with false by lia.
Qed.

Lemma window_is_fixed_at_first_request_witness :
  counters (snd (requests (RateLimitService.checkLimit "42" "/api/v1/test"
                             (mkConfig 60000 2) limit_user) 5
                          (Sample.world [] ∅ 0 Sample.accepts)))
    !! counter_key limit_user "42" "/api/v1/test"
  = Some (mkCounter (Z.of_nat 5)
                    (Some (RateLimitService.ceil_seconds
                             (windowMs (mkConfig 60000 2))))).
Proof.
  apply window_is_fixed_at_first_request.
  - reflexivity.
  - vm_compute. reflexivity.
  - vm_compute. discriminate.
  - lia.
Defined.

Lemma lookup_exact_map_set endpoint config configs other :
  RateLimitService.lookup_exact other (RateLimitAdmin.map_set endpoint config configs)
  = if String.eqb endpoint other then Some config
    else RateLimitService.lookup_exact other configs.
Proof.
  induction configs as [|[pattern c] rest IH]; simpl.
  - by destruct (String.eqb endpoint other).
  - destruct (String.eqb_spec pattern endpoint) as [->|Hne]; simpl.
    + by destruct (String.eqb endpoint other).
    + rewrite IH. destruct (String.eqb_spec pattern other) as [->|Hne2]; [|done].
      destruct (String.eqb_spec endpoint other); congruence.
Qed.

(** X26. [setEndpointConfig] then [getEndpointConfig] returns the
    configuration just set; the exact entry of every other endpoint is
    unchanged, and replacing an existing entry does not lengthen the
    table. *)
Theorem setEndpointConfig_then_getEndpointConfig (endpoint : string)
    (config : RateLimitConfig) (w : World) :
  let w' := snd (RateLimitAdmin.setEndpointConfig endpoint config w) in
  RateLimitAdmin.getEndpointConfig endpoint w' = (Return config, w')
  /\ (forall other,
        other <> endpoint ->
        RateLimitService.lookup_exact other (endpointConfigs w')
        = RateLimitService.lookup_exact other (endpointConfigs w))
  /\ (is_Some (RateLimitService.lookup_exact endpoint (endpointConfigs w)) ->
      length (endpointConfigs w') = length (endpointConfigs w)).
Proof.
  unfold RateLimitAdmin.setEndpointConfig, RateLimitAdmin.getEndpointConfig,
    modify. cbn [snd]. split; [|split].
  - rewrite getConfig_run. unfold config_of.
    cbn [endpointConfigs set_endpointConfigs].
    by rewrite lookup_exact_map_set, String.eqb_refl.
  - intros other Hne. cbn [endpointConfigs set_endpointConfigs].
    rewrite lookup_exact_map_set.
    destruct (String.eqb_spec endpoint other); congruence.
  - cbn [endpointConfigs set_endpointConfigs].
    induction (endpointConfigs w) as [|[pattern c] rest IH]; simpl.
    + by intros [? ?].
    + destruct (String.eqb_spec pattern endpoint) as [->|Hne]; simpl; [done|].
      intros H. by rewrite IH.
Qed.

Lemma user_key_is_not_global identifier endpoint ip :
  RateLimitService.getRateLimitKey identifier endpoint
  <> RateLimitService.getGlobalRateLimitKey ip.
Proof.
  unfold RateLimitService.getRateLimitKey, CacheService.getRateLimitKey,
    RateLimitService.getGlobalRateLimitKey.
  destruct (show_shape (JS.or_zero (JS.parseInt identifier)))
    as (c & r & -> & Hc & _).
  intros Heq. simplify_eq/=. by destruct Hc.
Qed.

(** X27. [resetLimit] removes the counter of the identifier and endpoint
    and nothing else: every other key, and in particular every global
    counter, is unchanged; the next check of that endpoint counts from one
    and is admitted when the limit is at least one. *)
Theorem resetLimit_restarts_endpoint_counter (identifier endpoint : string)
    (config : RateLimitConfig) (w : World) :
  redis_up w = true ->
  1 <= maxRequests config ->
  let key := RateLimitService.getRateLimitKey identifier endpoint in
  let w1 := snd (RateLimitAdmin.resetLimit identifier endpoint w) in
  fst (RateLimitAdmin.resetLimit identifier endpoint w) = Return tt
  /\ counters w1 !! key = None
  /\ (forall k, k <> key -> counters w1 !! k = counters w !! k)
  /\ (forall ip,
        counters w1 !! RateLimitService.getGlobalRateLimitKey ip
        = counters w !! RateLimitService.getGlobalRateLimitKey ip)
  /\ fst (RateLimitService.checkLimit identifier endpoint config limit_user w1)
     = Return (mkInfo (maxRequests config) (maxRequests config - 1)
                      (now w + windowMs config) None).
Proof.
  intros Hup HL key w1. subst w1.
  unfold RateLimitAdmin.resetLimit, RateLimitAdmin.del, CacheService.command.
  fold key. rewrite Hup. cbn [fst snd].
  split; [done|]. split; [apply lookup_delete_eq|]. split; [|split].
  - intros k Hk. cbn [counters set_counters]. by rewrite lookup_delete_ne.
  - intros ip. cbn [counters set_counters]. rewrite lookup_delete_ne; [done|].
    apply user_key_is_not_global.
  - rewrite checkLimit_run. cbv zeta. cbn [redis_up set_counters set_user_cache].
    rewrite Hup. unfold counter_key. fold key.
    cbn [counters set_counters]. rewrite lookup_delete_eq.
    unfold incremented. cbn [count counted].
    replace (0 + 1 >? maxRequests config) with false by lia.
    cbn [fst now set_counters set_user_cache]. do 2 f_equal. lia.
Qed.

Lemma resetLimit_restarts_endpoint_counter_witness :
  let key := RateLimitService.getRateLimitKey "10.0.0.1" "/api/v1/market/ticker" in
  let w1 := snd (RateLimitAdmin.resetLimit "10.0.0.1" "/api/v1/market/ticker"
                                           busy_world) in
  fst (RateLimitAdmin.resetLimit "10.0.0.1" "/api/v1/market/ticker" busy_world)
  = Return tt
  /\ counters w1 !! key = None
  /\ (forall k, k <> key -> counters w1 !! k = counters busy_world !! k)
  /\ (forall ip,
        counters w1 !! RateLimitService.getGlobalRateLimitKey ip
        = counters busy_world !! RateLimitService.getGlobalRateLimitKey ip)
  /\ fst (RateLimitService.checkLimit "10.0.0.1" "/api/v1/market/ticker"
                                      (mkConfig 60000 200) limit_user w1)
     = Return (mkInfo (maxRequests (mkConfig 60000 200))
                      (maxRequests (mkConfig 60000 200) - 1)
                      (now busy_world + windowMs (mkConfig 60000 200)) None).
Proof.
  apply (resetLimit_restarts_endpoint_counter "10.0.0.1" "/api/v1/market/ticker"
           (mkConfig 60000 200) busy_world).
  - reflexivity.
  - simpl. lia.
Defined.


Lemma checkRateLimit_throws request w e :
  fst (RateLimitService.checkRateLimit request w) = Throw e ->
  exists d,
    e = mkError RateLimitError "请求频率超限" (Some d)
    /\ 1 <= details_retryAfter d
    /\ details_limit d < details_current d.
Proof.
  unfold RateLimitService.checkRateLimit. unfold bind at 1.
  rewrite getConfig_run.
  set (config := config_of _ w).
  destruct (auth request) as [a|]; unfold bind at 1.
  - destruct (RateLimitService.checkLimit _ _ _ _ w) as [[info|e1] w1] eqn:H1;
      simpl; [done|].
    intros [= <-]. eapply checkLimit_throws. by rewrite H1.
  - destruct (RateLimitService.checkLimit _ _ _ _ w) as [[info|e1] w1] eqn:H1;
      simpl.
    + unfold bind.
      destruct (RateLimitService.checkLimit _ _ _ _ w1) as [[info2|e2] w2] eqn:H2;
        simpl.
      * by destruct (_ <? _).
      * intros [= <-]. eapply checkLimit_throws. by rewrite H2.
    + intros [= <-]. eapply checkLimit_throws. by rewrite H1.
Qed.

(** X28. [rateLimitMiddleware] never throws and has two outcomes only.
    Either the check passed and the reply carries the three X-RateLimit
    headers of the information returned; or the reply is sent with status
    429, the code RATE_LIMIT_EXCEEDED and a Retry-After header of at least
    one second. The branch for other errors is never taken, since
    [checkRateLimit] throws nothing but a [RateLimitError]. *)
Theorem rateLimitMiddleware_replies (request : Request) (reply : Reply)
    (w : World) :
  exists reply',
    fst (Middleware.rateLimitMiddleware request reply w) = Return reply'
    /\ ((exists info,
           fst (RateLimitService.checkRateLimit request w) = Return info
           /\ reply'
              = reply_header "X-RateLimit-Reset" (reset info)
                  (reply_header "X-RateLimit-Remaining" (remaining info)
                     (reply_header "X-RateLimit-Limit" (limit info) reply)))
        \/ (exists d,
              fst (RateLimitService.checkRateLimit request w)
              = Throw (mkError RateLimitError "请求频率超限" (Some d))
              /\ 1 <= details_retryAfter d
              /\ AppError.statusCode RateLimitError = Some 429
              /\ reply'
                 = reply_send
                     (mkBody (Some "RATE_LIMIT_EXCEEDED") "请求频率超限"
                             (Some (details_limit d, details_retryAfter d)))
                     (reply_header "Retry-After" (details_retryAfter d)
                        (reply_set_status 429 reply)))).
Proof.
  pose proof (checkRateLimit_throws request w) as Hthrow.
  unfold Middleware.rateLimitMiddleware, try_catch, bind.
  destruct (RateLimitService.checkRateLimit request w) as [[info|e] w1];
    simpl in *.
  - eexists. split; [reflexivity|]. left. by exists info.
  - destruct (Hthrow e eq_refl) as (d & -> & Hd & _). simpl.
    unfold Middleware.retryAfter_header.
    replace (details_retryAfter d =? 0) with false by lia.
    eexists. split; [reflexivity|]. right. by exists d.
Qed.

Lemma before_query_cut u q :
  RateLimitService.before_query (u +:+ "?" +:+ q) = RateLimitService.before_query u.
Proof.
  induction u as [|c u IH]; [done|]. simpl.
  destruct (Ascii.eqb c "?"); [done|]. by rewrite IH.
Qed.

Lemma before_query_digits d :
  all_digits d = true -> RateLimitService.before_query d = d.
Proof.
  induction d as [|c d IH]; [done|]. simpl. intros [Hc Hd]%andb_prop.
  rewrite IH by done. by digit_cases Hc.
Qed.

Lemma replace_ids_digits d :
  all_digits d = true -> RateLimitService.replace_ids d true = "".
Proof.
  induction d as [|c d IH]; [done|]. simpl. intros [-> Hd]%andb_prop.
  by apply IH.
Qed.

Lemma before_query_id p d1 d2 :
  all_digits d1 = true -> all_digits d2 = true ->
  RateLimitService.before_query (p +:+ "/" +:+ d1)
  = RateLimitService.before_query (p +:+ "/" +:+ d2)
  \/ exists p',
       RateLimitService.before_query (p +:+ "/" +:+ d1) = p' +:+ "/" +:+ d1
       /\ RateLimitService.before_query (p +:+ "/" +:+ d2) = p' +:+ "/" +:+ d2.
Proof.
  intros H1 H2. induction p as [|c p IH].
  - right. exists "". simpl. by rewrite !before_query_digits.
  - simpl. destruct (Ascii.eqb c "?"); [by left|].
    destruct IH as [->|(p' & -> & ->)]; [by left|].
    right. by exists (String c p').
Qed.

Lemma replace_ids_id p d1 d2 :
  all_digits d1 = true -> d1 <> "" -> all_digits d2 = true -> d2 <> "" ->
  forall skipping,
    RateLimitService.replace_ids (p +:+ "/" +:+ d1) skipping
    = RateLimitService.replace_ids (p +:+ "/" +:+ d2) skipping.
Proof.
  intros H1 Hn1 H2 Hn2.
  assert (Hnext : forall d, all_digits d = true -> d <> "" ->
                            RateLimitService.next_is RateLimitService.is_digit d = true).
  { intros [|c d] Hd Hne; [done|]. simpl in *. by apply andb_prop in Hd as [-> _]. }
  induction p as [|c p IH]; intros skipping.
  - simpl. rewrite andb_false_r. simpl.
    rewrite !Hnext by done. by rewrite !replace_ids_digits.
  - simpl.
    destruct (skipping && RateLimitService.is_digit c); [apply IH|].
    assert (RateLimitService.next_is RateLimitService.is_digit (p +:+ "/" +:+ d1)
            = RateLimitService.next_is RateLimitService.is_digit (p +:+ "/" +:+ d2))
      as -> by (by destruct p).
    destruct (Ascii.eqb c "/" && _); by rewrite IH.
Qed.

(** X29. [normalizeEndpoint] maps the paths that differ only in a final
    numeric segment to the same endpoint, and ignores the query string. *)
Theorem normalizeEndpoint_drops_ids_and_query (p d1 d2 u q : string) :
  all_digits d1 = true -> d1 <> "" ->
  all_digits d2 = true -> d2 <> "" ->
  RateLimitService.normalizeEndpoint (p +:+ "/" +:+ d1)
  = RateLimitService.normalizeEndpoint (p +:+ "/" +:+ d2)
  /\ RateLimitService.normalizeEndpoint (u +:+ "?" +:+ q)
     = RateLimitService.normalizeEndpoint u.
Proof.
  intros H1 Hn1 H2 Hn2. unfold RateLimitService.normalizeEndpoint. split.
  - destruct (before_query_id p d1 d2 H1 H2) as [->|(p' & -> & ->)]; [done|].
    by rewrite (replace_ids_id p' d1 d2).
  - by rewrite before_query_cut.
Qed.

Lemma normalizeEndpoint_drops_ids_and_query_witness :
  RateLimitService.normalizeEndpoint ("/api/v1/trade/order" +:+ "/" +:+ "123")
  = RateLimitService.normalizeEndpoint ("/api/v1/trade/order" +:+ "/" +:+ "4567")
  /\ RateLimitService.normalizeEndpoint
       ("/api/v1/market/ticker" +:+ "?" +:+ "exchange=okx")
     = RateLimitService.normalizeEndpoint "/api/v1/market/ticker".
Proof.
  apply normalizeEndpoint_drops_ids_and_query; (reflexivity || discriminate).
Defined.

(** X30. The hook made by [createEndpointRateLimit] applies its own
    configuration: it stores the configuration under the normalised
    endpoint of the request, whatever the table held, and an authenticated
    request within that limit gets the headers of that configuration. *)
Theorem createEndpointRateLimit_applies_its_config (config : RateLimitConfig)
    (request : Request) (reply : Reply) (w : World) (a : AuthenticatedRequest) :
  auth request = Some a ->
  redis_up w = true ->
  let endpoint := RateLimitService.normalizeEndpoint (url request) in
  let key := CacheService.getRateLimitKey (auth_userId a) endpoint in
  let n := counted (counters w !! key) + 1 in
  n <= maxRequests config ->
  let run := Middleware.createEndpointRateLimit config request reply w in
  fst run
  = Return (reply_header "X-RateLimit-Reset" (now w + windowMs config)
              (reply_header "X-RateLimit-Remaining" (maxRequests config - n)
                 (reply_header "X-RateLimit-Limit" (maxRequests config) reply)))
  /\ RateLimitService.lookup_exact endpoint (endpointConfigs (snd run)) = Some config.
Proof.
  intros Ha Hup endpoint key n Hn run.
  set (w1 := set_endpointConfigs
               (RateLimitAdmin.map_set endpoint config (endpointConfigs w)) w).
  assert (Hexact : RateLimitService.lookup_exact endpoint (endpointConfigs w1)
                   = Some config).
  { subst w1. cbn [endpointConfigs set_endpointConfigs].
    by rewrite lookup_exact_map_set, String.eqb_refl. }
  assert (Hcheck : exists w2,
             RateLimitService.checkRateLimit request w1
             = (Return (mkInfo (maxRequests config) (maxRequests config - n)
                               (now w + windowMs config) None), w2)
             /\ endpointConfigs w2 = endpointConfigs w1).
  { rewrite (checkRateLimit_authenticated _ _ _ Ha). fold endpoint.
    replace (config_of endpoint w1) with config
      by (unfold config_of; by rewrite Hexact).
    rewrite checkLimit_run. cbv zeta.
    change (redis_up w1) with (redis_up w). rewrite Hup.
    unfold counter_key. rewrite getRateLimitKey_of_user. fold key.
    change (counters w1) with (counters w).
    unfold incremented. cbn [count]. fold n.
    replace (n >? maxRequests config) with false by lia.
    rewrite Z.max_r by lia.
    eexists. split; reflexivity. }
  destruct Hcheck as (w2 & Hcheck & Hconfigs).
  assert (Hrun : run
                 = (Return (reply_header "X-RateLimit-Reset" (now w + windowMs config)
                      (reply_header "X-RateLimit-Remaining" (maxRequests config - n)
                         (reply_header "X-RateLimit-Limit" (maxRequests config)
                            reply))), w2)).
  { subst run.
    unfold Middleware.createEndpointRateLimit, bind at 1,
      RateLimitAdmin.setEndpointConfig, modify. fold endpoint. fold w1.
    unfold Middleware.rateLimitMiddleware, try_catch, bind.
    by rewrite Hcheck. }
  rewrite Hrun. cbn [fst snd]. split; [done|]. by rewrite Hconfigs.
Qed.

Lemma createEndpointRateLimit_applies_its_config_witness :
  let run := Middleware.createEndpointRateLimit (mkConfig 1000 5)
               bob_authenticated (mkReply None [] None) accepting_world in
  fst run
  = Return (reply_header "X-RateLimit-Reset" (1700000000000 + 1000)
              (reply_header "X-RateLimit-Remaining" (5 - (0 + 1))
                 (reply_header "X-RateLimit-Limit" 5 (mkReply None [] None))))
  /\ RateLimitService.lookup_exact "/api/v1/trade/order" (endpointConfigs (snd run))
     = Some (mkConfig 1000 5).
Proof.
  apply (createEndpointRateLimit_applies_its_config (mkConfig 1000 5)
           bob_authenticated (mkReply None [] None) accepting_world
           (mkAuth 2 Sample.bob ["read"; "trade"])).
  - reflexivity.
  - reflexivity.
  - vm_compute. discriminate.
Defined.
